(** * Verification of vulmap's concurrency and request-throttling core

    Shallow embedding of [src/common/rate_limiter.py] and
    [src/common/concurrent_manager.py], followed by the properties of the
    specification that concern them.

    Python [float] is IEEE-754 binary64 and is modelled by Rocq's primitive
    [float] (the same format, round to nearest even).  Python [int] is
    unbounded and is modelled by [Z].  A [dict] keyed by host names is a
    [gmap string _]; a [deque] or [list] is a [list]. *)

From Stdlib Require Import ZArith List Lia Floats Permutation Sorted.
From stdpp Require Import base option list gmap strings pretty.

Set Warnings "-inexact-float".
Local Open Scope Z_scope.

(* ================================================================== *)
(** * Part I: the embedding                                            *)
(* ================================================================== *)

(** ** Python numbers *)

Module PyNum.

(** [float(z)] for an [int]: the nearest binary64 value.  CPython raises
    [OverflowError] where this gives an infinity (|z| >= 2^1024). *)
Definition float_of_int (z : Z) : float :=
  SF2Prim (binary_normalize prec emax z 0 false).

(** An [int] as an exact (unrounded) specification float. *)
Definition exact_of_int (z : Z) : spec_float :=
  match z with
  | Z0 => S754_zero false
  | Zpos p => S754_finite false p 0
  | Zneg p => S754_finite true p 0
  end.

(** [a / b] on two [int]s (true division): the correctly rounded
    quotient; [None] is [ZeroDivisionError]. *)
Definition int_truediv (a b : Z) : option float :=
  if Z.eqb b 0 then None
  else Some (SF2Prim (SFdiv prec emax (exact_of_int a) (exact_of_int b))).

(** [int(x)] on a [float]: truncation toward zero; [None] is the
    [OverflowError] / [ValueError] raised on infinities and NaN. *)
Definition int_of_float (x : float) : option Z :=
  match Prim2SF x with
  | S754_zero _ => Some 0
  | S754_finite s m e =>
      let mag := match e with
                 | Zneg k => Z.shiftr (Zpos m) (Zpos k)
                 | _ => Z.shiftl (Zpos m) e
                 end in
      Some (if s then - mag else mag)
  | S754_infinity _ | S754_nan => None
  end.

(** [max(0, x)] for a float [x]: the builtin keeps its first argument
    unless a later one compares strictly greater. *)
Definition max0 (x : float) : float :=
  if PrimFloat.ltb 0 x then x else 0%float.

(** [time.sleep(d)] for a float [d]: the exception CPython raises, if
    any.  A NaN is refused first.  The duration is then turned into a
    count of nanoseconds, [d * 1e9] rounded away from zero to an integer,
    which has to fit a signed 64-bit integer: outside
    [-2^63 <= count < 2^63] the call raises [OverflowError], for the
    infinities too.  Only then is a negative count refused.  The floats
    of magnitude 2^52 and more are integers, so the rounding to an
    integer moves [d * 1e9] across neither bound, and the count is
    negative exactly when [d] is. *)
Definition sleep_error (d : float) : option string :=
  if PrimFloat.is_nan d then Some "Invalid value NaN (not a number)"
  else
    let ns := (d * 1e9)%float in
    if negb (PrimFloat.leb (-9223372036854775808) ns
             && PrimFloat.ltb ns 9223372036854775808)
    then Some "timestamp too large to convert to C _PyTime_t"
    else if PrimFloat.ltb d 0 then Some "sleep length must be non-negative"
    else None.

(** [x > y] and [x >= y] are the flipped primitive comparisons. *)
Definition gtb (x y : float) : bool := PrimFloat.ltb y x.
Definition geb (x y : float) : bool := PrimFloat.leb y x.

(** [range(start, stop, step)] as the list it iterates over; [None] is
    the [ValueError] of a zero step. *)
Definition range (start stop step : Z) : option (list Z) :=
  if Z.eqb step 0 then None
  else
    let len :=
      if Z.ltb 0 step
      then (if Z.ltb start stop then (stop - start - 1) / step + 1 else 0)
      else (if Z.ltb stop start then (start - stop - 1) / (- step) + 1 else 0) in
    Some (List.map (fun k => start + Z.of_nat k * step) (seq 0 (Z.to_nat len))).

(** [l[lo:hi]] for bounds that are not negative (the only ones the
    embedded code produces): out-of-range bounds are clamped. *)
Definition slice {A} (l : list A) (lo hi : Z) : list A :=
  take (Z.to_nat (hi - lo)) (drop (Z.to_nat lo) l).

End PyNum.

(** ** The environment of rate_limiter.py: clock, sleeping, randomness *)

Module Env.

(** The outside world as the module sees it.  [clock k] is what the
    [k]-th call of [time.time()] returns, and [draws k a b] what
    [random.uniform(a, b)] returns when it is the [k]-th draw; both are
    arbitrary.  [sleeps] lists the durations [time.sleep] has slept,
    oldest first. *)
Record World := mkWorld {
  clock : nat -> float;
  ticks : nat;
  draws : nat -> float -> float -> float;
  drawn : nat;
  sleeps : list float
}.

Definition Py (A : Type) : Type := World -> A * World.

(** How a call that can raise ends: with its result, or with an
    exception (given by its message). *)
Inductive Try (A : Type) : Type :=
| Ok (a : A)
| Exn (e : string).
Arguments Ok {A} a.
Arguments Exn {A} e.

#[global] Instance Py_ret : MRet Py := fun A a w => (a, w).
#[global] Instance Py_bind : MBind Py :=
  fun A B f m w => let '(a, w') := m w in f a w'.

Definition time_time : Py float :=
  fun w => (clock w (ticks w),
            mkWorld (clock w) (S (ticks w)) (draws w) (drawn w) (sleeps w)).

(** [time.sleep(d)]: a duration it refuses raises and is not slept. *)
Definition time_sleep (d : float) : Py (Try unit) :=
  fun w =>
    match PyNum.sleep_error d with
    | Some e => (Exn e, w)
    | None =>
        (Ok tt,
         mkWorld (clock w) (ticks w) (draws w) (drawn w) (sleeps w ++ [d]))
    end.

Definition random_uniform (a b : float) : Py float :=
  fun w => (draws w (drawn w) a b,
            mkWorld (clock w) (ticks w) (draws w) (S (drawn w)) (sleeps w)).

End Env.
Import Env.

(** ** rate_limiter.py : RateLimiter *)

(** The locks of this module are never taken twice by one thread, so for
    a single caller [with self.lock:] is transparent and is not modelled. *)

(** [self.requests]: one deque when [global_limit] is set, otherwise a
    [defaultdict] from host to deque.  The constructor ties the shape to
    the flag, so the flag is read off the shape. *)
Inductive Windows :=
| GlobalWindow (q : list float)
| HostWindows (m : gmap string (list float)).

Record RateLimiter := mkRateLimiter {
  max_requests : Z;
  time_window : float;
  requests : Windows
}.

Definition global_limit (self : RateLimiter) : bool :=
  match requests self with GlobalWindow _ => true | HostWindows _ => false end.

Definition RateLimiter_init (max_requests : Z) (time_window : float)
    (global_limit : bool) : RateLimiter :=
  mkRateLimiter max_requests time_window
    (if global_limit then GlobalWindow [] else HostWindows ∅).

Definition set_requests (self : RateLimiter) (r : Windows) : RateLimiter :=
  mkRateLimiter (max_requests self) (time_window self) r.

Definition set_max_requests (rate : Z) (self : RateLimiter) : RateLimiter :=
  mkRateLimiter rate (time_window self) (requests self).

(** [host or 'default']: [None] and the empty string are falsy. *)
Definition scope_key (host : option string) : string :=
  match host with
  | Some h => if String.eqb h "" then "default" else h
  | None => "default"
  end.

(** The deque a scope reads; a [defaultdict] miss is a fresh empty deque. *)
Definition scope_window (self : RateLimiter) (host : option string) : list float :=
  match requests self with
  | GlobalWindow q => q
  | HostWindows m => default [] (m !! scope_key host)
  end.

(** Storing a scope's deque back (the [defaultdict] now holds the key). *)
Definition set_scope_window (self : RateLimiter) (host : option string)
    (q : list float) : RateLimiter :=
  match requests self with
  | GlobalWindow _ => set_requests self (GlobalWindow q)
  | HostWindows m => set_requests self (HostWindows (<[scope_key host := q]> m))
  end.

(** [while q and q[0] <= threshold: q.popleft()] *)
Fixpoint evict (threshold : float) (q : list float) : list float :=
  match q with
  | [] => []
  | t :: rest => if PrimFloat.leb t threshold then evict threshold rest else q
  end.

Definition can_make_request (self : RateLimiter) (host : option string)
    : Py (bool * RateLimiter) :=
  current_time ← time_time;
  let host_requests :=
    evict (current_time - time_window self)%float (scope_window self host) in
  mret (Z.ltb (Z.of_nat (length host_requests)) (max_requests self),
        set_scope_window self host host_requests).

Definition record_request (self : RateLimiter) (host : option string)
    : Py RateLimiter :=
  current_time ← time_time;
  mret (set_scope_window self host (scope_window self host ++ [current_time])).

(** The call returns the wait, or raises what [time.sleep] raised; in
    the second case the request is not recorded.  The limiter is returned
    in both. *)
Definition wait_if_needed (self : RateLimiter) (host : option string)
    : Py (Try float * RateLimiter) :=
  '(ok, self) ← can_make_request self host;
  if ok : bool then
    self ← record_request self host;
    mret (Ok 0%float, self)
  else
    current_time ← time_time;
    let sleep_time :=
      match scope_window self host with
      | earliest_time :: _ =>
          PyNum.max0 (earliest_time + time_window self - current_time)%float
      | [] => 0%float
      end in
    slept ← (if PyNum.gtb sleep_time 0 then time_sleep sleep_time
             else mret (Ok tt));
    match slept with
    | Ok _ =>
        mret (Ok sleep_time,
              set_scope_window self host
                (scope_window self host ++ [(current_time + sleep_time)%float]))
    | Exn e => mret (Exn e, self)
    end.

(** *** Reading a window by brute force, and polling *)

(** [timestamp > now - time_window] *)
Definition in_window (self : RateLimiter) (now t : float) : bool :=
  PyNum.gtb t (now - time_window self)%float.

Definition brute_force_window (self : RateLimiter) (host : option string)
    (now : float) : list float :=
  List.filter (in_window self now) (scope_window self host).

(** What a scope may still admit at [now], counted by brute force. *)
Definition remaining_capacity (self : RateLimiter) (host : option string)
    (now : float) : Z :=
  max_requests self - Z.of_nat (length (brute_force_window self host now)).

(** [n] calls of [can_make_request] in a row, nothing in between. *)
Fixpoint poll (n : nat) (self : RateLimiter) (host : option string)
    : Py (list bool * RateLimiter) :=
  match n with
  | O => mret ([], self)
  | S n' =>
      '(b, self) ← can_make_request self host;
      '(bs, self) ← poll n' self host;
      mret (b :: bs, self)
  end.

(** ** rate_limiter.py : AdaptiveRateLimiter *)

Record AdaptiveRateLimiter := mkAdaptive {
  initial_rate : Z;
  min_rate : Z;
  max_rate : Z;
  current_rate : Z;
  success_count : Z;
  failure_count : Z;
  window_start : float;
  window_size : Z;
  limiters : gmap string RateLimiter
}.

Definition AdaptiveRateLimiter_init (initial_rate min_rate max_rate : Z)
    : Py AdaptiveRateLimiter :=
  now ← time_time;
  mret (mkAdaptive initial_rate min_rate max_rate initial_rate 0 0 now 10 ∅).

Definition get_limiter (self : AdaptiveRateLimiter) (host : string)
    : RateLimiter * AdaptiveRateLimiter :=
  match limiters self !! host with
  | Some l => (l, self)
  | None =>
      let l := RateLimiter_init (current_rate self) 1 false in
      (l, mkAdaptive (initial_rate self) (min_rate self) (max_rate self)
            (current_rate self) (success_count self) (failure_count self)
            (window_start self) (window_size self)
            (<[host := l]> (limiters self)))
  end.

(** [self.success_count += 1] or [self.failure_count += 1] *)
Definition count_result (self : AdaptiveRateLimiter) (success : bool)
    : AdaptiveRateLimiter :=
  mkAdaptive (initial_rate self) (min_rate self) (max_rate self)
    (current_rate self)
    (if success then success_count self + 1 else success_count self)
    (if success then failure_count self else failure_count self + 1)
    (window_start self) (window_size self) (limiters self).

(** [self.success_count / max(1, self.success_count + self.failure_count)] *)
Definition window_success_rate (self : AdaptiveRateLimiter) : option float :=
  PyNum.int_truediv (success_count self)
    (Z.max 1 (success_count self + failure_count self)).

(** The rate the [if / elif] on the success rate selects; [None] is an
    exception of [int(...)]. *)
Definition adjusted_rate (self : AdaptiveRateLimiter) (success_rate : float)
    : option Z :=
  if PyNum.gtb success_rate 0.9 then
    r ← PyNum.int_of_float (PyNum.float_of_int (current_rate self) * 1.1)%float;
    Some (Z.min (max_rate self) r)
  else if PrimFloat.ltb success_rate 0.7 then
    r ← PyNum.int_of_float (PyNum.float_of_int (current_rate self) * 0.9)%float;
    Some (Z.max (min_rate self) r)
  else Some (current_rate self).

(** The body of [if current_time - self.window_start >= self.window_size]. *)
Definition rollover (self : AdaptiveRateLimiter) (current_time : float)
    : option AdaptiveRateLimiter :=
  success_rate ← window_success_rate self;
  rate ← adjusted_rate self success_rate;
  Some (mkAdaptive (initial_rate self) (min_rate self) (max_rate self)
          rate 0 0 current_time (window_size self)
          (set_max_requests rate <$> limiters self)).

(** [current_time - self.window_start >= self.window_size] *)
Definition window_elapsed (self : AdaptiveRateLimiter) (current_time : float)
    : bool :=
  PyNum.geb (current_time - window_start self)%float
            (PyNum.float_of_int (window_size self)).

(** [None] stands for an exception leaving [report_result]. *)
Definition report_result (self : AdaptiveRateLimiter) (host : string)
    (success : bool) : Py (option AdaptiveRateLimiter) :=
  let self := count_result self success in
  current_time ← time_time;
  if window_elapsed self current_time
  then mret (rollover self current_time)
  else mret (Some self).

(** A run of reports, stopping at the first exception. *)
Fixpoint report_results (self : AdaptiveRateLimiter)
    (results : list (string * bool)) : Py (option AdaptiveRateLimiter) :=
  match results with
  | [] => mret (Some self)
  | (host, success) :: rest =>
      r ← report_result self host success;
      match r with
      | Some self' => report_results self' rest
      | None => mret None
      end
  end.

(** How many of a run of reports are successes, how many failures. *)
Definition successes (results : list (string * bool)) : Z :=
  Z.of_nat (length (List.filter (fun r => snd r) results)).

Definition failures (results : list (string * bool)) : Z :=
  Z.of_nat (length (List.filter (fun r => negb (snd r)) results)).

(** [self'] is [self] after a rollover at [now] that set the rate to
    [rate]: counters cleared, window restarted, bounds kept, and the new
    rate written to every limiter that existed (no limiter added or
    dropped, nothing else in them touched). *)
Definition rolled_over (self self' : AdaptiveRateLimiter) (rate : Z)
    (now : float) : Prop :=
  current_rate self' = rate
  /\ success_count self' = 0
  /\ failure_count self' = 0
  /\ window_start self' = now
  /\ min_rate self' = min_rate self
  /\ max_rate self' = max_rate self
  /\ dom (limiters self') = dom (limiters self)
  /\ forall host l, limiters self !! host = Some l ->
        limiters self' !! host = Some (set_max_requests rate l).

Definition AdaptiveRateLimiter_wait_if_needed (self : AdaptiveRateLimiter)
    (host : string) : Py (Try float * AdaptiveRateLimiter) :=
  let '(limiter, self) := get_limiter self host in
  '(waited, limiter) ← wait_if_needed limiter (Some host);
  mret (waited,
        mkAdaptive (initial_rate self) (min_rate self) (max_rate self)
          (current_rate self) (success_count self) (failure_count self)
          (window_start self) (window_size self)
          (<[host := limiter]> (limiters self))).

(** ** rate_limiter.py : DelayManager *)

Record DelayManager := mkDelayManager {
  base_delay : float;
  jitter : float;
  host_delays : gmap string float
}.

Definition DelayManager_init (base_delay jitter : float) : DelayManager :=
  mkDelayManager base_delay jitter ∅.

(** [self.host_delays.get(host, self.base_delay)] *)
Definition host_base (self : DelayManager) (host : string) : float :=
  default (base_delay self) (host_delays self !! host).

Definition get_delay (self : DelayManager) (host : string) : Py float :=
  r ← random_uniform (- jitter self)%float (jitter self);
  mret (host_base self host + r)%float.

Definition set_host_delay (self : DelayManager) (host : string) (delay : float)
    : DelayManager :=
  mkDelayManager (base_delay self) (jitter self) (<[host := delay]> (host_delays self)).

Definition apply_delay (self : DelayManager) (host : string) : Py (Try unit) :=
  delay ← get_delay self host;
  if PyNum.gtb delay 0 then time_sleep delay else mret (Ok tt).

(** [apply_delay] for one host after the other, stopping at the first
    exception. *)
Fixpoint apply_delays (self : DelayManager) (hosts : list string)
    : Py (Try unit) :=
  match hosts with
  | [] => mret (Ok tt)
  | host :: rest =>
      r ← apply_delay self host;
      match r with
      | Ok _ => apply_delays self rest
      | Exn e => mret (Exn e)
      end
  end.

(** [n] calls of [wait_if_needed] back to back, with the waits returned;
    the run stops at the first exception. *)
Fixpoint wait_burst (n : nat) (self : RateLimiter) (host : option string)
    : Py (Try (list float) * RateLimiter) :=
  match n with
  | O => mret (Ok [], self)
  | S n' =>
      '(waited, self) ← wait_if_needed self host;
      match waited with
      | Ok waited =>
          '(rest, self) ← wait_burst n' self host;
          mret (match rest with
                | Ok rest => Ok (waited :: rest)
                | Exn e => Exn e
                end, self)
      | Exn e => mret (Exn e, self)
      end
  end.

(** ** concurrent_manager.py *)

Module ThreadPool.

(** What running a caller-supplied unit of work gives: a value, or an
    exception (kept as its message). *)
Inductive Outcome (V : Type) : Type :=
| Returns (v : V)
| Raises (e : string).
Arguments Returns {V} v.
Arguments Raises {V} e.

Record ResourceMetrics := mkMetrics {
  cpu_percent : float;
  memory_percent : float;
  active_threads : Z;
  queue_size : Z;
  timestamp : float
}.

(** A [ThreadPoolExecutor]: its [max_workers], and whether [shutdown]
    was called on it. *)
Record Executor := mkExecutor {
  executor_max_workers : Z;
  executor_shutdown : bool
}.

(** [_lock] is [true] while some thread holds the (non-reentrant)
    [threading.Lock].  Of [_task_queue] only the size is ever read. *)
Record DynamicThreadPool := mkPool {
  min_workers : Z;
  max_workers : Z;
  cpu_threshold : float;
  memory_threshold : float;
  _executor : option Executor;
  _current_workers : Z;
  _lock : bool;
  _task_queue : list unit;
  _metrics_history : list ResourceMetrics;
  _stop_event : bool
}.

Definition set_executor (e : option Executor) (p : DynamicThreadPool) :=
  mkPool (min_workers p) (max_workers p) (cpu_threshold p) (memory_threshold p)
    e (_current_workers p) (_lock p) (_task_queue p) (_metrics_history p)
    (_stop_event p).

Definition set_current_workers (n : Z) (p : DynamicThreadPool) :=
  mkPool (min_workers p) (max_workers p) (cpu_threshold p) (memory_threshold p)
    (_executor p) n (_lock p) (_task_queue p) (_metrics_history p)
    (_stop_event p).

Definition set_lock (b : bool) (p : DynamicThreadPool) :=
  mkPool (min_workers p) (max_workers p) (cpu_threshold p) (memory_threshold p)
    (_executor p) (_current_workers p) b (_task_queue p) (_metrics_history p)
    (_stop_event p).

Definition set_metrics_history (h : list ResourceMetrics) (p : DynamicThreadPool) :=
  mkPool (min_workers p) (max_workers p) (cpu_threshold p) (memory_threshold p)
    (_executor p) (_current_workers p) (_lock p) (_task_queue p) h
    (_stop_event p).

Definition set_stop_event (b : bool) (p : DynamicThreadPool) :=
  mkPool (min_workers p) (max_workers p) (cpu_threshold p) (memory_threshold p)
    (_executor p) (_current_workers p) (_lock p) (_task_queue p)
    (_metrics_history p) b.

(** How a call ends: it returns, it raises, or its thread waits for the
    lock for ever. *)
Inductive Res (A : Type) : Type :=
| Done (a : A)
| Raised (e : string)
| Blocked.
Arguments Done {A} a.
Arguments Raised {A} e.
Arguments Blocked {A}.

(** What a call does that can be seen from outside, in order. *)
Inductive Event (V : Type) : Type :=
| EvSubmit (o : Outcome V)
| EvResult (o : Outcome V)
| EvSleep (d : float)
| EvLog (level msg : string).
Arguments EvSubmit {V} o.
Arguments EvResult {V} o.
Arguments EvSleep {V} d.
Arguments EvLog {V} level msg.

(** A future of the executor: the work is pure, so the future is
    determined by the outcome it will deliver. *)
Record Future (V : Type) := mkFuture { future_outcome : Outcome V }.
Arguments mkFuture {V} _.
Arguments future_outcome {V} _.

Section Operations.

Context {V : Type}.

(** Calls on a pool: state passing, with the way the call ended and the
    events it produced. *)
Definition PoolM (A : Type) : Type :=
  DynamicThreadPool -> Res A * DynamicThreadPool * list (Event V).

#[global] Instance PoolM_ret : MRet PoolM := fun A a p => (Done a, p, []).
#[global] Instance PoolM_bind : MBind PoolM :=
  fun A B f m p =>
    match m p with
    | (Done a, p1, ev1) =>
        let '(r, p2, ev2) := f a p1 in (r, p2, ev1 ++ ev2)
    | (Raised e, p1, ev1) => (Raised e, p1, ev1)
    | (Blocked, p1, ev1) => (Blocked, p1, ev1)
    end.

Definition get : PoolM DynamicThreadPool := fun p => (Done p, p, []).
Definition modify (f : DynamicThreadPool -> DynamicThreadPool) : PoolM unit :=
  fun p => (Done tt, f p, []).
Definition raise {A} (e : string) : PoolM A := fun p => (Raised e, p, []).
Definition emit (ev : Event V) : PoolM unit := fun p => (Done tt, p, [ev]).

(** [try: m  except Exception as e: handler e] *)
Definition try_except {A} (m : PoolM A) (handler : string -> PoolM A) : PoolM A :=
  fun p =>
    match m p with
    | (Raised e, p1, ev1) =>
        let '(r, p2, ev2) := handler e p1 in (r, p2, ev1 ++ ev2)
    | other => other
    end.

(** [with self._lock: body].  The lock is not reentrant: taking it while
    it is held never returns.  It is released when the body returns or
    raises. *)
Definition with_lock {A} (body : PoolM A) : PoolM A :=
  fun p =>
    if _lock p then (Blocked, p, [])
    else
      match body (set_lock true p) with
      | (Blocked, p1, ev1) => (Blocked, p1, ev1)
      | (r, p1, ev1) => (r, set_lock false p1, ev1)
      end.

Definition logger_info (msg : string) : PoolM unit := emit (EvLog "INFO" msg).
Definition logger_error (msg : string) : PoolM unit := emit (EvLog "ERROR" msg).

(** [time.sleep(d)], with the exceptions CPython raises. *)
Definition time_sleep (d : float) : PoolM unit :=
  match PyNum.sleep_error d with
  | Some e => raise e
  | None => emit (EvSleep d)
  end.

(** [ThreadPoolExecutor(max_workers=n)] *)
Definition ThreadPoolExecutor (n : Z) : PoolM Executor :=
  if Z.leb n 0 then raise "max_workers must be greater than 0"
  else mret (mkExecutor n false).

(** [executor.submit(func, args)]: a worker will run [func args]. *)
Definition executor_submit {A} (e : Executor) (func : A -> Outcome V) (args : A)
    : PoolM (Future V) :=
  if executor_shutdown e
  then raise "cannot schedule new futures after shutdown"
  else emit (EvSubmit (func args));; mret (mkFuture (func args)).

(** [future.result()]: waits for the work, then returns or re-raises. *)
Definition future_result (f : Future V) : PoolM V :=
  emit (EvResult (future_outcome f));;
  match future_outcome f with
  | Returns v => mret v
  | Raises e => raise e
  end.

(** [executor.shutdown(...)]: the executor takes no more work.  Work it
    already has is pure here and counts as finished. *)
Definition executor_shut (e : Executor) : Executor :=
  mkExecutor (executor_max_workers e) true.

(** Under the lock: shut the old executor down, if there is one, and
    put a [ThreadPoolExecutor(max_workers=self._current_workers)] in its
    place. *)
Definition _update_executor : PoolM unit :=
  with_lock (
    p ← get;
    match _executor p with
    | Some old => modify (set_executor (Some (executor_shut old)))
    | None => mret tt
    end;;
    e ← ThreadPoolExecutor (_current_workers p);
    modify (set_executor (Some e))).

(** The state the constructor builds before it creates the executor. *)
Definition fresh_pool (min_workers max_workers : Z)
    (cpu_threshold memory_threshold : float) : DynamicThreadPool :=
  mkPool min_workers max_workers cpu_threshold memory_threshold
    None min_workers false [] [] false.

Definition DynamicThreadPool_init (min_workers max_workers : Z)
    (cpu_threshold memory_threshold : float)
    : Res unit * DynamicThreadPool * list (Event V) :=
  _update_executor
    (fresh_pool min_workers max_workers cpu_threshold memory_threshold).

Definition _adjust_workers (cpu_percent memory_percent : float) : PoolM unit :=
  with_lock (
    p ← get;
    if PyNum.gtb cpu_percent (cpu_threshold p)
       || PyNum.gtb memory_percent (memory_threshold p)
    then
      if Z.gtb (_current_workers p) (min_workers p) then
        let n := Z.max (min_workers p) (_current_workers p - 2) in
        modify (set_current_workers n);;
        logger_info ("Reducing workers to " +:+ pretty n
                     +:+ " due to high resource usage");;
        _update_executor
      else mret tt
    else if PrimFloat.ltb cpu_percent (cpu_threshold p * 0.6)
            && PrimFloat.ltb memory_percent (memory_threshold p * 0.6)
            && Z.gtb (Z.of_nat (length (_task_queue p))) (_current_workers p)
    then
      if Z.ltb (_current_workers p) (max_workers p) then
        let n := Z.min (max_workers p) (_current_workers p + 2) in
        modify (set_current_workers n);;
        logger_info ("Increasing workers to " +:+ pretty n
                     +:+ " due to low resource usage");;
        _update_executor
      else mret tt
    else mret tt).

(** One turn of the [_resource_monitor] loop.  The sample is what psutil
    and the clock gave, or the exception the sampling raised. *)
Definition _resource_monitor_turn
    (sample : (float * float * Z * float) + string) : PoolM unit :=
  try_except
    (match sample with
     | inl (cpu, memory, active, now) =>
         p ← get;
         let metrics := mkMetrics cpu memory active
                          (Z.of_nat (length (_task_queue p))) now in
         let history := _metrics_history p ++ [metrics] in
         modify (set_metrics_history
                   (if Z.gtb (Z.of_nat (length history)) 100
                    then drop (length history - 50) history
                    else history));;
         _adjust_workers cpu memory
     | inr e => raise e
     end)
    (fun e => logger_error ("Resource monitor error: " +:+ e)).

(** [if self._executor is None: self._update_executor()], then the
    executor. *)
Definition ensure_executor : PoolM Executor :=
  p ← get;
  match _executor p with
  | Some _ => mret tt
  | None => _update_executor
  end;;
  p ← get;
  match _executor p with
  | Some e => mret e
  | None => raise "'NoneType' object has no attribute 'submit'"
  end.

Definition submit {A} (func : A -> Outcome V) (args : A) : PoolM (Future V) :=
  e ← ensure_executor;
  executor_submit e func args.

(** [as_completed(futures)] yields the futures in the order in which
    they finish; [order] lists their indices in that order. *)
Definition as_completed (order : list nat) (futures : list (Future V))
    : list (Future V) :=
  omap (fun i => futures !! i) order.

(** [futures = [executor.submit(func, item) for item in iterable]] *)
Fixpoint submit_all {A} (e : Executor) (func : A -> Outcome V) (items : list A)
    : PoolM (list (Future V)) :=
  match items with
  | [] => mret []
  | item :: rest =>
      f ← executor_submit e func item;
      fs ← submit_all e func rest;
      mret (f :: fs)
  end.

(** The collecting loop shared by [map] and [schedule_batch]: the result
    of each future in turn, or [None] after logging its failure. *)
Fixpoint collect (label : string) (futures : list (Future V))
    : PoolM (list (option V)) :=
  match futures with
  | [] => mret []
  | future :: rest =>
      slot ← try_except
                (v ← future_result future; mret (Some v))
                (fun e => logger_error (label +:+ e);; mret None);
      slots ← collect label rest;
      mret (slot :: slots)
  end.

Definition map {A} (func : A -> Outcome V) (iterable : list A)
    (order : list nat) : PoolM (list (option V)) :=
  e ← ensure_executor;
  futures ← submit_all e func iterable;
  collect "Task error: " (as_completed order futures).

Definition get_worker_count (p : DynamicThreadPool) : Z := _current_workers p.

Definition shutdown (wait : bool) : PoolM unit :=
  modify (set_stop_event true);;
  p ← get;
  match _executor p with
  | Some e => modify (set_executor (Some (executor_shut e)))
  | None => mret tt
  end.

End Operations.

End ThreadPool.

Module TaskScheduler.
Import ThreadPool.

Section Operations.

Context {V : Type}.

(** The [for attempt in range(max_retries + 1)] loop over the attempts
    still to make.  [work attempt] is what the unit of work does when it
    is run for the [attempt]-th time.  [mret None] is falling out of the
    loop (Python's implicit [None]). *)
Fixpoint backoff_loop (work : Z -> Outcome V) (max_retries : Z)
    (backoff_factor : float) (attempts : list Z) : PoolM (option V) :=
  match attempts with
  | [] => mret None
  | attempt :: rest =>
      r ← try_except
             (future ← submit work attempt;
              result ← future_result future;
              mret (Some result))
             (fun e =>
                (if Z.eqb attempt max_retries then raise e
                 else
                   let wait_time :=
                     (backoff_factor * PyNum.float_of_int (2 ^ attempt))%float in
                   time_sleep wait_time);;
                mret None);
      match r with
      | Some result => mret (Some result)
      | None => backoff_loop work max_retries backoff_factor rest
      end
  end.

Definition schedule_with_backoff (work : Z -> Outcome V) (max_retries : Z)
    (backoff_factor : float) : PoolM (option V) :=
  match PyNum.range 0 (max_retries + 1) 1 with
  | Some attempts => backoff_loop work max_retries backoff_factor attempts
  | None => raise "range() arg 3 must not be zero"
  end.

(** [for func, args, kwargs in batch: batch_futures.append(submit(...))] *)
Fixpoint submit_batch {A} (batch : list ((A -> Outcome V) * A))
    : PoolM (list (Future V)) :=
  match batch with
  | [] => mret []
  | (func, args) :: rest =>
      future ← submit func args;
      futures ← submit_batch rest;
      mret (future :: futures)
  end.

(** The [for i in range(0, len(tasks), max_concurrent)] loop over the
    wave starts still to process. *)
Fixpoint batch_loop {A} (tasks : list ((A -> Outcome V) * A))
    (max_concurrent : Z) (starts : list Z) : PoolM (list (option V)) :=
  match starts with
  | [] => mret []
  | i :: rest =>
      let batch := PyNum.slice tasks i (i + max_concurrent) in
      batch_futures ← submit_batch batch;
      slots ← collect "Batch task error: " batch_futures;
      more ← batch_loop tasks max_concurrent rest;
      mret (slots ++ more)
  end.

Definition schedule_batch {A} (tasks : list ((A -> Outcome V) * A))
    (max_concurrent : option Z) : PoolM (list (option V)) :=
  p ← get;
  let max_concurrent := default (get_worker_count p) max_concurrent in
  match PyNum.range 0 (Z.of_nat (length tasks)) max_concurrent with
  | Some starts => batch_loop tasks max_concurrent starts
  | None => raise "range() arg 3 must not be zero"
  end.

End Operations.

End TaskScheduler.

(** ** Histories of a pool *)

(** What can happen to a pool once it is constructed: the calls of the
    public interface, and the turns of its monitor thread with whatever
    the sampling gave. *)
Inductive PoolCall (A V : Type) : Type :=
| CallSubmit (func : A -> ThreadPool.Outcome V) (args : A)
| CallMap (func : A -> ThreadPool.Outcome V) (iterable : list A) (order : list nat)
| CallBackoff (work : Z -> ThreadPool.Outcome V) (max_retries : Z)
    (backoff_factor : float)
| CallBatch (tasks : list ((A -> ThreadPool.Outcome V) * A))
    (max_concurrent : option Z)
| CallWorkerCount
| CallShutdown (wait : bool)
| MonitorTurn (sample : (float * float * Z * float) + string).
Arguments CallSubmit {A V} func args.
Arguments CallMap {A V} func iterable order.
Arguments CallBackoff {A V} work max_retries backoff_factor.
Arguments CallBatch {A V} tasks max_concurrent.
Arguments CallWorkerCount {A V}.
Arguments CallShutdown {A V} wait.
Arguments MonitorTurn {A V} sample.

(** The pool after one call, however the call ended (a caller that is
    blocked or got an exception leaves the pool to the other threads). *)
Definition after_call {A V} (c : PoolCall A V) (p : ThreadPool.DynamicThreadPool)
    : ThreadPool.DynamicThreadPool :=
  match c with
  | CallSubmit func args => snd (fst (ThreadPool.submit func args p))
  | CallMap func iterable order => snd (fst (ThreadPool.map func iterable order p))
  | CallBackoff work max_retries backoff_factor =>
      snd (fst (TaskScheduler.schedule_with_backoff work max_retries backoff_factor p))
  | CallBatch tasks max_concurrent =>
      snd (fst (TaskScheduler.schedule_batch tasks max_concurrent p))
  | CallWorkerCount => p
  | CallShutdown wait => snd (fst (ThreadPool.shutdown (V:=V) wait p))
  | MonitorTurn sample => snd (fst (ThreadPool._resource_monitor_turn (V:=V) sample p))
  end.

Definition after_calls {A V} (cs : list (PoolCall A V))
    (p : ThreadPool.DynamicThreadPool) : ThreadPool.DynamicThreadPool :=
  fold_left (fun p c => after_call c p) cs p.

(** A run of sizing steps, one per sample [(cpu_percent, memory_percent)],
    with the pool after each of them. *)
Fixpoint adjust_trace {V} (samples : list (float * float))
    (p : ThreadPool.DynamicThreadPool) : list ThreadPool.DynamicThreadPool :=
  match samples with
  | [] => []
  | (cpu, memory) :: rest =>
      let p' := snd (fst (ThreadPool._adjust_workers (V:=V) cpu memory p)) in
      p' :: adjust_trace (V:=V) rest p'
  end.

(** ** Vocabulary of the statements about the pool *)

Import ThreadPool.

(** The slot a unit of work leaves in a result list: its value, or the
    null marker when it raised. *)
Definition slot_of {V} (o : Outcome V) : option V :=
  match o with
  | Returns v => Some v
  | Raises _ => None
  end.

(** The outcome of a task [(func, args)]. *)
Definition run_task {A V} (t : (A -> Outcome V) * A) : Outcome V := fst t (snd t).

(** What collecting one future shows: the wait for its result, and the
    error record if it failed. *)
Definition collect_events {V} (label : string) (o : Outcome V) : list (Event V) :=
  EvResult o ::
  match o with
  | Returns _ => []
  | Raises e => [EvLog "ERROR" (label +:+ e)]
  end.

(** What one wave of [schedule_batch] shows: every task of the wave is
    submitted, then every one of them is waited for. *)
Definition wave_events {A V} (wave : list ((A -> Outcome V) * A))
    : list (Event V) :=
  (EvSubmit ∘ run_task <$> wave)
  ++ concat (collect_events "Batch task error: " ∘ run_task <$> wave).

(** The waves of a task list: consecutive pieces of [size] tasks (the
    last one may be shorter). *)
Definition waves {T} (size : Z) (tasks : list T) : list (list T) :=
  match PyNum.range 0 (Z.of_nat (length tasks)) size with
  | Some starts => (fun i => PyNum.slice tasks i (i + size)) <$> starts
  | None => []
  end.

(** The number of waves: the length of [range(0, n, size)] for a
    positive [size]. *)
Definition wave_count {T} (size : Z) (l : list T) : nat :=
  Z.to_nat (if Z.ltb 0 (Z.of_nat (length l))
            then (Z.of_nat (length l) - 1) / size + 1 else 0).

(** A pool whose executor exists and has not been shut down. *)
Definition live (p : DynamicThreadPool) : Prop :=
  exists e, _executor p = Some e /\ executor_shutdown e = false.

(** [min_workers <= current_workers <= max_workers] *)
Definition in_bounds (p : DynamicThreadPool) : Prop :=
  min_workers p <= _current_workers p <= max_workers p.

(** The durations [time.sleep] accepts. *)
Definition time_sleep_ok (d : float) : bool :=
  match PyNum.sleep_error d with
  | Some _ => false
  | None => true
  end.

(** What a failed attempt of [schedule_with_backoff] shows when another
    attempt follows, and what the last attempt made shows. *)
Definition failed_attempt_events {V} (work : Z -> Outcome V)
    (backoff_factor : float) (attempt : Z) : list (Event V) :=
  [EvSubmit (work attempt); EvResult (work attempt);
   EvSleep (backoff_factor * PyNum.float_of_int (2 ^ attempt))%float].

Definition last_attempt_events {V} (work : Z -> Outcome V) (attempt : Z)
    : list (Event V) :=
  [EvSubmit (work attempt); EvResult (work attempt)].

(** The module's own pool:
    [DynamicThreadPool(min_workers=2, max_workers=15, cpu_threshold=85.0,
    memory_threshold=85.0)], as its constructor leaves it. *)
Definition global_thread_pool : DynamicThreadPool :=
  snd (fst (DynamicThreadPool_init (V:=unit) 2 15 85 85)).

(** A pool with nothing queued and [minw] workers, [minw] being its
    (positive) minimum. *)
Definition idle_at (minw : Z) (p : DynamicThreadPool) : Prop :=
  _task_queue p = [] /\ _current_workers p = minw /\ min_workers p = minw
  /\ 0 < minw.

(** A call that leaves such a pool as it is in these respects, however
    the call ends. *)
Definition keeps_idle {V A} (m : PoolM (V:=V) A) : Prop :=
  forall minw p, idle_at minw p -> idle_at minw (snd (fst (m p))).

(** ** rate_limiter.py : the module-level limiter and its entry points *)

(** [global_rate_limiter] and [global_delay_manager], the two objects
    the module-level functions work on. *)
Record RateModule := mkRateModule {
  global_rate_limiter : AdaptiveRateLimiter;
  global_delay_manager : DelayManager
}.

(** [AdaptiveRateLimiter(initial_rate=10, min_rate=1, max_rate=50)] and
    [DelayManager(base_delay=0.1, jitter=0.05)] *)
Definition RateModule_init : Py RateModule :=
  limiter ← AdaptiveRateLimiter_init 10 1 50;
  mret (mkRateModule limiter (DelayManager_init 0.1 0.05)).

(** A limiter object of the controller after it was changed in place. *)
Definition put_limiter (self : AdaptiveRateLimiter) (host : string)
    (limiter : RateLimiter) : AdaptiveRateLimiter :=
  mkAdaptive (initial_rate self) (min_rate self) (max_rate self)
    (current_rate self) (success_count self) (failure_count self)
    (window_start self) (window_size self)
    (<[host := limiter]> (limiters self)).

(** [not global_rate_limiter.get_limiter(host).can_make_request(host)] *)
Definition should_delay_request (m : RateModule) (host : string)
    : Py (bool * RateModule) :=
  let '(limiter, controller) := get_limiter (global_rate_limiter m) host in
  '(ok, limiter) ← can_make_request limiter (Some host);
  mret (negb ok,
        mkRateModule (put_limiter controller host limiter)
          (global_delay_manager m)).


(** [None] stands for an exception leaving [report_result]. *)
Definition report_request_result (m : RateModule) (host : string)
    (success : bool) : Py (option RateModule) :=
  r ← report_result (global_rate_limiter m) host success;
  mret ((fun controller => mkRateModule controller (global_delay_manager m))
          <$> r).

(** [limiter = get_limiter(host); limiter.max_requests = rate] on a
    controller. *)
Definition set_limiter_rate (self : AdaptiveRateLimiter) (host : string)
    (rate : Z) : AdaptiveRateLimiter :=
  let '(limiter, controller) := get_limiter self host in
  put_limiter controller host (set_max_requests rate limiter).

Definition set_host_rate_limit (m : RateModule) (host : string) (rate : Z)
    : RateModule :=
  mkRateModule (set_limiter_rate (global_rate_limiter m) host rate)
    (global_delay_manager m).

(** *** Vocabulary of the statements about limiters *)

(** A window whose timestamps are in non-decreasing order, none a NaN. *)
Definition ordered_window (q : list float) : Prop :=
  StronglySorted (fun a b => PrimFloat.leb a b = true) q
  /\ Forall (fun t => PrimFloat.leb t t = true) q.

(** Every limiter of the controller enforces the controller's rate. *)
Definition limiters_in_step (self : AdaptiveRateLimiter) : Prop :=
  forall host limiter,
    limiters self !! host = Some limiter ->
    max_requests limiter = current_rate self.

(** Two hosts read and write the same window when they have the same
    key, and always in the global mode. *)
Definition same_scope (self : RateLimiter) (a b : option string) : Prop :=
  global_limit self = true \/ scope_key a = scope_key b.

(** What [int(rate * 1.1)] and [int(rate * 0.9)] give for one rate:
    both are defined, the first is not below the rate, the second is
    between 0 and the rate. *)
Definition rate_steps_ok (rate : Z) : bool :=
  match PyNum.int_of_float (PyNum.float_of_int rate * 1.1)%float,
        PyNum.int_of_float (PyNum.float_of_int rate * 0.9)%float with
  | Some up, Some down =>
      Z.leb rate up && Z.leb 0 down && Z.leb down rate
  | _, _ => false
  end.

(** The same, and moreover [int(rate * 1.1)] is the rate itself. *)
Definition rate_stuck (rate : Z) : bool :=
  match PyNum.int_of_float (PyNum.float_of_int rate * 1.1)%float,
        PyNum.int_of_float (PyNum.float_of_int rate * 0.9)%float with
  | Some up, Some down =>
      Z.eqb up rate && Z.leb 0 down && Z.leb down rate
  | _, _ => false
  end.

(** ** concurrent_manager.py : the rest of the public interface *)

(** [get_current_metrics]: the newest entry of the history, or, while
    the history is empty, a sample taken on the spot ([fresh] is what
    psutil, [threading.active_count()] and the clock give then) with a
    queue size of 0. *)
Definition get_current_metrics (p : DynamicThreadPool)
    (fresh : float * float * Z * float) : ResourceMetrics :=
  match last (_metrics_history p) with
  | Some metrics => metrics
  | None =>
      let '(cpu, memory, active, now) := fresh in
      mkMetrics cpu memory active 0 now
  end.

(** [get_optimal_thread_count(base_count)] on the module's pool. *)
Definition get_optimal_thread_count (p : DynamicThreadPool)
    (fresh : float * float * Z * float) (base_count : Z) : Z :=
  let metrics := get_current_metrics p fresh in
  if PyNum.gtb (cpu_percent metrics) 80 || PyNum.gtb (memory_percent metrics) 80
  then Z.max 1 (base_count / 2)
  else if PrimFloat.ltb (cpu_percent metrics) 30
          && PrimFloat.ltb (memory_percent metrics) 50
  then Z.min 50 (base_count * 2)
  else base_count.

(** [submit_task(func, ...)]: [schedule_with_backoff] with its default
    [max_retries=3] and [backoff_factor=1.0]. *)
Definition submit_task {V} (work : Z -> Outcome V) : PoolM (option V) :=
  TaskScheduler.schedule_with_backoff work 3 1.

(** [shutdown_global_pool()]: [shutdown] with its default [wait=True]. *)
Definition shutdown_global_pool {V} : PoolM (V:=V) unit := shutdown true.

(** *** Vocabulary of the statements *)

(** Units of work submitted and not yet waited for, after a sequence of
    events. *)
Fixpoint in_flight {V} (events : list (Event V)) : Z :=
  match events with
  | [] => 0
  | EvSubmit _ :: rest => in_flight rest + 1
  | EvResult _ :: rest => in_flight rest - 1
  | _ :: rest => in_flight rest
  end.

(** The attempts [0 .. n-1] of a retry loop. *)
Definition attempts_upto (n : nat) : list Z := Z.of_nat <$> seq 0 n.

(** The message of the [RuntimeError] of a shut-down executor. *)
Definition shutdown_error : string :=
  "cannot schedule new futures after shutdown".

(** The history a monitor turn leaves after appending [metrics]: the
    whole of it, or its last 50 entries once it has more than 100. *)
Definition trimmed_history (history : list ResourceMetrics)
    (metrics : ResourceMetrics) : list ResourceMetrics :=
  let h := history ++ [metrics] in
  if Z.gtb (Z.of_nat (length h)) 100 then drop (length h - 50) h else h.

(** A pool whose executor has been shut down. *)
Definition closed (p : DynamicThreadPool) : Prop :=
  exists e, _executor p = Some e /\ executor_shutdown e = true.

(* ================================================================== *)
(** * Part II: properties                                              *)
(* ================================================================== *)

(** ** Python numbers: sanity checks and order facts *)

Example float_of_int_10 : PyNum.float_of_int 10 = 10%float.
Proof. reflexivity. Qed.

Example int_truediv_95_100 : PyNum.int_truediv 95 100 = Some 0.95%float.
Proof. reflexivity. Qed.

Example int_of_float_11 :
  PyNum.int_of_float (PyNum.float_of_int 10 * 1.1)%float = Some 11.
Proof. reflexivity. Qed.

Example int_of_float_neg :
  PyNum.int_of_float (-2.75)%float = Some (-2).
Proof. reflexivity. Qed.

Example range_0_7_3 : PyNum.range 0 7 3 = Some [0; 3; 6].
Proof. reflexivity. Qed.

Example range_0_6_3 : PyNum.range 0 6 3 = Some [0; 3].
Proof. reflexivity. Qed.

Example range_neg_step : PyNum.range 0 5 (-2) = Some [].
Proof. reflexivity. Qed.

Section FloatOrder.

Lemma SFcompare_swap (x y : spec_float) :
  SFcompare y x = option_map CompOpp (SFcompare x y).
Proof.
  destruct x as [sx|sx| |sx mx ex], y as [sy|sy| |sy my ey]; simpl;
    try reflexivity;
    try (destruct sx; reflexivity);
    try (destruct sy; reflexivity);
    try (destruct sx, sy; reflexivity).
  destruct sx, sy; simpl; try reflexivity;
    rewrite (Z.compare_antisym ex ey);
    destruct (ex ?= ey)%Z; simpl; try reflexivity;
    rewrite (Pos.compare_cont_antisym mx my Eq); reflexivity.
Qed.

(** [t <= th] excludes [th < t], also when a NaN is involved. *)
Lemma float_leb_not_gtb (t th : float) :
  PrimFloat.leb t th = true -> PrimFloat.ltb th t = false.
Proof.
  rewrite leb_spec, ltb_spec. unfold SFleb, SFltb.
  rewrite (SFcompare_swap (Prim2SF t) (Prim2SF th)).
  destruct (SFcompare (Prim2SF t) (Prim2SF th)) as [[]|]; simpl; congruence.
Qed.

Lemma SFltb_Lt a b : SFltb a b = true <-> SFcompare a b = Some Lt.
Proof. unfold SFltb. destruct (SFcompare a b) as [[]|]; split; congruence. Qed.

Lemma SFleb_LtEq a b :
  SFleb a b = true <-> SFcompare a b = Some Lt \/ SFcompare a b = Some Eq.
Proof.
  unfold SFleb. destruct (SFcompare a b) as [[]|]; split;
    try tauto; try congruence; intros [H|H]; congruence.
Qed.

Lemma float_ltb_leb (a b : float) :
  PrimFloat.ltb a b = true -> PrimFloat.leb a b = true.
Proof. rewrite ltb_spec, leb_spec, SFltb_Lt, SFleb_LtEq. tauto. Qed.

(** A value that compares with another one is not a NaN. *)
Lemma SFcompare_refl (x y : spec_float) (c : comparison) :
  SFcompare y x = Some c -> SFcompare x x = Some Eq.
Proof.
  destruct x as [sx|sx| |sx mx ex]; cbn.
  - reflexivity.
  - now destruct sx.
  - destruct y as [sy|sy| |sy my ey]; discriminate.
  - intros _. destruct sx; rewrite Z.compare_refl, Pos.compare_cont_refl;
      reflexivity.
Qed.

(** The two sides of a strict comparison that holds are not NaN. *)
Lemma float_ltb_not_nan (a b : float) :
  PrimFloat.ltb a b = true ->
  PrimFloat.is_nan a = false /\ PrimFloat.is_nan b = false.
Proof.
  intros Hlt. unfold PrimFloat.is_nan. rewrite !FloatAxioms.eqb_spec.
  unfold SFeqb. rewrite ltb_spec, SFltb_Lt in Hlt.
  rewrite (SFcompare_refl _ _ _ Hlt).
  rewrite SFcompare_swap in Hlt.
  destruct (SFcompare (Prim2SF b) (Prim2SF a)) as [c|] eqn:Hc; [|discriminate].
  now rewrite (SFcompare_refl _ _ _ Hc).
Qed.


End FloatOrder.

(** ** RateLimiter *)

Section RateLimiterFacts.

Lemma evict_idem th q : evict th (evict th q) = evict th q.
Proof.
  induction q as [|t q IH]; simpl; [reflexivity|].
  destruct (PrimFloat.leb t th) eqn:E; [exact IH|].
  simpl. now rewrite E.
Qed.

Lemma evict_split th q :
  exists stale, q = stale ++ evict th q
                /\ Forall (fun t => PrimFloat.leb t th = true) stale.
Proof.
  induction q as [|t q [stale [Hq Hs]]]; simpl.
  - exists []. split; [reflexivity | constructor].
  - destruct (PrimFloat.leb t th) eqn:E.
    + exists (t :: stale). split; [simpl; congruence | now constructor].
    + exists []. split; [reflexivity | constructor].
Qed.

Lemma scope_window_set self host q :
  scope_window (set_scope_window self host q) host = q.
Proof.
  unfold scope_window, set_scope_window.
  destruct (requests self) as [q0|m]; simpl; [reflexivity|].
  now rewrite lookup_insert_eq.
Qed.

Lemma set_scope_window_twice self host q q' :
  set_scope_window (set_scope_window self host q) host q'
  = set_scope_window self host q'.
Proof.
  unfold set_scope_window, set_requests.
  destruct (requests self) as [q0|m]; simpl; [reflexivity|].
  now rewrite insert_insert_eq.
Qed.

Lemma time_window_set self host q :
  time_window (set_scope_window self host q) = time_window self.
Proof. unfold set_scope_window. now destruct (requests self). Qed.

Lemma max_requests_set self host q :
  max_requests (set_scope_window self host q) = max_requests self.
Proof. unfold set_scope_window. now destruct (requests self). Qed.

(** What one call computes from the clock value it reads. *)
Lemma can_make_request_run self host w :
  can_make_request self host w =
  (let q := evict (clock w (ticks w) - time_window self)%float
                  (scope_window self host) in
   (Z.ltb (Z.of_nat (length q)) (max_requests self),
    set_scope_window self host q),
   mkWorld (clock w) (S (ticks w)) (draws w) (drawn w) (sleeps w)).
Proof. reflexivity. Qed.

(** A second look at the same instant finds nothing left to evict. *)
Lemma can_make_request_again self host w w' :
  clock w' (ticks w') = clock w (ticks w) ->
  fst (can_make_request (snd (fst (can_make_request self host w))) host w')
  = fst (can_make_request self host w).
Proof.
  intros Hc. rewrite !can_make_request_run. cbn [fst snd].
  rewrite scope_window_set, time_window_set, max_requests_set, Hc.
  rewrite evict_idem, set_scope_window_twice. reflexivity.
Qed.

Lemma filter_stale (self : RateLimiter) now stale :
  Forall (fun t => PrimFloat.leb t (now - time_window self)%float = true) stale ->
  List.filter (in_window self now) stale = [].
Proof.
  induction 1 as [|t stale Ht _ IH]; simpl; [reflexivity|].
  unfold in_window at 1, PyNum.gtb.
  now rewrite (float_leb_not_gtb _ _ Ht).
Qed.

(** Polling a limiter that a check at [now] has just cleaned, with the
    clock standing at [now]: every answer is the same and the limiter
    does not change. *)
Lemma poll_settled n : forall self host w now,
  (forall i, (i < n)%nat -> clock w (ticks w + i) = now) ->
  evict (now - time_window self)%float (scope_window self host)
    = scope_window self host ->
  set_scope_window self host (scope_window self host) = self ->
  fst (poll n self host w)
  = (repeat (Z.ltb (Z.of_nat (length (scope_window self host)))
                   (max_requests self)) n, self).
Proof.
  induction n as [|n IH]; intros self host w now Hclk Hev Hset; [reflexivity|].
  assert (H0 : clock w (ticks w) = now).
  { rewrite <- (Hclk O) by lia. f_equal. lia. }
  cbn [poll]. unfold mbind, Py_bind, mret, Py_ret.
  rewrite can_make_request_run. cbv beta iota zeta. rewrite H0, Hev, Hset.
  set (w1 := mkWorld _ _ _ _ _).
  specialize (IH self host w1 now).
  destruct (poll n self host w1) as [[bs s2] w2]. cbn [fst] in IH |- *.
  assert (Hclk1 : forall i, (i < n)%nat -> clock w1 (ticks w1 + i) = now).
  { intros i Hi. subst w1. cbn [clock ticks].
    rewrite <- (Hclk (S i)) by lia. f_equal. lia. }
  specialize (IH Hclk1 Hev Hset).
  injection IH as -> ->. reflexivity.
Qed.

End RateLimiterFacts.

(** C8.  With the clock standing at [now], a call of [can_make_request]
    followed by any number [n] of further calls (and no [record_request]
    in between) gives the same boolean every time and leaves the limiter
    as the first call left it; the capacity counted by brute force
    ([timestamp > now - time_window]) is the same before and after, and
    what the first call removed from the front of the window are only
    timestamps that the brute-force filter discards as well. *)
Theorem can_make_request_idempotent :
  forall (n : nat) (self : RateLimiter) (host : option string) (w : World)
         (now : float),
    (forall i, (i <= n)%nat -> clock w (ticks w + i) = now) ->
    let first := can_make_request self host w in
    let b := fst (fst first) in
    let s1 := snd (fst first) in
    let later := poll n s1 host (snd first) in
    fst (fst later) = repeat b n
    /\ snd (fst later) = s1
    /\ remaining_capacity s1 host now = remaining_capacity self host now
    /\ exists stale,
         scope_window self host = stale ++ scope_window s1 host
         /\ Forall (fun t => in_window self now t = false) stale.
Proof.
  intros n self host w now Hclk first b s1 later.
  assert (H0 : clock w (ticks w) = now).
  { rewrite <- (Hclk O) by lia. f_equal. lia. }
  subst first b s1 later. rewrite can_make_request_run. cbv zeta. cbn [fst snd].
  rewrite H0.
  set (q := evict (now - time_window self)%float (scope_window self host)).
  set (s1 := set_scope_window self host q).
  set (w1 := mkWorld _ _ _ _ _).
  assert (Hq : scope_window s1 host = q) by apply scope_window_set.
  assert (Hp := poll_settled n s1 host w1 now).
  rewrite Hq in Hp. subst s1.
  rewrite time_window_set, max_requests_set, set_scope_window_twice in Hp.
  fold (set_scope_window self host q) in Hp.
  rewrite Hp; [ | | apply evict_idem | reflexivity ].
  2:{ intros i Hi. subst w1. cbn [clock ticks].
      rewrite <- (Hclk (S i)) by lia. f_equal. lia. }
  cbn [fst snd]. split; [reflexivity|]. split; [reflexivity|].
  destruct (evict_split (now - time_window self)%float (scope_window self host))
    as [stale [Hsplit Hstale]]. fold q in Hsplit.
  split.
  - unfold remaining_capacity, brute_force_window.
    rewrite scope_window_set, max_requests_set.
    rewrite Hsplit, List.filter_app.
    assert (Hin : forall t, in_window (set_scope_window self host q) now t
                            = in_window self now t).
    { intros t. unfold in_window. now rewrite time_window_set. }
    rewrite (filter_stale self now stale Hstale). simpl.
    f_equal. f_equal. f_equal. apply List.filter_ext. exact Hin.
  - exists stale. rewrite scope_window_set. split; [exact Hsplit|].
    eapply Forall_impl; [exact Hstale|].
    intros t Ht. unfold in_window, PyNum.gtb. now apply float_leb_not_gtb.
Qed.

(** The theorem at a limiter holding one stale and two live timestamps,
    polled three times at time 10. *)
Lemma can_make_request_idempotent_witness :
  let self := mkRateLimiter 3 1 (HostWindows {[ "h" := [1; 9.5; 9.75]%float ]}) in
  let w := mkWorld (fun _ => 10%float) 0 (fun _ _ _ => 0%float) 0 [] in
  let first := can_make_request self (Some "h") w in
  fst (fst (poll 2 (snd (fst first)) (Some "h") (snd first))) = [true; true]
  /\ scope_window (snd (fst first)) (Some "h") = [9.5; 9.75]%float
  /\ remaining_capacity (snd (fst first)) (Some "h") 10 = 1
  /\ remaining_capacity self (Some "h") 10 = 1.
Proof.
  intros self w first.
  destruct (can_make_request_idempotent 2 self (Some "h") w 10%float)
    as (Hb & _ & Hcap & _).
  { intros i _. reflexivity. }
  fold first in Hb, Hcap.
  split; [rewrite Hb; vm_compute; reflexivity|].
  split; [vm_compute; reflexivity|].
  split; [rewrite Hcap|]; vm_compute; reflexivity.
Defined.

Section WaitIfNeeded.

(** One call of [wait_if_needed], by the two clock values it reads. *)
Lemma wait_if_needed_run self host w :
  wait_if_needed self host w =
  let q := evict (clock w (ticks w) - time_window self)%float
                 (scope_window self host) in
  let next := clock w (ticks w + 1)%nat in
  let after := mkWorld (clock w) (ticks w + 2)%nat (draws w) (drawn w) in
  if Z.ltb (Z.of_nat (length q)) (max_requests self) then
    ((Ok 0%float, set_scope_window self host (q ++ [next])), after (sleeps w))
  else
    let sleep_time :=
      match q with
      | earliest_time :: _ =>
          PyNum.max0 (earliest_time + time_window self - next)%float
      | [] => 0%float
      end in
    let recorded :=
      set_scope_window self host (q ++ [(next + sleep_time)%float]) in
    if PyNum.gtb sleep_time 0 then
      match PyNum.sleep_error sleep_time with
      | Some e => ((Exn e, set_scope_window self host q), after (sleeps w))
      | None => ((Ok sleep_time, recorded), after (sleeps w ++ [sleep_time]))
      end
    else ((Ok sleep_time, recorded), after (sleeps w)).
Proof.
  unfold wait_if_needed, mbind, Py_bind. rewrite can_make_request_run.
  cbv beta iota zeta.
  replace (ticks w + 1)%nat with (S (ticks w)) by lia.
  replace (ticks w + 2)%nat with (S (S (ticks w))) by lia.
  destruct (Z.ltb _ _).
  - unfold record_request, mbind, Py_bind, mret, Py_ret, time_time.
    cbn [clock ticks draws drawn sleeps].
    now rewrite scope_window_set, set_scope_window_twice.
  - unfold mbind, Py_bind, mret, Py_ret, time_time.
    cbn [clock ticks draws drawn sleeps].
    rewrite scope_window_set, set_scope_window_twice, time_window_set.
    destruct (PyNum.gtb _ 0); [|reflexivity].
    unfold Env.time_sleep. cbn [clock ticks draws drawn sleeps].
    now destruct (PyNum.sleep_error _).
Qed.

Lemma scope_window_init mr tw gl host :
  scope_window (RateLimiter_init mr tw gl) host = [].
Proof. destruct gl; [reflexivity|]. unfold scope_window. simpl. now rewrite lookup_empty. Qed.

Lemma wait_burst_step n self host w :
  wait_burst (S n) self host w =
  let r1 := wait_if_needed self host w in
  match fst (fst r1) with
  | Ok waited =>
      let r2 := wait_burst n (snd (fst r1)) host (snd r1) in
      ((match fst (fst r2) with
        | Ok rest => Ok (waited :: rest)
        | Exn e => Exn e
        end, snd (fst r2)), snd r2)
  | Exn e => ((Exn e, snd (fst r1)), snd r1)
  end.
Proof.
  cbn [wait_burst]. unfold mbind, Py_bind, mret, Py_ret. cbv zeta.
  destruct (wait_if_needed self host w) as [[[x|e] s1] w1]; cbn [fst snd];
    [|reflexivity].
  now destruct (wait_burst n s1 host w1) as [[r s2] w2].
Qed.

(** A call that finds fewer than [max_requests] entries after eviction. *)
Lemma wait_if_needed_free self host w q :
  evict (clock w (ticks w) - time_window self)%float (scope_window self host) = q ->
  Z.ltb (Z.of_nat (length q)) (max_requests self) = true ->
  wait_if_needed self host w =
  ((Ok 0%float, set_scope_window self host (q ++ [clock w (ticks w + 1)%nat])),
   mkWorld (clock w) (ticks w + 2)%nat (draws w) (drawn w) (sleeps w)).
Proof. intros Hq Hlt. rewrite wait_if_needed_run. cbv zeta. now rewrite Hq, Hlt. Qed.

End WaitIfNeeded.

(** The ways a call of [wait_if_needed] can go: room in the window, a
    refused sleep, a sleep, no sleep. *)
Ltac wait_cases :=
  rewrite wait_if_needed_run; cbv zeta;
  destruct (Z.ltb _ _);
    [|destruct (PyNum.gtb _ 0); [destruct (PyNum.sleep_error _)|]];
  cbn [fst snd].

(** C7.  A fresh [RateLimiter(max_requests=3, time_window=1.0)] (in either
    mode), four [wait_if_needed] calls in a row for one scope, the first
    recorded timestamp still inside the window at each later check.  The
    first three calls return [0.0] without sleeping and record the clock
    value read at recording.  The fourth finds the window full and takes
    [gap = oldest + time_window - now]: when the gap is not positive the
    wait is [0], nothing is slept and [now + 0] is recorded; when it is
    positive the wait is the gap, which is slept once, and [now + gap] is
    recorded.  So the wait is never negative.  A positive gap that
    [time.sleep] refuses (one of more than 2^63 nanoseconds) makes the
    call raise that error instead, with nothing recorded. *)
Theorem wait_if_needed_four_calls :
  forall (gl : bool) (host : option string) (w : World),
    let self := RateLimiter_init 3 1 gl in
    let c := fun k => clock w (ticks w + k)%nat in
    PrimFloat.leb (c 1%nat) (c 2%nat - 1) = false ->
    PrimFloat.leb (c 1%nat) (c 4%nat - 1) = false ->
    PrimFloat.leb (c 1%nat) (c 6%nat - 1) = false ->
    let first3 := wait_burst 3 self host w in
    let fourth := wait_if_needed (snd (fst first3)) host (snd first3) in
    let gap := (c 1%nat + 1 - c 7%nat)%float in
    fst (fst first3) = Ok [0; 0; 0]%float
    /\ scope_window (snd (fst first3)) host = [c 1%nat; c 3%nat; c 5%nat]
    /\ sleeps (snd first3) = sleeps w
    /\ (PrimFloat.ltb 0 gap = false ->
          fst (fst fourth) = Ok 0%float
          /\ scope_window (snd (fst fourth)) host
             = [c 1%nat; c 3%nat; c 5%nat; (c 7%nat + 0)%float]
          /\ sleeps (snd fourth) = sleeps w)
    /\ (PrimFloat.ltb 0 gap = true -> PyNum.sleep_error gap = None ->
          fst (fst fourth) = Ok gap
          /\ scope_window (snd (fst fourth)) host
             = [c 1%nat; c 3%nat; c 5%nat; (c 7%nat + gap)%float]
          /\ sleeps (snd fourth) = sleeps w ++ [gap])
    /\ (forall e, PrimFloat.ltb 0 gap = true -> PyNum.sleep_error gap = Some e ->
          fst (fst fourth) = Exn e
          /\ scope_window (snd (fst fourth)) host = [c 1%nat; c 3%nat; c 5%nat]
          /\ sleeps (snd fourth) = sleeps w)
    /\ (forall wait, fst (fst fourth) = Ok wait -> PrimFloat.leb 0 wait = true).
Proof.
  intros gl host w self c H2 H4 H6 first3 fourth gap.
  assert (Hmr : forall q, max_requests (set_scope_window self host q) = 3)
    by (intros; now rewrite max_requests_set).
  assert (Htw : forall q, time_window (set_scope_window self host q) = 1%float)
    by (intros; now rewrite time_window_set).
  (* first call *)
  assert (E1 : wait_if_needed self host w =
    ((Ok 0%float, set_scope_window self host [c 1%nat]),
     mkWorld (clock w) (ticks w + 2)%nat (draws w) (drawn w) (sleeps w))).
  { apply (wait_if_needed_free self host w []); [|reflexivity].
    subst self. now rewrite scope_window_init. }
  set (w1 := mkWorld (clock w) (ticks w + 2)%nat (draws w) (drawn w) (sleeps w)) in *.
  set (s1 := set_scope_window self host [c 1%nat]) in *.
  (* second call *)
  assert (Hc : forall a b, clock w (ticks w + a + b)%nat = c (a + b)%nat)
    by (intros; subst c; cbv beta; f_equal; lia).
  assert (E2 : wait_if_needed s1 host w1 =
    ((Ok 0%float, set_scope_window self host [c 1%nat; c 3%nat]),
     mkWorld (clock w) (ticks w + 4)%nat (draws w) (drawn w) (sleeps w))).
  { rewrite (wait_if_needed_free s1 host w1 [c 1%nat]).
    - subst s1 w1. cbn [clock ticks draws drawn sleeps].
      rewrite set_scope_window_twice, (Hc 2 1)%nat.
      replace (ticks w + 2 + 2)%nat with (ticks w + 4)%nat by lia. reflexivity.
    - subst s1 w1. cbn [clock ticks]. rewrite scope_window_set, Htw.
      cbn [evict]. fold (c 2%nat). now rewrite H2.
    - subst s1. now rewrite Hmr. }
  set (w2 := mkWorld (clock w) (ticks w + 4)%nat (draws w) (drawn w) (sleeps w)) in *.
  set (s2 := set_scope_window self host [c 1%nat; c 3%nat]) in *.
  (* third call *)
  assert (E3 : wait_if_needed s2 host w2 =
    ((Ok 0%float, set_scope_window self host [c 1%nat; c 3%nat; c 5%nat]),
     mkWorld (clock w) (ticks w + 6)%nat (draws w) (drawn w) (sleeps w))).
  { rewrite (wait_if_needed_free s2 host w2 [c 1%nat; c 3%nat]).
    - subst s2 w2. cbn [clock ticks draws drawn sleeps].
      rewrite set_scope_window_twice, (Hc 4 1)%nat.
      replace (ticks w + 4 + 2)%nat with (ticks w + 6)%nat by lia. reflexivity.
    - subst s2 w2. cbn [clock ticks]. rewrite scope_window_set, Htw.
      cbn [evict]. fold (c 4%nat). now rewrite H4.
    - subst s2. now rewrite Hmr. }
  set (w3 := mkWorld (clock w) (ticks w + 6)%nat (draws w) (drawn w) (sleeps w)) in *.
  set (s3 := set_scope_window self host [c 1%nat; c 3%nat; c 5%nat]) in *.
  assert (E123 : first3 = ((Ok [0; 0; 0]%float, s3), w3)).
  { subst first3. rewrite wait_burst_step. cbv zeta. rewrite E1. cbn [fst snd].
    rewrite wait_burst_step. cbv zeta. rewrite E2. cbn [fst snd].
    fold w2 s2. rewrite wait_burst_step. cbv zeta. rewrite E3. reflexivity. }
  subst fourth. rewrite E123. cbn [fst snd].
  split; [reflexivity|]. split; [subst s3; apply scope_window_set|].
  split; [reflexivity|].
  (* fourth call *)
  rewrite wait_if_needed_run. cbv zeta.
  subst s3 w3. cbn [clock ticks draws drawn sleeps].
  rewrite scope_window_set, Htw, Hmr, (Hc 6 1)%nat.
  cbn [evict]. fold (c 6%nat). rewrite H6. cbn [length Z.of_nat].
  change (Z.ltb _ 3) with false. cbv iota.
  change (6 + 1)%nat with 7%nat. fold gap.
  unfold PyNum.max0, PyNum.gtb.
  destruct (PrimFloat.ltb 0 gap) eqn:Hgap.
  - rewrite Hgap.
    split; [discriminate|]. split; [|split].
    + intros _ Hsleep. rewrite Hsleep. cbn [fst snd sleeps].
      now rewrite scope_window_set.
    + intros e _ Hsleep. rewrite Hsleep. cbn [fst snd sleeps].
      now rewrite scope_window_set.
    + intros wait. destruct (PyNum.sleep_error gap); cbn [fst]; [discriminate|].
      intros [= <-]. now apply float_ltb_leb.
  - change (PrimFloat.ltb 0 0) with false. cbn [fst snd sleeps].
    rewrite scope_window_set.
    split; [tauto|]. split; [discriminate|]. split; [discriminate|].
    intros wait [= <-]. reflexivity.
Qed.

(** The theorem on two clocks.  On the first, which advances by an
    eighth of a second or less per reading, the fourth call waits half a
    second.  On the second the clock has passed the end of the window
    when the fourth call reads it again: the gap is [-0.375] and the
    wait is [0]. *)
Lemma wait_if_needed_four_calls_witness :
  let world := fun last =>
    mkWorld
      (fun k => nth k [100; 100.125; 100.25; 100.25; 100.375; 100.5;
                       100.5; last]%float 0%float)
      0 (fun _ _ _ => 0%float) 0 [] in
  let first3 := fun last =>
    wait_burst 3 (RateLimiter_init 3 1 false) (Some "h") (world last) in
  let fourth := fun last =>
    wait_if_needed (snd (fst (first3 last))) (Some "h") (snd (first3 last)) in
  (fst (fst (first3 100.625)) = Ok [0; 0; 0]
   /\ fst (fst (fourth 100.625)) = Ok 0.5
   /\ scope_window (snd (fst (fourth 100.625))) (Some "h")
      = [100.125; 100.25; 100.5; 101.125]
   /\ sleeps (snd (fourth 100.625)) = [0.5])%float
  /\ (fst (fst (fourth 101.5)) = Ok 0
      /\ scope_window (snd (fst (fourth 101.5))) (Some "h")
         = [100.125; 100.25; 100.5; 101.5]
      /\ sleeps (snd (fourth 101.5)) = [])%float.
Proof.
  intros world first3 fourth. split.
  - destruct (wait_if_needed_four_calls false (Some "h") (world 100.625%float))
      as (H123 & _ & _ & _ & Hwait & _);
      [reflexivity | reflexivity | reflexivity |].
    destruct Hwait as (Hwait & Hwin & Hsleep); [reflexivity | reflexivity |].
    split; [exact H123|]. split; [exact Hwait|]. split; [exact Hwin|].
    exact Hsleep.
  - destruct (wait_if_needed_four_calls false (Some "h") (world 101.5%float))
      as (_ & _ & _ & Hfloor & _);
      [reflexivity | reflexivity | reflexivity |].
    destruct Hfloor as (Hwait & Hwin & Hsleep); [reflexivity|].
    split; [exact Hwait|]. split; [exact Hwin | exact Hsleep].
Defined.

(** ** AdaptiveRateLimiter *)

(** The thresholds are strict: a success rate of exactly 0.9 or 0.7
    leaves the rate alone. *)
Example adjusted_rate_at_thresholds :
  let self := mkAdaptive 10 1 50 10 0 0 0 10 ∅ in
  (PyNum.int_truediv 9 10 ≫= adjusted_rate self) = Some 10
  /\ (PyNum.int_truediv 7 10 ≫= adjusted_rate self) = Some 10
  /\ (PyNum.int_truediv 91 100 ≫= adjusted_rate self) = Some 11
  /\ (PyNum.int_truediv 69 100 ≫= adjusted_rate self) = Some 9.
Proof. repeat split; reflexivity. Qed.

(** The clamps: at the ceiling a good window does not raise the rate, at
    the floor a bad one does not lower it. *)
Example adjusted_rate_clamped :
  adjusted_rate (mkAdaptive 10 1 50 50 0 0 0 10 ∅) 1 = Some 50
  /\ adjusted_rate (mkAdaptive 10 1 50 1 0 0 0 10 ∅) 0 = Some 1.
Proof. split; reflexivity. Qed.

Section AdaptiveFacts.

(** A report that does not complete the window only counts. *)
Lemma report_result_quiet self host success w :
  window_elapsed self (clock w (ticks w)) = false ->
  report_result self host success w =
  (Some (count_result self success),
   mkWorld (clock w) (S (ticks w)) (draws w) (drawn w) (sleeps w)).
Proof.
  intros H. unfold report_result, mbind, Py_bind, time_time.
  change (window_elapsed (count_result self success) (clock w (ticks w)))
    with (window_elapsed self (clock w (ticks w))).
  now rewrite H.
Qed.

(** A report that completes the window counts, then rolls over. *)
Lemma report_result_rolls self host success w :
  window_elapsed self (clock w (ticks w)) = true ->
  report_result self host success w =
  (rollover (count_result self success) (clock w (ticks w)),
   mkWorld (clock w) (S (ticks w)) (draws w) (drawn w) (sleeps w)).
Proof.
  intros H. unfold report_result, mbind, Py_bind, time_time.
  change (window_elapsed (count_result self success) (clock w (ticks w)))
    with (window_elapsed self (clock w (ticks w))).
  now rewrite H.
Qed.

Lemma successes_app r1 r2 : successes (r1 ++ r2) = successes r1 + successes r2.
Proof. unfold successes. rewrite List.filter_app, length_app. lia. Qed.

Lemma failures_app r1 r2 : failures (r1 ++ r2) = failures r1 + failures r2.
Proof. unfold failures. rewrite List.filter_app, length_app. lia. Qed.

Lemma successes_one h b : successes [(h, b)] = if b then 1 else 0.
Proof. now destruct b. Qed.

Lemma failures_one h b : failures [(h, b)] = if b then 0 else 1.
Proof. now destruct b. Qed.

(** Reports inside the window leave everything but the counters alone
    and add up in them; the last report of the run completes the window. *)
Lemma report_results_window results : forall self last w,
  (forall i, (i < length results)%nat ->
             window_elapsed self (clock w (ticks w + i)) = false) ->
  window_elapsed self (clock w (ticks w + length results)) = true ->
  fst (report_results self (results ++ [last]) w) =
  rollover
    (mkAdaptive (initial_rate self) (min_rate self) (max_rate self)
       (current_rate self)
       (success_count self + successes (results ++ [last]))
       (failure_count self + failures (results ++ [last]))
       (window_start self) (window_size self) (limiters self))
    (clock w (ticks w + length results)).
Proof.
  induction results as [|[h b] results IH]; intros self [hl bl] w Hquiet Hroll.
  - cbn [app length report_results] in *. unfold mbind, Py_bind.
    rewrite Nat.add_0_r in Hroll. rewrite report_result_rolls by exact Hroll.
    rewrite Nat.add_0_r.
    match goal with |- _ = rollover ?Y _ =>
      assert (HX : count_result self bl = Y) end.
    { unfold count_result, successes, failures; destruct bl;
        cbn [List.filter snd negb length]; f_equal; lia. }
    rewrite HX.
    now destruct (rollover _ (clock w (ticks w))).
  - cbn [app report_results]. unfold mbind, Py_bind.
    rewrite report_result_quiet.
    2:{ rewrite <- (Hquiet O) by (cbn; lia). now rewrite Nat.add_0_r. }
    set (w1 := mkWorld _ _ _ _ _).
    rewrite (IH (count_result self b) (hl, bl) w1).
    + subst w1. cbn [clock ticks length].
      replace (S (ticks w) + length results)%nat
        with (ticks w + S (length results))%nat by lia.
      f_equal.
      change ((h, b) :: results ++ [(hl, bl)])
        with ([(h, b)] ++ (results ++ [(hl, bl)])).
      rewrite (successes_app [(h, b)]), (failures_app [(h, b)]).
      unfold count_result; destruct b;
        cbn [successes failures List.filter snd negb length
             initial_rate min_rate max_rate current_rate success_count
             failure_count window_start window_size limiters];
        f_equal; rewrite ?successes_one, ?failures_one; lia.
    + intros i Hi. subst w1. cbn [clock ticks].
      replace (S (ticks w) + i)%nat with (ticks w + S i)%nat by lia.
      apply (Hquiet (S i)). cbn. lia.
    + subst w1. cbn [clock ticks].
      replace (S (ticks w) + length results)%nat
        with (ticks w + length ((h, b) :: results))%nat by (cbn; lia).
      exact Hroll.
Qed.

End AdaptiveFacts.

Section RolloverFacts.

(** The rollover of a window whose counters and rate are known. *)
Lemma rollover_counts self now s f :
  success_count self = s -> failure_count self = f ->
  rollover self now =
  (success_rate ← PyNum.int_truediv s (Z.max 1 (s + f));
   rate ← adjusted_rate self success_rate;
   Some (mkAdaptive (initial_rate self) (min_rate self) (max_rate self)
           rate 0 0 now (window_size self)
           (set_max_requests rate <$> limiters self))).
Proof. intros <- <-. reflexivity. Qed.

Lemma adjusted_rate_high self :
  current_rate self = 10 ->
  adjusted_rate self 0.95 = Some (Z.min (max_rate self) 11).
Proof. intros H. unfold adjusted_rate. now rewrite H. Qed.

Lemma adjusted_rate_low self :
  current_rate self = 10 ->
  adjusted_rate self 0.25 = Some (Z.max (min_rate self) 9).
Proof. intros H. unfold adjusted_rate. now rewrite H. Qed.

End RolloverFacts.

(** C2.  A limiter at [current_rate = 10] with empty counters receives a
    run of reports; all but the last fall inside the window and the last
    one completes it.  If the run holds 95 successes and 5 failures the
    rate becomes [min(max_rate, 11)]; if it holds 5 successes and 15
    failures it becomes [max(min_rate, 9)].  In both cases the counters
    are 0 afterwards, [window_start] is the clock value of the last
    report, and every limiter that existed has the new rate as its
    [max_requests] (and is otherwise untouched). *)
Theorem report_result_rollover_rates :
  forall (self : AdaptiveRateLimiter) (results : list (string * bool))
         (last : string * bool) (w : World),
    current_rate self = 10 ->
    success_count self = 0 ->
    failure_count self = 0 ->
    (forall i, (i < length results)%nat ->
               window_elapsed self (clock w (ticks w + i)) = false) ->
    window_elapsed self (clock w (ticks w + length results)) = true ->
    let run := results ++ [last] in
    let now := clock w (ticks w + length results) in
    (successes run = 95 -> failures run = 5 ->
     exists self',
       fst (report_results self run w) = Some self'
       /\ rolled_over self self' (Z.min (max_rate self) 11) now)
    /\ (successes run = 5 -> failures run = 15 ->
        exists self',
          fst (report_results self run w) = Some self'
          /\ rolled_over self self' (Z.max (min_rate self) 9) now).
Proof.
  intros self results last w Hrate Hs Hf Hquiet Hroll run now.
  subst run now. rewrite (report_results_window results self last w Hquiet Hroll).
  rewrite Hs, Hf, !Z.add_0_l.
  set (counted := mkAdaptive _ _ _ _ _ _ _ _ _).
  assert (Hlim : forall rate host l,
    limiters self !! host = Some l ->
    (set_max_requests rate <$> limiters self) !! host
      = Some (set_max_requests rate l)).
  { intros rate host l Hl. now rewrite lookup_fmap, Hl. }
  split.
  - intros H95 H5.
    rewrite (rollover_counts counted _ 95 5) by (subst counted; cbn; assumption).
    change (PyNum.int_truediv 95 (Z.max 1 (95 + 5))) with (Some 0.95%float).
    cbn [mbind option_bind].
    rewrite adjusted_rate_high by exact Hrate. cbn [mbind option_bind].
    eexists. split; [reflexivity|]. unfold rolled_over. cbn.
    repeat split; try reflexivity; [apply dom_fmap_L | apply Hlim].
  - intros H5 H15.
    rewrite (rollover_counts counted _ 5 15) by (subst counted; cbn; assumption).
    change (PyNum.int_truediv 5 (Z.max 1 (5 + 15))) with (Some 0.25%float).
    cbn [mbind option_bind].
    rewrite adjusted_rate_low by exact Hrate. cbn [mbind option_bind].
    eexists. split; [reflexivity|]. unfold rolled_over. cbn.
    repeat split; try reflexivity; [apply dom_fmap_L | apply Hlim].
Qed.

(** The theorem on the module's own limiter settings (rate 10 within
    [1, 50]): 95 successes and 5 failures, the hundredth report arriving
    when the window is over. *)
Lemma report_result_rollover_rates_witness :
  let self := mkAdaptive 10 1 50 10 0 0 0 10
                {[ "a" := RateLimiter_init 10 1 false ]} in
  let results := repeat ("a", true) 95 ++ repeat ("a", false) 4 in
  let w := mkWorld (fun k => if (k <? 99)%nat then 5%float else 10%float)
             0 (fun _ _ _ => 0%float) 0 [] in
  exists self',
    fst (report_results self (results ++ [("a", false)]) w) = Some self'
    /\ current_rate self' = 11
    /\ success_count self' = 0
    /\ failure_count self' = 0
    /\ window_start self' = 10%float
    /\ max_requests <$> (limiters self' !! "a") = Some 11.
Proof.
  intros self results w.
  destruct (report_result_rollover_rates self results ("a", false) w)
    as [Hhigh _].
  - reflexivity.
  - reflexivity.
  - reflexivity.
  - intros i Hi. change (length results) with 99%nat in Hi.
    cbn [clock ticks w Nat.add].
    destruct (Nat.ltb_spec i 99); [reflexivity | lia].
  - reflexivity.
  - destruct Hhigh as (self' & Hrun & Hrate & Hs & Hf & Hstart & _ & _ & _ & Hlim);
      [reflexivity | reflexivity |].
    exists self'. split; [exact Hrun|].
    split; [rewrite Hrate; reflexivity|].
    split; [exact Hs|]. split; [exact Hf|].
    split; [rewrite Hstart; reflexivity|].
    rewrite (Hlim "a" (RateLimiter_init 10 1 false)); reflexivity.
Defined.

Section Counters.



End Counters.



(** ** DelayManager *)

Section DelayFacts.

Lemma apply_delay_run self host w :
  apply_delay self host w =
  let d := (host_base self host
            + draws w (drawn w) (- jitter self) (jitter self))%float in
  let after := mkWorld (clock w) (ticks w) (draws w) (S (drawn w)) in
  if PyNum.gtb d 0 then
    match PyNum.sleep_error d with
    | Some e => (Exn e, after (sleeps w))
    | None => (Ok tt, after (sleeps w ++ [d]))
    end
  else (Ok tt, after (sleeps w)).
Proof.
  unfold apply_delay, get_delay, mbind, Py_bind, mret, Py_ret, random_uniform.
  cbv zeta. destruct (PyNum.gtb _ 0); [|reflexivity].
  unfold Env.time_sleep. cbn [clock ticks draws drawn sleeps].
  now destruct (PyNum.sleep_error _).
Qed.

(** Whatever a run of [apply_delay] calls sleeps is strictly positive. *)
Lemma apply_delays_sleeps self hosts : forall w,
  exists slept,
    sleeps (snd (apply_delays self hosts w)) = sleeps w ++ slept
    /\ Forall (fun d => PrimFloat.ltb 0 d = true) slept
    /\ (length slept <= length hosts)%nat.
Proof.
  induction hosts as [|host hosts IH]; intros w.
  - exists []. cbn. rewrite app_nil_r. repeat split; [constructor | lia].
  - cbn [apply_delays]. unfold mbind, Py_bind. rewrite apply_delay_run. cbv zeta.
    set (d := (host_base self host + _)%float).
    destruct (PyNum.gtb d 0) eqn:Hd.
    + destruct (PyNum.sleep_error d).
      * exists []. cbn [snd sleeps mret Py_ret length]. rewrite app_nil_r.
        repeat split; [constructor | lia].
      * set (w1 := mkWorld _ _ _ _ _).
        destruct (IH w1) as (slept & Hs & Hpos & Hlen).
        exists (d :: slept). rewrite Hs. subst w1. cbn [sleeps length].
        rewrite <- app_assoc. repeat split; [now constructor | lia].
    + set (w1 := mkWorld _ _ _ _ _).
      destruct (IH w1) as (slept & Hs & Hpos & Hlen).
      exists slept. rewrite Hs. subst w1. cbn [sleeps length].
      repeat split; [assumption | lia].
Qed.

End DelayFacts.

(** C4, as stated, fails: [get_delay] does not clamp.  With the
    constructor's defaults ([base_delay = 0.0], [jitter = 0.1]) and a draw
    at the low end of [uniform(-0.1, 0.1)] it returns [-0.1]. *)
Lemma get_delay_negative :
  let self := DelayManager_init 0 0.1 in
  let w := mkWorld (fun _ => 0%float) 0 (fun _ a _ => a) 0 [] in
  fst (get_delay self "host" w) = (-0.1)%float
  /\ PrimFloat.ltb (fst (get_delay self "host" w)) 0 = true.
Proof. split; reflexivity. Qed.

(** C4, amended.  [get_delay] returns the host's override if one was set
    (else [base_delay]) plus the value drawn from
    [uniform(-jitter, +jitter)]; the sum is not clamped and may be
    negative.  [apply_delay] sleeps only when the delay is strictly
    positive, so over any run of [apply_delay] calls every duration slept
    is positive, and there is at most one sleep per call. *)
Theorem delay_is_base_plus_jitter :
  forall (self : DelayManager) (host : string) (hosts : list string)
         (w : World),
    fst (get_delay self host w)
    = (host_base self host
       + draws w (drawn w) (- jitter self) (jitter self))%float
    /\ host_base self host
       = match host_delays self !! host with
         | Some d => d
         | None => base_delay self
         end
    /\ (forall d, host_base (set_host_delay self host d) host = d)
    /\ (forall other d, other <> host ->
          host_base (set_host_delay self other d) host = host_base self host)
    /\ exists slept,
         sleeps (snd (apply_delays self hosts w)) = sleeps w ++ slept
         /\ Forall (fun d => PrimFloat.ltb 0 d = true) slept
         /\ (length slept <= length hosts)%nat.
Proof.
  intros self host hosts w.
  split; [reflexivity|].
  split; [unfold host_base; now destruct (host_delays self !! host)|].
  split.
  { intros d. unfold host_base, set_host_delay. cbn [host_delays base_delay].
    now rewrite lookup_insert_eq. }
  split.
  { intros other d Hne. unfold host_base, set_host_delay.
    cbn [host_delays base_delay]. now rewrite lookup_insert_ne. }
  apply apply_delays_sleeps.
Qed.

(** ** The thread pool: how the basic calls run *)

Section PoolRuns.

Context {V : Type}.

Lemma bind_done {A B} (m : PoolM (V:=V) A) (f : A -> PoolM B) p a p1 ev1 r p2 ev2 ev :
  m p = (Done a, p1, ev1) ->
  f a p1 = (r, p2, ev2) ->
  ev = ev1 ++ ev2 ->
  (m ≫= f) p = (r, p2, ev).
Proof. intros Hm Hf ->. unfold mbind, PoolM_bind. now rewrite Hm, Hf. Qed.

Lemma run_conv {A} (m : PoolM (V:=V) A) p r r' p' ev ev' :
  m p = (r', p', ev') -> r' = r -> ev' = ev -> m p = (r, p', ev).
Proof. now intros -> -> ->. Qed.

Lemma bind_raised {A B} (m : PoolM (V:=V) A) (f : A -> PoolM B) p e p1 ev1 :
  m p = (Raised e, p1, ev1) ->
  (m ≫= f) p = (Raised e, p1, ev1).
Proof. intros Hm. unfold mbind, PoolM_bind. now rewrite Hm. Qed.

Lemma bind_blocked {A B} (m : PoolM (V:=V) A) (f : A -> PoolM B) p p1 ev1 :
  m p = (Blocked, p1, ev1) ->
  (m ≫= f) p = (Blocked, p1, ev1).
Proof. intros Hm. unfold mbind, PoolM_bind. now rewrite Hm. Qed.

Lemma try_done {A} (m : PoolM (V:=V) A) h p a p1 ev1 :
  m p = (Done a, p1, ev1) -> try_except m h p = (Done a, p1, ev1).
Proof. intros Hm. unfold try_except. now rewrite Hm. Qed.

Lemma try_raised {A} (m : PoolM (V:=V) A) h p e p1 ev1 r p2 ev2 ev :
  m p = (Raised e, p1, ev1) ->
  h e p1 = (r, p2, ev2) ->
  ev = ev1 ++ ev2 ->
  try_except m h p = (r, p2, ev).
Proof. intros Hm Hh ->. unfold try_except. now rewrite Hm, Hh. Qed.

Lemma ensure_executor_live (p : DynamicThreadPool) e :
  _executor p = Some e ->
  ensure_executor (V:=V) p = (Done e, p, []).
Proof.
  intros He. unfold ensure_executor.
  eapply bind_done; [reflexivity | | reflexivity].
  rewrite He.
  eapply bind_done; [reflexivity | | reflexivity].
  eapply bind_done; [reflexivity | | reflexivity].
  now rewrite He.
Qed.

Lemma executor_submit_live {A} (func : A -> Outcome V) args e p :
  executor_shutdown e = false ->
  executor_submit e func args p
  = (Done (mkFuture (func args)), p, [EvSubmit (func args)]).
Proof. intros Hs. unfold executor_submit. now rewrite Hs. Qed.

Lemma submit_live {A} (func : A -> Outcome V) args p :
  live p ->
  submit func args p = (Done (mkFuture (func args)), p, [EvSubmit (func args)]).
Proof.
  intros (e & He & Hs). unfold submit.
  eapply bind_done;
    [apply (ensure_executor_live p e He) | apply executor_submit_live, Hs | reflexivity].
Qed.

Lemma future_result_returns (v : V) p :
  future_result (mkFuture (Returns v)) p = (Done v, p, [EvResult (Returns v)]).
Proof. reflexivity. Qed.

Lemma future_result_raises (e : string) p :
  future_result (V:=V) (mkFuture (Raises e)) p = (Raised e, p, [EvResult (Raises e)]).
Proof. reflexivity. Qed.

Lemma submit_all_live {A} (func : A -> Outcome V) e items p :
  executor_shutdown e = false ->
  submit_all e func items p
  = (Done (mkFuture ∘ func <$> items), p, EvSubmit ∘ func <$> items).
Proof.
  intros Hs. induction items as [|x items IH]; [reflexivity|].
  cbn [submit_all].
  eapply bind_done; [now apply executor_submit_live | | reflexivity].
  eapply bind_done; [exact IH | reflexivity | now rewrite app_nil_r].
Qed.

Lemma collect_run label (futures : list (Future V)) p :
  collect label futures p
  = (Done (slot_of ∘ future_outcome <$> futures), p,
     concat (collect_events label ∘ future_outcome <$> futures)).
Proof.
  induction futures as [|[o] futures IH]; [reflexivity|].
  cbn [collect]. destruct o as [v|e]; eapply bind_done.
  - apply try_done.
    eapply bind_done; [apply future_result_returns | reflexivity | reflexivity].
  - eapply bind_done; [exact IH | reflexivity | reflexivity].
  - cbn. now rewrite app_nil_r.
  - eapply try_raised; [ | reflexivity | reflexivity].
    apply bind_raised. apply future_result_raises.
  - eapply bind_done; [exact IH | reflexivity | reflexivity].
  - cbn. now rewrite app_nil_r.
Qed.

End PoolRuns.

(** ** DynamicThreadPool.map *)

Section MapFacts.

Context {A V : Type}.

(** Reading a list through a list of valid indices. *)
Lemma omap_lookup_valid {B} (l : list B) (order : list nat) :
  (forall i, i ∈ order -> (i < length l)%nat) ->
  length (omap (fun i => l !! i) order) = length order
  /\ forall k i, order !! k = Some i ->
       omap (fun i => l !! i) order !! k = l !! i.
Proof.
  induction order as [|i order IH]; intros Hvalid.
  - split; [reflexivity | intros k i H; discriminate].
  - destruct IH as [IHlen IHlook].
    { intros i' Hi'. apply Hvalid. now right. }
    destruct (lookup_lt_is_Some_2 l i) as [x Hx].
    { apply Hvalid. now left. }
    cbn [omap list_omap]. rewrite Hx. split.
    + cbn. now rewrite IHlen.
    + intros [|k] i' Hk; cbn in Hk |- *.
      * injection Hk as <-. now rewrite Hx.
      * now apply IHlook.
Qed.

Lemma omap_lookup_range {B} (l : list B) n : forall s,
  (s + n <= length l)%nat ->
  omap (fun i => l !! i) (seq s n) = take n (drop s l).
Proof.
  induction n as [|n IH]; intros s Hs; [reflexivity|].
  destruct (lookup_lt_is_Some_2 l s) as [x Hx]; [lia|].
  cbn [seq omap list_omap]. rewrite Hx, (drop_S l x s Hx). cbn.
  f_equal. apply IH. lia.
Qed.

Lemma omap_lookup_seq {B} (l : list B) :
  omap (fun i => l !! i) (seq 0 (length l)) = l.
Proof. rewrite omap_lookup_range by lia. rewrite drop_0. now apply take_ge. Qed.

(** What [map] returns on a live pool. *)
Lemma map_run (func : A -> Outcome V) items order p :
  live p ->
  map func items order p
  = (Done (omap (fun i => (slot_of ∘ func <$> items) !! i) order), p,
     (EvSubmit ∘ func <$> items)
     ++ concat (collect_events "Task error: " ∘ future_outcome
                  <$> as_completed order (mkFuture ∘ func <$> items))).
Proof.
  intros (e & He & Hs). unfold map.
  eapply bind_done; [apply (ensure_executor_live p e He) | | reflexivity].
  eapply bind_done; [apply (submit_all_live func e items p Hs) | | reflexivity].
  rewrite collect_run. f_equal. f_equal. f_equal.
  unfold as_completed.
  induction order as [|i order IH]; [reflexivity|].
  cbn [omap list_omap]. rewrite !list_lookup_fmap.
  destruct (items !! i); cbn; [now rewrite IH | exact IH].
Qed.

End MapFacts.

(** C3, as stated, fails: [map] appends results as the futures complete.
    Five items, the work for item 3 raises and happens to finish first:
    the null marker lands in slot 0 and slot 2 carries item 2's result. *)
Lemma map_null_slot_not_at_item_index :
  let func := fun x : Z => if Z.eqb x 3 then Raises "boom" else Returns (10 * x) in
  let run := ThreadPool.map func [1; 2; 3; 4; 5] [2; 0; 1; 3; 4]%nat global_thread_pool in
  fst (fst run) = Done [None; Some 10; Some 20; Some 40; Some 50]
  /\ fst (fst run) <> Done [Some 10; Some 20; None; Some 40; Some 50].
Proof.
  intros func run.
  assert (H : fst (fst run) = Done [None; Some 10; Some 20; Some 40; Some 50])
    by reflexivity.
  split; [exact H|]. rewrite H. discriminate.
Qed.

(** C3, amended.  On a live pool [map] returns one slot per item, in the
    order in which the work units complete: the slot at position [k]
    belongs to the item whose unit completed [k]-th, and holds its result,
    or the null marker if it raised.  The result list is a permutation of
    the per-item slots, and it is in item order when the units complete
    in submission order.  If exactly the item at index [j] raises, then
    exactly one slot is the null marker: the one at the position where
    [j] completed. *)
Theorem map_slots_in_completion_order :
  forall (A V : Type) (func : A -> Outcome V) (items : list A)
         (order : list nat) (p : DynamicThreadPool),
    live p ->
    Permutation order (seq 0 (length items)) ->
    exists results events,
      ThreadPool.map func items order p = (Done results, p, events)
      /\ length results = length items
      /\ (forall k i, order !! k = Some i ->
            results !! k = slot_of ∘ func <$> items !! i)
      /\ Permutation results (slot_of ∘ func <$> items)
      /\ (order = seq 0 (length items) -> results = slot_of ∘ func <$> items)
      /\ (forall j,
            (forall i x, items !! i = Some x ->
                         (slot_of (func x) = None <-> i = j)) ->
            forall k, results !! k = Some None <-> order !! k = Some j).
Proof.
  intros A V func items order p Hlive Hperm.
  set (slots := slot_of ∘ func <$> items).
  assert (Hlen : length slots = length items) by (subst slots; apply length_fmap).
  assert (Hvalid : forall i, i ∈ order -> (i < length slots)%nat).
  { intros i Hi. rewrite Hlen. rewrite Hperm in Hi.
    apply list_elem_of_In, in_seq in Hi. lia. }
  destruct (omap_lookup_valid slots order Hvalid) as [Hl Hk].
  eexists _, _. split; [apply (map_run func items order p Hlive)|].
  fold slots. split.
  { rewrite Hl, (Permutation_length Hperm). apply length_seq. }
  split.
  { intros k i Hki. rewrite (Hk k i Hki). subst slots. apply list_lookup_fmap. }
  split.
  { rewrite Hperm, <- Hlen. now rewrite omap_lookup_seq. }
  split.
  { intros ->. rewrite <- Hlen. apply omap_lookup_seq. }
  intros j Hj k. split.
  - intros Hnone.
    destruct (order !! k) as [i|] eqn:Hki.
    + rewrite (Hk k i Hki) in Hnone. subst slots.
      rewrite list_lookup_fmap in Hnone.
      destruct (items !! i) as [x|] eqn:Hx; [|discriminate].
      cbn in Hnone. injection Hnone as Hnone.
      f_equal. now apply (Hj i x Hx).
    + apply lookup_ge_None in Hki. rewrite <- Hl in Hki.
      apply lookup_ge_None in Hki. congruence.
  - intros Hkj. rewrite (Hk k j Hkj). subst slots. rewrite list_lookup_fmap.
    assert (Hjlt : (j < length items)%nat).
    { rewrite <- Hlen. apply Hvalid. apply list_elem_of_lookup. eauto. }
    destruct (lookup_lt_is_Some_2 items j Hjlt) as [x Hx].
    rewrite Hx. cbn. f_equal. now apply (Hj j x Hx).
Qed.

(** The theorem on the five items of the scenario, the failing unit
    completing first. *)
Lemma map_slots_in_completion_order_witness :
  let func := fun x : Z => if Z.eqb x 3 then Raises "boom" else Returns (10 * x) in
  exists results events,
    ThreadPool.map func [1; 2; 3; 4; 5] [2; 0; 1; 3; 4]%nat global_thread_pool
      = (Done results, global_thread_pool, events)
    /\ length results = 5%nat
    /\ results !! 0%nat = Some None
    /\ results !! 2%nat = Some (Some 20)
    /\ Permutation results [Some 10; Some 20; None; Some 40; Some 50].
Proof.
  intros func.
  destruct (map_slots_in_completion_order Z Z func [1; 2; 3; 4; 5]
              [2; 0; 1; 3; 4]%nat global_thread_pool)
    as (results & events & Hrun & Hlen & Hslot & Hperm & _).
  - exists (mkExecutor 2 false). split; reflexivity.
  - eapply perm_trans; [apply perm_swap | apply perm_skip, perm_swap].
  - exists results, events.
    split; [exact Hrun|]. split; [exact Hlen|].
    split; [exact (Hslot 0%nat 2%nat eq_refl)|].
    split; [exact (Hslot 2%nat 1%nat eq_refl)|].
    exact Hperm.
Defined.

(** ** TaskScheduler.schedule_batch *)

Section BatchFacts.

Context {A V : Type}.
Implicit Types tasks batch : list ((A -> Outcome V) * A).

Lemma submit_batch_live batch p :
  live p ->
  TaskScheduler.submit_batch batch p
  = (Done (mkFuture ∘ run_task <$> batch), p, EvSubmit ∘ run_task <$> batch).
Proof.
  intros Hlive. induction batch as [|[func args] batch IH]; [reflexivity|].
  cbn [TaskScheduler.submit_batch].
  eapply bind_done; [apply (submit_live func args p Hlive) | | reflexivity].
  eapply bind_done; [exact IH | reflexivity | now rewrite app_nil_r].
Qed.

Lemma batch_loop_run tasks mc starts p :
  live p ->
  TaskScheduler.batch_loop tasks mc starts p
  = (Done (concat ((fun i => slot_of ∘ run_task <$> PyNum.slice tasks i (i + mc))
                     <$> starts)),
     p,
     concat ((fun i => wave_events (PyNum.slice tasks i (i + mc))) <$> starts)).
Proof.
  intros Hlive. induction starts as [|i starts IH]; [reflexivity|].
  cbn [TaskScheduler.batch_loop]. cbv zeta. eapply run_conv.
  - eapply bind_done; [apply (submit_batch_live _ p Hlive) | | reflexivity].
    eapply bind_done; [apply collect_run | | reflexivity].
    eapply bind_done; [exact IH | reflexivity | reflexivity].
  - cbn [fmap list_fmap concat]. now rewrite <- !list_fmap_compose.
  - rewrite app_nil_r. cbn [fmap list_fmap concat]. unfold wave_events.
    rewrite <- !list_fmap_compose. now rewrite app_assoc.
Qed.

End BatchFacts.

Section Chunks.

Context {T : Type}.

(** The first [c] pieces of [m] elements make up the first [c * m]. *)
Lemma concat_pieces (l : list T) m c :
  concat ((fun k => take m (drop (k * m) l)) <$> seq 0 c) = take (c * m) l.
Proof.
  induction c as [|c IH]; [reflexivity|].
  rewrite seq_S, fmap_app, concat_app, IH. cbn [fmap list_fmap concat Nat.add].
  rewrite app_nil_r, take_take_drop. f_equal. lia.
Qed.

Lemma waves_pieces size (l : list T) :
  0 < size ->
  waves size l
  = (fun k => take (Z.to_nat size) (drop (k * Z.to_nat size) l))
      <$> seq 0 (wave_count size l).
Proof.
  intros Hsize. unfold waves, PyNum.range, wave_count.
  rewrite (proj2 (Z.eqb_neq size 0)) by lia.
  rewrite (proj2 (Z.ltb_lt 0 size)) by lia.
  change (List.map ?f ?x) with (f <$> x).
  rewrite Z.sub_0_r.
  rewrite <- list_fmap_compose. apply list_fmap_ext.
  intros _ k _. unfold compose, PyNum.slice. f_equal; [f_equal; lia|].
  f_equal. rewrite Z.add_0_l, Z2Nat.inj_mul, Nat2Z.id by lia. reflexivity.
Qed.

Lemma wave_count_covers size (l : list T) :
  0 < size -> (length l <= wave_count size l * Z.to_nat size)%nat.
Proof.
  intros Hsize. unfold wave_count.
  destruct (Z.ltb_spec 0 (Z.of_nat (length l))) as [Hpos|Hzero]; [|lia].
  pose proof (Z.div_mod (Z.of_nat (length l) - 1) size ltac:(lia)) as Hdm.
  pose proof (Z.mod_pos_bound (Z.of_nat (length l) - 1) size Hsize) as Hmod.
  pose proof (Z.div_pos (Z.of_nat (length l) - 1) size ltac:(lia) Hsize) as Hq.
  apply Nat2Z.inj_le. rewrite Nat2Z.inj_mul, !Z2Nat.id by lia. nia.
Qed.

Lemma wave_count_tight size (l : list T) k :
  0 < size -> (k < wave_count size l)%nat -> (k * Z.to_nat size < length l)%nat.
Proof.
  intros Hsize. unfold wave_count.
  destruct (Z.ltb_spec 0 (Z.of_nat (length l))) as [Hpos|Hzero]; [|cbn; lia].
  intros Hk.
  pose proof (Z.div_mod (Z.of_nat (length l) - 1) size ltac:(lia)) as Hdm.
  pose proof (Z.mod_pos_bound (Z.of_nat (length l) - 1) size Hsize) as Hmod.
  pose proof (Z.div_pos (Z.of_nat (length l) - 1) size ltac:(lia) Hsize) as Hq.
  apply Nat2Z.inj_lt. rewrite Nat2Z.inj_mul, Z2Nat.id by lia.
  assert (Z.of_nat k <= (Z.of_nat (length l) - 1) / size) by lia.
  nia.
Qed.

Lemma waves_starts size (l : list T) :
  size <> 0 ->
  exists starts,
    PyNum.range 0 (Z.of_nat (length l)) size = Some starts
    /\ waves size l = (fun i => PyNum.slice l i (i + size)) <$> starts.
Proof.
  intros Hsize. unfold waves, PyNum.range.
  rewrite (proj2 (Z.eqb_neq size 0)) by exact Hsize.
  eexists. split; reflexivity.
Qed.

Lemma concat_fmap_pieces {U} (f : T -> U) (pieces : Z -> list T) starts :
  concat ((fun i => f <$> pieces i) <$> starts)
  = f <$> concat (pieces <$> starts).
Proof.
  induction starts as [|i starts IH]; [reflexivity|].
  cbn [fmap list_fmap concat] in IH |- *. now rewrite fmap_app, IH.
Qed.

Lemma concat_waves size (l : list T) :
  0 < size -> concat (waves size l) = l.
Proof.
  intros Hsize. rewrite waves_pieces by exact Hsize.
  rewrite concat_pieces. apply take_ge. now apply wave_count_covers.
Qed.

End Chunks.

(** What a call of [schedule_batch] does on a live pool with waves of
    [size] tasks, [size] being the [max_concurrent] given or else the
    pool's worker count. *)
Lemma schedule_batch_run {A V} (tasks : list ((A -> Outcome V) * A))
    (max_concurrent : option Z) (size : Z) (p : DynamicThreadPool) :
  live p ->
  match max_concurrent with
  | Some n => n
  | None => _current_workers p
  end = size ->
  0 < size ->
  TaskScheduler.schedule_batch tasks max_concurrent p
  = (Done (slot_of ∘ run_task <$> tasks), p,
     concat (wave_events <$> waves size tasks)).
Proof.
  intros Hlive Hsize Hpos.
  destruct (waves_starts size tasks) as (starts & Hrange & Hwaves); [lia|].
  unfold TaskScheduler.schedule_batch.
  eapply run_conv.
  - eapply bind_done; [reflexivity | | reflexivity].
    cbv beta zeta. unfold get_worker_count.
    replace (default (_current_workers p) max_concurrent) with size
      by (now destruct max_concurrent).
    rewrite Hrange.
    apply (batch_loop_run tasks size starts p Hlive).
  - f_equal. rewrite concat_fmap_pieces, <- Hwaves.
    now rewrite (concat_waves size tasks Hpos).
  - cbn [app]. rewrite Hwaves. now rewrite <- list_fmap_compose.
Qed.

(** The [k]-th wave is the [k]-th piece of [size] tasks; it is not empty
    and has at most [size] tasks. *)
Lemma waves_shape {T} (size : Z) (tasks : list T) (k : nat) (wave : list T) :
  0 < size ->
  waves size tasks !! k = Some wave ->
  wave = take (Z.to_nat size) (drop (k * Z.to_nat size) tasks)
  /\ (0 < length wave <= Z.to_nat size)%nat.
Proof.
  intros Hpos Hk. rewrite waves_pieces in Hk by exact Hpos.
  rewrite list_lookup_fmap in Hk.
  destruct (seq 0 (wave_count size tasks) !! k) as [k'|] eqn:Hseq; [|discriminate].
  apply lookup_seq in Hseq as [-> Hlt]. cbn in Hk. injection Hk as <-.
  split; [reflexivity|].
  pose proof (wave_count_tight size tasks k Hpos Hlt) as Htight.
  rewrite length_take, length_drop. lia.
Qed.

(** C9.  On a live pool, with waves of [size] tasks where [size] is the
    [max_concurrent] given or, when none is given, the pool's current
    worker count, and [size] is positive: [schedule_batch] returns one
    slot per task, slot [i] holding the result of task [i] or the null
    marker if it raised (the failure is logged and the batch goes on).
    The tasks are cut into consecutive waves of [size] tasks (the last
    may be shorter, none is empty); what the call does is, wave after
    wave, submit every task of the wave and then wait for every one of
    them. *)
Theorem schedule_batch_slots_and_waves :
  forall (A V : Type) (tasks : list ((A -> Outcome V) * A))
         (max_concurrent : option Z) (p : DynamicThreadPool),
    let size := match max_concurrent with
                | Some n => n
                | None => _current_workers p
                end in
    live p ->
    0 < size ->
    TaskScheduler.schedule_batch tasks max_concurrent p
    = (Done (slot_of ∘ run_task <$> tasks), p,
       concat (wave_events <$> waves size tasks))
    /\ concat (waves size tasks) = tasks
    /\ (forall k wave, waves size tasks !! k = Some wave ->
          wave = take (Z.to_nat size) (drop (k * Z.to_nat size) tasks)
          /\ (0 < length wave <= Z.to_nat size)%nat).
Proof.
  intros A V tasks mc p size Hlive Hpos.
  split; [now apply (schedule_batch_run tasks mc size p)|].
  split; [now apply concat_waves|].
  intros k wave. now apply waves_shape.
Qed.

(** The theorem on five tasks, the third one failing, on the module's
    pool (two workers): in waves of two when [max_concurrent] is left
    out, and in waves of three when it is 3. *)
Lemma schedule_batch_slots_and_waves_witness :
  let func := fun x : Z => if Z.eqb x 3 then Raises "boom" else Returns (10 * x) in
  let tasks := (fun x => (func, x)) <$> [1; 2; 3; 4; 5] in
  (fst (fst (TaskScheduler.schedule_batch tasks None global_thread_pool))
   = Done [Some 10; Some 20; None; Some 40; Some 50]
   /\ snd (TaskScheduler.schedule_batch tasks None global_thread_pool)
      = [EvSubmit (Returns 10); EvSubmit (Returns 20);
         EvResult (Returns 10); EvResult (Returns 20);
         EvSubmit (Raises "boom"); EvSubmit (Returns 40);
         EvResult (Raises "boom"); EvLog "ERROR" "Batch task error: boom";
         EvResult (Returns 40);
         EvSubmit (Returns 50); EvResult (Returns 50)]
   /\ length <$> waves 2 tasks = [2; 2; 1]%nat)
  /\ (fst (fst (TaskScheduler.schedule_batch tasks (Some 3) global_thread_pool))
      = Done [Some 10; Some 20; None; Some 40; Some 50]
      /\ snd (TaskScheduler.schedule_batch tasks (Some 3) global_thread_pool)
         = [EvSubmit (Returns 10); EvSubmit (Returns 20); EvSubmit (Raises "boom");
            EvResult (Returns 10); EvResult (Returns 20);
            EvResult (Raises "boom"); EvLog "ERROR" "Batch task error: boom";
            EvSubmit (Returns 40); EvSubmit (Returns 50);
            EvResult (Returns 40); EvResult (Returns 50)]
      /\ length <$> waves 3 tasks = [3; 2]%nat).
Proof.
  intros func tasks.
  assert (Hlive : live global_thread_pool)
    by (exists (mkExecutor 2 false); split; reflexivity).
  split.
  - destruct (schedule_batch_slots_and_waves Z Z tasks None global_thread_pool)
      as (Hrun & _ & _); [exact Hlive | reflexivity |].
    rewrite Hrun. repeat split; reflexivity.
  - destruct (schedule_batch_slots_and_waves Z Z tasks (Some 3) global_thread_pool)
      as (Hrun & _ & _); [exact Hlive | reflexivity |].
    rewrite Hrun. repeat split; reflexivity.
Defined.

(** ** TaskScheduler.schedule_with_backoff *)

Section BackoffFacts.

Context {V : Type}.
Implicit Types work : Z -> Outcome V.

(** The attempt succeeds: its result is returned at once. *)
Lemma backoff_attempt_returns work max_retries backoff_factor attempt rest p v :
  live p ->
  work attempt = Returns v ->
  TaskScheduler.backoff_loop work max_retries backoff_factor (attempt :: rest) p
  = (Done (Some v), p, last_attempt_events work attempt).
Proof.
  intros Hlive Hv. cbn [TaskScheduler.backoff_loop]. eapply run_conv.
  - eapply bind_done.
    + apply try_done.
      eapply bind_done; [apply (submit_live work attempt p Hlive) | | reflexivity].
      rewrite Hv.
      eapply bind_done; [apply future_result_returns | reflexivity | reflexivity].
    + reflexivity.
    + reflexivity.
  - reflexivity.
  - unfold last_attempt_events. now rewrite Hv.
Qed.

(** The last attempt fails: its exception is re-raised, without sleeping. *)
Lemma backoff_attempt_gives_up work backoff_factor attempt rest p e :
  live p ->
  work attempt = Raises e ->
  TaskScheduler.backoff_loop work attempt backoff_factor (attempt :: rest) p
  = (Raised e, p, last_attempt_events work attempt).
Proof.
  intros Hlive He. cbn [TaskScheduler.backoff_loop]. eapply run_conv.
  - apply bind_raised.
    eapply try_raised.
    + eapply bind_done; [apply (submit_live work attempt p Hlive) | | reflexivity].
      rewrite He. apply bind_raised. apply future_result_raises.
    + rewrite Z.eqb_refl. apply bind_raised. reflexivity.
    + reflexivity.
  - reflexivity.
  - unfold last_attempt_events. now rewrite He.
Qed.

(** An earlier attempt fails: sleep [backoff_factor * 2 ** attempt], then
    go on with the remaining attempts. *)
Lemma backoff_attempt_retries work max_retries backoff_factor attempt rest p e
    r p' ev :
  live p ->
  work attempt = Raises e ->
  attempt <> max_retries ->
  time_sleep_ok (backoff_factor * PyNum.float_of_int (2 ^ attempt))%float
    = true ->
  TaskScheduler.backoff_loop work max_retries backoff_factor rest p = (r, p', ev) ->
  TaskScheduler.backoff_loop work max_retries backoff_factor (attempt :: rest) p
  = (r, p', failed_attempt_events work backoff_factor attempt ++ ev).
Proof.
  intros Hlive He Hne Hsleep Hrest. cbn [TaskScheduler.backoff_loop].
  eapply run_conv.
  - eapply bind_done.
    + eapply try_raised.
      * eapply bind_done; [apply (submit_live work attempt p Hlive) | | reflexivity].
        rewrite He. apply bind_raised. apply future_result_raises.
      * rewrite (proj2 (Z.eqb_neq attempt max_retries) Hne). cbv zeta.
        eapply bind_done.
        -- unfold time_sleep_ok in Hsleep. unfold time_sleep.
           destruct (PyNum.sleep_error _); [discriminate|]. reflexivity.
        -- reflexivity.
        -- reflexivity.
      * reflexivity.
    + exact Hrest.
    + reflexivity.
  - reflexivity.
  - unfold failed_attempt_events. rewrite He. reflexivity.
Qed.

End BackoffFacts.

(** C6.  [schedule_with_backoff] with [max_retries = 3] and
    [backoff_factor = 1.0] on a live pool.  If the unit of work fails at
    every attempt there are exactly four attempts, a sleep of 1, 2 and 4
    seconds after the first three, and the fourth failure is re-raised
    with no sleep after it.  If attempt [k] is the first to succeed, its
    result is returned right after it: only the sleeps of the [k] failed
    attempts came before, and nothing follows. *)
Theorem schedule_with_backoff_four_attempts :
  forall (V : Type) (work : Z -> Outcome V) (p : DynamicThreadPool),
    live p ->
    let trace :=
      [EvSubmit (work 0); EvResult (work 0); EvSleep 1;
       EvSubmit (work 1); EvResult (work 1); EvSleep 2;
       EvSubmit (work 2); EvResult (work 2); EvSleep 4;
       EvSubmit (work 3); EvResult (work 3)] in
    (forall msg : Z -> string,
       (forall k, 0 <= k <= 3 -> work k = Raises (msg k)) ->
       TaskScheduler.schedule_with_backoff work 3 1 p
       = (Raised (msg 3), p, trace))
    /\ (forall (k : Z) (v : V),
          0 <= k <= 3 ->
          (forall j, 0 <= j < k -> exists e, work j = Raises e) ->
          work k = Returns v ->
          TaskScheduler.schedule_with_backoff work 3 1 p
          = (Done (Some v), p,
             take (3 * Z.to_nat k) trace ++ last_attempt_events work k)).
Proof.
  intros V work p Hlive trace.
  assert (Hrange : PyNum.range 0 (3 + 1) 1 = Some [0; 1; 2; 3]) by reflexivity.
  unfold TaskScheduler.schedule_with_backoff. rewrite Hrange. split.
  - intros msg Hfail.
    eapply run_conv; [ | reflexivity | ].
    + eapply (backoff_attempt_retries work 3 1 0);
          [exact Hlive | apply Hfail; lia | lia | reflexivity |].
      eapply (backoff_attempt_retries work 3 1 1);
          [exact Hlive | apply Hfail; lia | lia | reflexivity |].
      eapply (backoff_attempt_retries work 3 1 2);
          [exact Hlive | apply Hfail; lia | lia | reflexivity |].
      apply (backoff_attempt_gives_up work 1 3 [] p (msg 3) Hlive).
      apply Hfail; lia.
    + reflexivity.
  - intros k v Hk Hbefore Hv.
    assert (Hcases : k = 0 \/ k = 1 \/ k = 2 \/ k = 3) by lia.
    destruct Hcases as [-> | [-> | [-> | ->]]].
    + apply (backoff_attempt_returns work 3 1 0 _ p v Hlive Hv).
    + destruct (Hbefore 0 ltac:(lia)) as [e0 He0].
      eapply run_conv; [ | reflexivity | ].
      * eapply (backoff_attempt_retries work 3 1 0);
          [exact Hlive | exact He0 | lia | reflexivity |].
        apply (backoff_attempt_returns work 3 1 1 _ p v Hlive Hv).
      * reflexivity.
    + destruct (Hbefore 0 ltac:(lia)) as [e0 He0].
      destruct (Hbefore 1 ltac:(lia)) as [e1 He1].
      eapply run_conv; [ | reflexivity | ].
      * eapply (backoff_attempt_retries work 3 1 0);
          [exact Hlive | exact He0 | lia | reflexivity |].
        eapply (backoff_attempt_retries work 3 1 1);
          [exact Hlive | exact He1 | lia | reflexivity |].
        apply (backoff_attempt_returns work 3 1 2 _ p v Hlive Hv).
      * reflexivity.
    + destruct (Hbefore 0 ltac:(lia)) as [e0 He0].
      destruct (Hbefore 1 ltac:(lia)) as [e1 He1].
      destruct (Hbefore 2 ltac:(lia)) as [e2 He2].
      eapply run_conv; [ | reflexivity | ].
      * eapply (backoff_attempt_retries work 3 1 0);
          [exact Hlive | exact He0 | lia | reflexivity |].
        eapply (backoff_attempt_retries work 3 1 1);
          [exact Hlive | exact He1 | lia | reflexivity |].
        eapply (backoff_attempt_retries work 3 1 2);
          [exact Hlive | exact He2 | lia | reflexivity |].
        apply (backoff_attempt_returns work 3 1 3 _ p v Hlive Hv).
      * reflexivity.
Qed.

(** The theorem on a unit of work that is always down. *)
Lemma schedule_with_backoff_four_attempts_witness :
  let work := fun _ : Z => @Raises Z "down" in
  TaskScheduler.schedule_with_backoff work 3 1 global_thread_pool
  = (Raised "down", global_thread_pool,
     [EvSubmit (Raises "down"); EvResult (Raises "down"); EvSleep 1;
      EvSubmit (Raises "down"); EvResult (Raises "down"); EvSleep 2;
      EvSubmit (Raises "down"); EvResult (Raises "down"); EvSleep 4;
      EvSubmit (Raises "down"); EvResult (Raises "down")]).
Proof.
  intros work.
  assert (Hlive : live global_thread_pool).
  { exists (mkExecutor 2 false). split; reflexivity. }
  apply (proj1 (schedule_with_backoff_four_attempts Z work global_thread_pool Hlive)
           (fun _ => "down")).
  intros k _. reflexivity.
Defined.

(** ** The sizing step *)

(** A pool of 10 workers within [2, 20] sampled at 90% CPU and 40%
    memory against thresholds of 80: the count goes down to 8 and the
    change is logged; the rebuild of the executor then waits for the lock
    the step itself holds. *)
Example adjust_workers_high_cpu :
  let p := mkPool 2 20 80 80 (Some (mkExecutor 10 false)) 10 false [] [] false in
  _adjust_workers (V:=unit) 90 40 p
  = (Blocked,
     mkPool 2 20 80 80 (Some (mkExecutor 10 false)) 8 true [] [] false,
     [EvLog "INFO" "Reducing workers to 8 due to high resource usage"]).
Proof. reflexivity. Qed.

(** Within the thresholds nothing happens and the lock is released. *)
Example adjust_workers_calm :
  let p := mkPool 2 20 80 80 (Some (mkExecutor 10 false)) 10 false [] [] false in
  _adjust_workers (V:=unit) 60 60 p = (Done tt, p, []).
Proof. reflexivity. Qed.

Section SizingFacts.

Context {V : Type}.

(** The outcomes of one sizing step.  A step that changes the worker
    count goes on to rebuild the executor while it still holds the lock,
    and waits there. *)
Lemma adjust_workers_cases cpu memory (p : DynamicThreadPool) :
  let run := _adjust_workers (V:=V) cpu memory p in
  let p' := snd (fst run) in
  min_workers p' = min_workers p
  /\ max_workers p' = max_workers p
  /\ _task_queue p' = _task_queue p
  /\ ((_current_workers p' = _current_workers p)
      \/ (_lock p = false
          /\ min_workers p < _current_workers p
          /\ _current_workers p' = Z.max (min_workers p) (_current_workers p - 2)
          /\ fst (fst run) = Blocked)
      \/ (_lock p = false
          /\ Z.of_nat (length (_task_queue p)) > _current_workers p
          /\ _current_workers p < max_workers p
          /\ _current_workers p' = Z.min (max_workers p) (_current_workers p + 2)
          /\ fst (fst run) = Blocked)).
Proof.
  unfold _adjust_workers, with_lock.
  destruct (_lock p) eqn:Hlock; [cbn; tauto|].
  unfold mbind, PoolM_bind, get.
  cbn [set_lock min_workers max_workers cpu_threshold memory_threshold
       _current_workers _task_queue].
  destruct (PyNum.gtb cpu (cpu_threshold p) || PyNum.gtb memory (memory_threshold p)).
  - destruct (Z.gtb_spec (_current_workers p) (min_workers p)); cbn; [|tauto].
    repeat split; try reflexivity. right. left. repeat split; try reflexivity; lia.
  - destruct (PrimFloat.ltb cpu (cpu_threshold p * 0.6)
              && PrimFloat.ltb memory (memory_threshold p * 0.6)); cbn [andb];
      [|cbn; tauto].
    destruct (Z.gtb_spec (Z.of_nat (length (_task_queue p))) (_current_workers p));
      [|cbn; tauto].
    destruct (Z.ltb_spec (_current_workers p) (max_workers p)); cbn; [|tauto].
    repeat split; try reflexivity. right. right. repeat split; try reflexivity; lia.
Qed.

End SizingFacts.

Section SizingBounds.

Context {V : Type}.

(** The constructor fails on a [min_workers] that is not positive (the
    executor refuses it), and otherwise leaves a pool of [min_workers]
    workers with an empty queue. *)
Lemma init_run minw maxw cpu_thr mem_thr :
  DynamicThreadPool_init (V:=V) minw maxw cpu_thr mem_thr =
  if Z.leb minw 0
  then (Raised "max_workers must be greater than 0",
        fresh_pool minw maxw cpu_thr mem_thr, [])
  else (Done tt,
        set_executor (Some (mkExecutor minw false))
          (fresh_pool minw maxw cpu_thr mem_thr), []).
Proof.
  unfold DynamicThreadPool_init, _update_executor, with_lock, ThreadPoolExecutor,
    mbind, PoolM_bind, get, fresh_pool.
  cbn [_lock set_lock _current_workers].
  destruct (Z.leb minw 0); reflexivity.
Qed.

Lemma adjust_workers_step cpu memory (p : DynamicThreadPool) :
  in_bounds p ->
  let p' := snd (fst (_adjust_workers (V:=V) cpu memory p)) in
  in_bounds p'
  /\ Z.abs (_current_workers p' - _current_workers p) <= 2
  /\ min_workers p' = min_workers p
  /\ max_workers p' = max_workers p.
Proof.
  intros Hb p'. unfold in_bounds in *.
  destruct (adjust_workers_cases (V:=V) cpu memory p)
    as (Hmin & Hmax & _ & Hcur).
  fold p' in Hmin, Hmax, Hcur. rewrite Hmin, Hmax.
  destruct Hcur as [Hsame | [(_ & Hgt & Hnew & _) | (_ & _ & Hlt & Hnew & _)]];
    rewrite ?Hsame, ?Hnew; lia.
Qed.

Lemma adjust_trace_bounds samples : forall p : DynamicThreadPool,
  in_bounds p ->
  Forall in_bounds (adjust_trace (V:=V) samples p)
  /\ forall k a b,
       (p :: adjust_trace (V:=V) samples p) !! k = Some a ->
       (p :: adjust_trace (V:=V) samples p) !! S k = Some b ->
       Z.abs (_current_workers b - _current_workers a) <= 2
       /\ min_workers b = min_workers a
       /\ max_workers b = max_workers a.
Proof.
  induction samples as [|[cpu memory] samples IH]; intros p Hb.
  - split; [constructor|]. intros k a b _ Hk. destruct k; discriminate.
  - cbn [adjust_trace]. cbv zeta.
    destruct (adjust_workers_step cpu memory p Hb) as (Hb' & Hstep & Hmin & Hmax).
    set (p' := snd (fst (_adjust_workers cpu memory p))) in *.
    destruct (IH p' Hb') as [Hall Hsteps].
    split; [now constructor|].
    intros [|k] a b Ha Hk.
    + cbn in Ha, Hk. injection Ha as <-. injection Hk as <-. auto.
    + apply (Hsteps k a b); assumption.
Qed.

End SizingBounds.

(** C5.  A pool constructed with [min_workers <= max_workers] has its
    worker count within the bounds.  From any pool within the bounds
    (whatever its queue holds), along any run of sizing steps with
    arbitrary samples, the worker count stays within the bounds after
    every step, no step moves it by more than 2, and the bounds
    themselves do not change. *)
Theorem adjust_workers_keeps_bounds :
  forall (V : Type) (minw maxw : Z) (cpu_thr mem_thr : float)
         (p : DynamicThreadPool) (samples : list (float * float)),
    minw <= maxw ->
    in_bounds p ->
    in_bounds (snd (fst (DynamicThreadPool_init (V:=V) minw maxw cpu_thr mem_thr)))
    /\ Forall in_bounds (p :: adjust_trace (V:=V) samples p)
    /\ forall k a b,
         (p :: adjust_trace (V:=V) samples p) !! k = Some a ->
         (p :: adjust_trace (V:=V) samples p) !! S k = Some b ->
         Z.abs (_current_workers b - _current_workers a) <= 2
         /\ min_workers b = min_workers a
         /\ max_workers b = max_workers a.
Proof.
  intros V minw maxw cpu_thr mem_thr p samples Hle Hb.
  split.
  - rewrite init_run. unfold in_bounds, fresh_pool.
    destruct (Z.leb minw 0); cbn; lia.
  - destruct (adjust_trace_bounds (V:=V) samples p Hb) as [Hall Hsteps].
    split; [now constructor | exact Hsteps].
Qed.

(** The theorem on a pool of 10 workers within [2, 20] whose queue holds
    12 entries: high CPU load takes it down to 8, and (on a fresh copy)
    low load with the queue longer than the pool takes it up to 12. *)
Lemma adjust_workers_keeps_bounds_witness :
  let p := mkPool 2 20 80 80 (Some (mkExecutor 10 false)) 10 false
             (repeat tt 12) [] false in
  _current_workers
    <$> (p :: adjust_trace (V:=unit) [(90, 40); (95, 40)]%float p) = [10; 8; 8]
  /\ _current_workers
       <$> (p :: adjust_trace (V:=unit) [(10, 10)]%float p) = [10; 12]
  /\ Forall in_bounds (p :: adjust_trace (V:=unit) [(90, 40); (95, 40)]%float p).
Proof.
  intros p.
  destruct (adjust_workers_keeps_bounds unit 2 20 80 80 p
              [(90, 40); (95, 40)]%float) as (_ & Hall & _).
  - lia.
  - unfold in_bounds. cbn. lia.
  - split; [reflexivity|]. split; [reflexivity | exact Hall].
Defined.

(** ** The queue stays empty and the pool stays at its minimum *)

Section KeepsIdle.

Context {V : Type}.

Lemma keeps_ret {A} (a : A) : keeps_idle (V:=V) (mret a).
Proof. intros minw p H. exact H. Qed.

Lemma keeps_raise {A} e : keeps_idle (V:=V) (raise (A:=A) e).
Proof. intros minw p H. exact H. Qed.

Lemma keeps_emit ev : keeps_idle (V:=V) (emit ev).
Proof. intros minw p H. exact H. Qed.

Lemma keeps_bind {A B} (m : PoolM (V:=V) A) (f : A -> PoolM B) :
  keeps_idle m -> (forall a, keeps_idle (f a)) -> keeps_idle (m ≫= f).
Proof.
  intros Hm Hf minw p H. unfold mbind, PoolM_bind.
  specialize (Hm minw p H).
  destruct (m p) as [[[a|e|] p1] ev1]; cbn [fst snd] in Hm |- *; try exact Hm.
  specialize (Hf a minw p1 Hm).
  now destruct (f a p1) as [[r p2] ev2].
Qed.

(** Binding the current state: the continuation may use what is known
    of it. *)
Lemma keeps_get_bind {B} (f : DynamicThreadPool -> PoolM (V:=V) B) :
  (forall minw p, idle_at minw p -> idle_at minw (snd (fst (f p p)))) ->
  keeps_idle (get ≫= f).
Proof.
  intros Hf minw p H. unfold mbind, PoolM_bind, get.
  specialize (Hf minw p H). now destruct (f p p) as [[r p2] ev2].
Qed.

Lemma keeps_try {A} (m : PoolM (V:=V) A) h :
  keeps_idle m -> (forall e, keeps_idle (h e)) -> keeps_idle (try_except m h).
Proof.
  intros Hm Hh minw p H. unfold try_except.
  specialize (Hm minw p H).
  destruct (m p) as [[[a|e|] p1] ev1]; cbn [fst snd] in Hm |- *; try exact Hm.
  specialize (Hh e minw p1 Hm).
  now destruct (h e p1) as [[r p2] ev2].
Qed.

Lemma idle_at_set_lock minw b p : idle_at minw (set_lock b p) <-> idle_at minw p.
Proof. reflexivity. Qed.

Lemma keeps_with_lock {A} (m : PoolM (V:=V) A) :
  keeps_idle m -> keeps_idle (with_lock m).
Proof.
  intros Hm minw p H. unfold with_lock.
  destruct (_lock p); [exact H|].
  specialize (Hm minw (set_lock true p) H).
  destruct (m (set_lock true p)) as [[[a|e|] p1] ev1]; exact Hm.
Qed.

Lemma keeps_modify f :
  (forall minw p, idle_at minw p -> idle_at minw (f p)) ->
  keeps_idle (V:=V) (modify f).
Proof. intros Hf minw p H. now apply Hf. Qed.

Lemma keeps_get : keeps_idle (V:=V) get.
Proof. intros minw p H. exact H. Qed.

Lemma keeps_set_executor e : keeps_idle (V:=V) (modify (set_executor e)).
Proof. apply keeps_modify. intros ? ? H. exact H. Qed.

Lemma keeps_set_stop_event b : keeps_idle (V:=V) (modify (set_stop_event b)).
Proof. apply keeps_modify. intros ? ? H. exact H. Qed.

Lemma keeps_set_metrics_history h :
  keeps_idle (V:=V) (modify (set_metrics_history h)).
Proof. apply keeps_modify. intros ? ? H. exact H. Qed.

Create HintDb idle discriminated.
#[local] Hint Resolve keeps_ret keeps_raise keeps_emit keeps_get
  keeps_set_executor keeps_set_stop_event keeps_set_metrics_history : idle.
#[local] Hint Extern 2 (keeps_idle (mbind _ _)) =>
  apply keeps_bind; [ | intro ] : idle.
#[local] Hint Extern 2 (keeps_idle (try_except _ _)) =>
  apply keeps_try; [ | intro ] : idle.
#[local] Hint Extern 3 (keeps_idle (match ?x with _ => _ end)) =>
  destruct x : idle.

Ltac keeps := auto 12 with idle.

Lemma keeps_update_executor : keeps_idle (V:=V) _update_executor.
Proof.
  apply keeps_with_lock. unfold ThreadPoolExecutor. keeps.
Qed.

(** With nothing queued and the pool at its minimum neither branch of
    the sizing step applies. *)
Lemma keeps_adjust_workers cpu memory :
  keeps_idle (V:=V) (_adjust_workers cpu memory).
Proof.
  apply keeps_with_lock, keeps_get_bind. intros minw p (Hq & Hc & Hm & Hpos).
  assert (Hp : idle_at minw p) by (repeat split; assumption).
  rewrite Hq, Hc, Hm. cbn [length Z.of_nat].
  change (Z.of_nat 0) with 0.
  rewrite (Z.gtb_ltb minw minw), Z.ltb_irrefl, (Z.gtb_ltb 0 minw),
    (proj2 (Z.ltb_ge minw 0)) by lia.
  rewrite andb_false_r.
  destruct (_ || _); exact Hp.
Qed.

Lemma keeps_ensure_executor : keeps_idle (V:=V) ensure_executor.
Proof. unfold ensure_executor. pose proof keeps_update_executor. keeps. Qed.

Lemma keeps_executor_submit {A} e (func : A -> Outcome V) args :
  keeps_idle (executor_submit e func args).
Proof. unfold executor_submit. keeps. Qed.

Lemma keeps_submit {A} (func : A -> Outcome V) args :
  keeps_idle (submit func args).
Proof.
  unfold submit.
  pose proof keeps_ensure_executor. pose proof (@keeps_executor_submit A). keeps.
Qed.

Lemma keeps_future_result (f : Future V) : keeps_idle (future_result f).
Proof. unfold future_result. keeps. Qed.

Lemma keeps_submit_all {A} e (func : A -> Outcome V) items :
  keeps_idle (submit_all e func items).
Proof.
  induction items as [|x items IH]; [apply keeps_ret|].
  cbn [submit_all]. apply keeps_bind; [apply keeps_executor_submit|]. intros f.
  apply keeps_bind; [exact IH | intros fs; apply keeps_ret].
Qed.

Lemma keeps_collect label (futures : list (Future V)) :
  keeps_idle (collect label futures).
Proof.
  induction futures as [|f futures IH]; [apply keeps_ret|].
  cbn [collect]. apply keeps_bind.
  - apply keeps_try.
    + apply keeps_bind; [apply keeps_future_result | intros v; apply keeps_ret].
    + intros e. apply keeps_bind; [apply keeps_emit | intros _; apply keeps_ret].
  - intros slot. apply keeps_bind; [exact IH | intros slots; apply keeps_ret].
Qed.

Lemma keeps_map {A} (func : A -> Outcome V) items order :
  keeps_idle (map func items order).
Proof.
  unfold map. apply keeps_bind; [apply keeps_ensure_executor|]. intros e.
  apply keeps_bind; [apply keeps_submit_all | intros fs; apply keeps_collect].
Qed.

Lemma keeps_time_sleep d : keeps_idle (V:=V) (time_sleep d).
Proof. unfold time_sleep. destruct (PyNum.sleep_error d); keeps. Qed.

Lemma keeps_shutdown wait : keeps_idle (V:=V) (shutdown wait).
Proof. unfold shutdown. keeps. Qed.

Lemma keeps_resource_monitor_turn sample :
  keeps_idle (V:=V) (_resource_monitor_turn sample).
Proof.
  unfold _resource_monitor_turn. apply keeps_try.
  - destruct sample as [[[[cpu memory] active] now]|e]; [|apply keeps_raise].
    apply keeps_bind; [intros ? ? H; exact H|]. intros p.
    apply keeps_bind; [|intros _; apply keeps_adjust_workers].
    apply keeps_modify. intros ? ? H. exact H.
  - intros e. apply keeps_emit.
Qed.

Lemma keeps_backoff_loop (work : Z -> Outcome V) max_retries backoff_factor attempts :
  keeps_idle (TaskScheduler.backoff_loop work max_retries backoff_factor attempts).
Proof.
  induction attempts as [|attempt rest IH]; [apply keeps_ret|].
  cbn [TaskScheduler.backoff_loop]. apply keeps_bind.
  - apply keeps_try.
    + apply keeps_bind; [apply keeps_submit|]. intros f.
      apply keeps_bind; [apply keeps_future_result | intros v; apply keeps_ret].
    + intros e. apply keeps_bind; [|intros _; apply keeps_ret].
      destruct (Z.eqb attempt max_retries); [apply keeps_raise | apply keeps_time_sleep].
  - intros [v|]; [apply keeps_ret | exact IH].
Qed.

Lemma keeps_schedule_with_backoff (work : Z -> Outcome V) max_retries backoff_factor :
  keeps_idle (TaskScheduler.schedule_with_backoff work max_retries backoff_factor).
Proof.
  unfold TaskScheduler.schedule_with_backoff.
  destruct (PyNum.range _ _ _); [apply keeps_backoff_loop | apply keeps_raise].
Qed.

Lemma keeps_submit_batch {A} (batch : list ((A -> Outcome V) * A)) :
  keeps_idle (TaskScheduler.submit_batch batch).
Proof.
  induction batch as [|[func args] batch IH]; [apply keeps_ret|].
  cbn [TaskScheduler.submit_batch]. apply keeps_bind; [apply keeps_submit|].
  intros f. apply keeps_bind; [exact IH | intros fs; apply keeps_ret].
Qed.

Lemma keeps_batch_loop {A} (tasks : list ((A -> Outcome V) * A)) mc starts :
  keeps_idle (TaskScheduler.batch_loop tasks mc starts).
Proof.
  induction starts as [|i starts IH]; [apply keeps_ret|].
  cbn [TaskScheduler.batch_loop]. cbv zeta.
  apply keeps_bind; [apply keeps_submit_batch|]. intros fs.
  apply keeps_bind; [apply keeps_collect|]. intros slots.
  apply keeps_bind; [exact IH | intros more; apply keeps_ret].
Qed.

Lemma keeps_schedule_batch {A} (tasks : list ((A -> Outcome V) * A)) mc :
  keeps_idle (TaskScheduler.schedule_batch tasks mc).
Proof.
  unfold TaskScheduler.schedule_batch.
  apply keeps_bind; [intros ? ? H; exact H|]. intros p. cbv zeta.
  destruct (PyNum.range _ _ _); [apply keeps_batch_loop | apply keeps_raise].
Qed.

Lemma after_call_idle {A} (c : PoolCall A V) minw p :
  idle_at minw p -> idle_at minw (after_call c p).
Proof.
  intros H. destruct c; cbn [after_call].
  - now apply keeps_submit.
  - now apply keeps_map.
  - now apply keeps_schedule_with_backoff.
  - now apply keeps_schedule_batch.
  - exact H.
  - now apply keeps_shutdown.
  - now apply keeps_resource_monitor_turn.
Qed.

Lemma after_calls_idle {A} (cs : list (PoolCall A V)) : forall minw p,
  idle_at minw p -> idle_at minw (after_calls cs p).
Proof.
  induction cs as [|c cs IH]; intros minw p H; [exact H|].
  cbn [after_calls fold_left]. apply IH. now apply after_call_idle.
Qed.

End KeepsIdle.

(** C10.  Take a pool as its constructor returned it, and any history of
    public calls ([submit], [map], [schedule_with_backoff],
    [schedule_batch], [get_worker_count], [shutdown]) and monitor turns
    with arbitrary samples.  Afterwards the task queue is still empty,
    so the test of the grow branch (queue size greater than the worker
    count) is false, and the worker count is still [min_workers], the
    value it started with; a further sizing step leaves it there. *)
Theorem queue_stays_empty_pool_never_grows :
  forall (A V : Type) (minw maxw : Z) (cpu_thr mem_thr : float)
         (p0 : DynamicThreadPool) (ev : list (Event V))
         (calls : list (PoolCall A V)),
    DynamicThreadPool_init (V:=V) minw maxw cpu_thr mem_thr = (Done tt, p0, ev) ->
    let p := after_calls calls p0 in
    _task_queue p = []
    /\ Z.gtb (Z.of_nat (length (_task_queue p))) (_current_workers p) = false
    /\ _current_workers p0 = minw
    /\ _current_workers p = minw
    /\ min_workers p = minw
    /\ forall cpu memory,
         _current_workers (snd (fst (_adjust_workers (V:=V) cpu memory p))) = minw.
Proof.
  intros A V minw maxw cpu_thr mem_thr p0 ev calls Hinit p.
  rewrite init_run in Hinit.
  destruct (Z.leb_spec minw 0) as [Hle|Hpos]; [discriminate|].
  injection Hinit as <- _.
  assert (H0 : idle_at minw
                 (set_executor (Some (mkExecutor minw false))
                    (fresh_pool minw maxw cpu_thr mem_thr))).
  { repeat split. exact Hpos. }
  assert (Hp : idle_at minw p) by (subst p; now apply after_calls_idle).
  destruct Hp as (Hq & Hc & Hm & _).
  split; [exact Hq|]. split.
  { rewrite Hq, Hc. cbn [length Z.of_nat]. rewrite Z.gtb_ltb. apply Z.ltb_ge. lia. }
  split; [reflexivity|]. split; [exact Hc|]. split; [exact Hm|].
  intros cpu memory.
  apply (keeps_adjust_workers (V:=V) cpu memory minw p).
  repeat split; assumption.
Qed.

(** The theorem on the module's own pool, after a submission, a monitor
    turn on an idle machine, a batch and a turn under load. *)
Lemma queue_stays_empty_pool_never_grows_witness :
  let func := fun x : Z => if Z.eqb x 3 then Raises "boom" else Returns (10 * x) in
  let calls :=
    [CallSubmit func 1;
     MonitorTurn (inl (5%float, 10%float, 4, 1000%float));
     CallBatch ((fun x => (func, x)) <$> [1; 2; 3]) None;
     MonitorTurn (inl (99%float, 99%float, 4, 1002%float))] in
  let p := after_calls calls
             (snd (fst (DynamicThreadPool_init (V:=Z) 2 15 85 85))) in
  _task_queue p = [] /\ _current_workers p = 2.
Proof.
  intros func calls p.
  destruct (queue_stays_empty_pool_never_grows Z Z 2 15 85 85
              (snd (fst (DynamicThreadPool_init (V:=Z) 2 15 85 85))) []
              calls eq_refl)
    as (Hq & _ & _ & Hc & _).
  split; [exact Hq | exact Hc].
Defined.

(* ================================================================== *)
(** * Part III: further properties of the two modules                  *)
(* ================================================================== *)

(** ** More order facts on binary64 values *)

Section FloatOrderMore.

(** The comparison of two finite values of one sign: by exponent, then
    by mantissa. *)
Lemma SFcompare_finite_pos m1 e1 m2 e2 :
  SFcompare (S754_finite false m1 e1) (S754_finite false m2 e2)
  = Some (match Z.compare e1 e2 with
          | Lt => Lt | Gt => Gt | Eq => Pos.compare m1 m2
          end).
Proof. reflexivity. Qed.

Lemma SFcompare_finite_neg m1 e1 m2 e2 :
  SFcompare (S754_finite true m1 e1) (S754_finite true m2 e2)
  = Some (match Z.compare e1 e2 with
          | Lt => Gt | Gt => Lt | Eq => CompOpp (Pos.compare m1 m2)
          end).
Proof. reflexivity. Qed.

(** [a < b] and [b <= c] give [a < c]; [a <= b] and [b <= c] give
    [a <= c]. *)
Lemma SFcompare_trans (a b c : spec_float) (strict : bool) :
  SFcompare a b = Some Lt \/ (strict = false /\ SFcompare a b = Some Eq) ->
  SFcompare b c = Some Lt \/ SFcompare b c = Some Eq ->
  SFcompare a c = Some Lt \/ (strict = false /\ SFcompare a c = Some Eq).
Proof.
  destruct a as [sa|sa| |sa ma ea], b as [sb|sb| |sb mb eb],
           c as [sc|sc| |sc mc ec];
    try (intros [H|[_ H]] [H'|H']; discriminate);
    try destruct sa; try destruct sb; try destruct sc;
    try (intros [H|[? H]] [H'|H']; cbn in H, H' |- *;
         first [discriminate | now left | now right | tauto]).
  all: rewrite ?SFcompare_finite_pos, ?SFcompare_finite_neg.
  all: intros H H';
    destruct (Z.compare_spec ea eb), (Z.compare_spec eb ec),
             (Z.compare_spec ea ec); try lia;
    destruct (Pos.compare_spec ma mb), (Pos.compare_spec mb mc),
             (Pos.compare_spec ma mc); try lia;
    cbn in H, H' |- *;
    first [now left | tauto
          | destruct H as [H|[? H]]; discriminate
          | destruct H' as [H'|H']; discriminate ].
Qed.

Lemma float_ltb_leb_trans (a b c : float) :
  PrimFloat.ltb a b = true -> PrimFloat.leb b c = true -> PrimFloat.ltb a c = true.
Proof.
  rewrite !ltb_spec, leb_spec, !SFltb_Lt, SFleb_LtEq. intros Hab Hbc.
  destruct (SFcompare_trans _ _ _ true (or_introl Hab) Hbc) as [H|[H _]];
    [exact H | discriminate].
Qed.

Lemma float_leb_trans (a b c : float) :
  PrimFloat.leb a b = true -> PrimFloat.leb b c = true -> PrimFloat.leb a c = true.
Proof.
  rewrite !leb_spec, !SFleb_LtEq. intros Hab Hbc.
  assert (Hab' : SFcompare (Prim2SF a) (Prim2SF b) = Some Lt
                 \/ (false = false /\ SFcompare (Prim2SF a) (Prim2SF b) = Some Eq))
    by tauto.
  destruct (SFcompare_trans _ _ _ false Hab' Hbc) as [H|[_ H]]; tauto.
Qed.

(** Two values that are not NaN (each compares [<=] to itself) are
    comparable. *)
Lemma float_leb_total (a b : float) :
  PrimFloat.leb a a = true -> PrimFloat.leb b b = true ->
  PrimFloat.leb a b = false -> PrimFloat.ltb b a = true.
Proof.
  rewrite !leb_spec, ltb_spec. unfold SFleb, SFltb.
  rewrite (SFcompare_swap (Prim2SF a) (Prim2SF b)).
  destruct (Prim2SF a) as [sa|sa| |sa ma ea], (Prim2SF b) as [sb|sb| |sb mb eb];
    cbn; try discriminate; try (destruct sa; discriminate);
    try (destruct sb; discriminate);
    try (destruct sa, sb; cbn; congruence).
  destruct sa, sb; cbn; try congruence;
    destruct (ea ?= eb)%Z; cbn; try congruence;
    destruct (Pos.compare_cont Eq ma mb); cbn; congruence.
Qed.

End FloatOrderMore.

(** ** RateLimiter: ordered windows, capacity, scopes *)

Section OrderedWindows.

Lemma filter_all_true {A} (f : A -> bool) l :
  Forall (fun x => f x = true) l -> List.filter f l = l.
Proof.
  induction 1 as [|x l Hx _ IH]; [reflexivity|]. cbn. now rewrite Hx, IH.
Qed.

Lemma ordered_window_tail t q : ordered_window (t :: q) -> ordered_window q.
Proof.
  intros [Hs Hn]. split; [now apply StronglySorted_inv in Hs | now inversion Hn].
Qed.

(** On an ordered window the eviction loop drops exactly what the brute
    force filter drops. *)
Lemma evict_ordered th q :
  ordered_window q ->
  PrimFloat.leb th th = true ->
  evict th q = List.filter (fun t => PrimFloat.ltb th t) q.
Proof.
  intros Hq Hth. induction q as [|t q IH]; [reflexivity|].
  cbn [evict List.filter].
  destruct (PrimFloat.leb t th) eqn:Hle.
  - rewrite (float_leb_not_gtb _ _ Hle). apply IH. now apply ordered_window_tail in Hq.
  - destruct Hq as [Hs Hn].
    assert (Ht : PrimFloat.ltb th t = true).
    { apply float_leb_total; [now inversion Hn | exact Hth | exact Hle]. }
    rewrite Ht. f_equal. symmetry. apply filter_all_true.
    apply StronglySorted_inv in Hs as [_ Hall].
    eapply Forall_impl; [exact Hall|]. intros t' Htt'. cbn beta in Htt'.
    now apply (float_ltb_leb_trans th t t').
Qed.

Lemma evict_suffix th q : exists stale, q = stale ++ evict th q.
Proof. destruct (evict_split th q) as (stale & H & _). now exists stale. Qed.

Lemma ordered_window_suffix stale q :
  ordered_window (stale ++ q) -> ordered_window q.
Proof.
  induction stale as [|t stale IH]; [trivial|].
  intros H. apply IH. now apply ordered_window_tail in H.
Qed.

(** Appending a timestamp that is not before the last one keeps the
    window ordered. *)
Lemma ordered_window_snoc q now :
  ordered_window q ->
  PrimFloat.leb now now = true ->
  (forall t, last q = Some t -> PrimFloat.leb t now = true) ->
  ordered_window (q ++ [now]).
Proof.
  intros Hq Hnow Hlast. induction q as [|t q IH].
  - split; repeat constructor. exact Hnow.
  - destruct Hq as [Hs Hn]. inversion Hn as [|? ? Ht Hn']; subst.
    apply StronglySorted_inv in Hs as [Hs Hall].
    destruct IH as [IHs IHn]; [now split | |].
    { intros t' Ht'. apply Hlast. destruct q; [discriminate | exact Ht']. }
    assert (Htnow : PrimFloat.leb t now = true).
    { destruct q as [|t1 q'].
      - now apply Hlast.
      - destruct (last (t1 :: q')) as [l|] eqn:Hl.
        2:{ apply last_None in Hl. discriminate. }
        assert (Hin : l ∈ t1 :: q') by (apply last_Some_elem_of; exact Hl).
        rewrite Forall_forall in Hall.
        apply (float_leb_trans t l now).
        + apply Hall. exact Hin.
        + apply Hlast. cbn [last] in Hl |- *. exact Hl. }
    split.
    + cbn. constructor; [exact IHs|]. apply Forall_app. split; [exact Hall|].
      now constructor.
    + cbn. now constructor.
Qed.

End OrderedWindows.

(** X1.  On a window in time order, at a clock value that is a number,
    [can_make_request] leaves in the window exactly the timestamps the
    brute-force filter [timestamp > now - time_window] keeps, answers
    whether their number is below [max_requests], and leaves the window
    in time order. *)
Theorem can_make_request_matches_brute_force :
  forall (self : RateLimiter) (host : option string) (w : World),
    let now := clock w (ticks w) in
    ordered_window (scope_window self host) ->
    PrimFloat.leb (now - time_window self) (now - time_window self) = true ->
    let r := can_make_request self host w in
    scope_window (snd (fst r)) host = brute_force_window self host now
    /\ fst (fst r)
       = Z.ltb (Z.of_nat (length (brute_force_window self host now)))
               (max_requests self)
    /\ ordered_window (scope_window (snd (fst r)) host).
Proof.
  intros self host w now Hord Hth r. subst r. rewrite can_make_request_run.
  cbv zeta. cbn [fst snd]. fold now. rewrite scope_window_set.
  assert (Hev : evict (now - time_window self)%float (scope_window self host)
                = brute_force_window self host now).
  { unfold brute_force_window. rewrite (evict_ordered _ _ Hord Hth). reflexivity. }
  rewrite <- Hev. split; [reflexivity|]. split; [reflexivity|].
  destruct (evict_suffix (now - time_window self)%float (scope_window self host))
    as [stale Hs].
  rewrite Hs in Hord. now apply ordered_window_suffix in Hord.
Qed.

Lemma can_make_request_matches_brute_force_witness :
  let self := mkRateLimiter 3 1 (HostWindows {[ "h" := [1; 9.5; 9.75]%float ]}) in
  let w := mkWorld (fun _ => 10%float) 0 (fun _ _ _ => 0%float) 0 [] in
  scope_window (snd (fst (can_make_request self (Some "h") w))) (Some "h")
  = [9.5; 9.75]%float
  /\ fst (fst (can_make_request self (Some "h") w)) = true.
Proof.
  intros self w.
  destruct (can_make_request_matches_brute_force self (Some "h") w)
    as (Hwin & Hans & _).
  - split; [repeat constructor | repeat constructor].
  - reflexivity.
  - rewrite Hwin, Hans. split; reflexivity.
Defined.

(** X2.  [record_request] appends the clock value it reads to the
    scope's window and changes nothing else of it; if the window was in
    time order and the clock has not gone back behind its last entry,
    the window is still in time order. *)
Theorem record_request_keeps_order :
  forall (self : RateLimiter) (host : option string) (w : World),
    let now := clock w (ticks w) in
    ordered_window (scope_window self host) ->
    PrimFloat.leb now now = true ->
    (forall t, last (scope_window self host) = Some t ->
               PrimFloat.leb t now = true) ->
    let self' := fst (record_request self host w) in
    scope_window self' host = scope_window self host ++ [now]
    /\ ordered_window (scope_window self' host)
    /\ max_requests self' = max_requests self
    /\ time_window self' = time_window self.
Proof.
  intros self host w now Hord Hnow Hlast self'. subst self'.
  unfold record_request, mbind, Py_bind, mret, Py_ret, time_time. cbn [fst].
  rewrite scope_window_set, max_requests_set, time_window_set. fold now.
  split; [reflexivity|].
  split; [now apply ordered_window_snoc | split; reflexivity].
Qed.

Lemma record_request_keeps_order_witness :
  let self := mkRateLimiter 3 1 (GlobalWindow [9.5; 9.75]%float) in
  let w := mkWorld (fun _ => 10%float) 0 (fun _ _ _ => 0%float) 0 [] in
  scope_window (fst (record_request self None w)) None = [9.5; 9.75; 10]%float
  /\ ordered_window (scope_window (fst (record_request self None w)) None).
Proof.
  intros self w.
  destruct (record_request_keeps_order self None w) as (Hwin & Hord & _).
  - split; repeat constructor.
  - reflexivity.
  - intros t Ht. cbn in Ht. injection Ht as <-. reflexivity.
  - split; [rewrite Hwin; reflexivity | exact Hord].
Defined.

Section WaitFacts.

Lemma evict_length th q : (length (evict th q) <= length q)%nat.
Proof.
  induction q as [|t q IH]; [reflexivity|]. cbn [evict].
  destruct (PrimFloat.leb t th); cbn; lia.
Qed.



End WaitFacts.



(** X4.  If a scope's window has room for [k] more entries (counting the
    stale ones it still holds), the next [k] calls of [wait_if_needed]
    all return [0.0] and none of them sleeps, whatever the clock does. *)
Theorem wait_burst_within_capacity :
  forall (k : nat) (self : RateLimiter) (host : option string) (w : World),
    Z.of_nat (length (scope_window self host)) + Z.of_nat k <= max_requests self ->
    let r := wait_burst k self host w in
    fst (fst r) = Ok (repeat 0%float k)
    /\ sleeps (snd r) = sleeps w
    /\ (length (scope_window (snd (fst r)) host)
        <= length (scope_window self host) + k)%nat
    /\ max_requests (snd (fst r)) = max_requests self.
Proof.
  induction k as [|k IH]; intros self host w Hroom r.
  - subst r. cbn. repeat split; lia.
  - subst r. rewrite wait_burst_step. cbv zeta.
    set (kept := evict (clock w (ticks w) - time_window self)%float
                       (scope_window self host)).
    pose proof (evict_length (clock w (ticks w) - time_window self)%float
                  (scope_window self host)) as Hlen. fold kept in Hlen.
    rewrite (wait_if_needed_free self host w kept eq_refl)
      by (apply Z.ltb_lt; lia).
    cbn [fst snd].
    set (self1 := set_scope_window self host _).
    set (w1 := mkWorld _ _ _ _ _).
    assert (Hwin1 : scope_window self1 host = kept ++ [clock w (ticks w + 1)%nat])
      by apply scope_window_set.
    assert (Hmax1 : max_requests self1 = max_requests self)
      by apply max_requests_set.
    destruct (IH self1 host w1) as (Hres & Hsl & Hl & Hm).
    { rewrite Hwin1, Hmax1, length_app. cbn [length]. lia. }
    rewrite Hres, Hsl, Hm. rewrite Hwin1, length_app in Hl. cbn [length] in Hl.
    repeat split; try reflexivity; try assumption. lia.
Qed.

(** The theorem on a fresh limiter of rate 50, ten calls on a clock that
    stands still. *)
Lemma wait_burst_within_capacity_witness :
  let w := mkWorld (fun _ => 10%float) 0 (fun _ _ _ => 0%float) 0 [] in
  let r := wait_burst 10 (RateLimiter_init 50 1 false) (Some "h") w in
  fst (fst r) = Ok (repeat 0%float 10) /\ sleeps (snd r) = [].
Proof.
  intros w r.
  destruct (wait_burst_within_capacity 10 (RateLimiter_init 50 1 false)
              (Some "h") w) as (Hres & Hsl & _).
  - rewrite scope_window_init. cbn. lia.
  - split; [exact Hres | exact Hsl].
Defined.

Section Scopes.

Lemma scope_window_same self a b :
  same_scope self a b -> scope_window self a = scope_window self b.
Proof.
  unfold same_scope, global_limit, scope_window.
  destruct (requests self); intros [H|H]; try reflexivity; try discriminate.
  now rewrite H.
Qed.

Lemma set_scope_window_same self a b q :
  same_scope self a b -> set_scope_window self a q = set_scope_window self b q.
Proof.
  unfold same_scope, global_limit, set_scope_window.
  destruct (requests self); intros [H|H]; try reflexivity; try discriminate.
  now rewrite H.
Qed.

Lemma scope_window_set_other self a b q :
  global_limit self = false -> scope_key a <> scope_key b ->
  scope_window (set_scope_window self a q) b = scope_window self b.
Proof.
  unfold global_limit, scope_window, set_scope_window.
  destruct (requests self); [discriminate|]. intros _ Hne. cbn.
  now rewrite lookup_insert_ne.
Qed.

End Scopes.

(** X5.  In the per-host mode a call for one host leaves the window of
    every host with another key as it was, for all three operations.
    Hosts with the same key (no host, the empty string and ["default"]
    all have the key ["default"]) share one window, and in the global
    mode every host does: the calls then do the same whichever host is
    named. *)
Theorem scopes_are_separate :
  forall (self : RateLimiter) (a b : option string) (w : World),
    (global_limit self = false -> scope_key a <> scope_key b ->
       scope_window (snd (fst (can_make_request self a w))) b = scope_window self b
       /\ scope_window (fst (record_request self a w)) b = scope_window self b
       /\ scope_window (snd (fst (wait_if_needed self a w))) b = scope_window self b)
    /\ (same_scope self a b ->
          can_make_request self a w = can_make_request self b w
          /\ record_request self a w = record_request self b w
          /\ wait_if_needed self a w = wait_if_needed self b w)
    /\ same_scope self None (Some "")
    /\ same_scope self None (Some "default").
Proof.
  intros self a b w. split; [|split; [|split; right; reflexivity]].
  - intros Hmode Hne. split; [|split].
    + rewrite can_make_request_run. cbv zeta. cbn [fst snd].
      now apply scope_window_set_other.
    + unfold record_request, mbind, Py_bind, mret, Py_ret, time_time. cbn [fst].
      now apply scope_window_set_other.
    + wait_cases; now apply scope_window_set_other.
  - intros Hsame. split; [|split].
    + rewrite !can_make_request_run. cbv zeta.
      rewrite (scope_window_same self a b Hsame).
      now rewrite (set_scope_window_same self a b _ Hsame).
    + unfold record_request, mbind, Py_bind, mret, Py_ret, time_time.
      rewrite (scope_window_same self a b Hsame).
      now rewrite (set_scope_window_same self a b _ Hsame).
    + rewrite !wait_if_needed_run. cbv zeta.
      rewrite (scope_window_same self a b Hsame).
      now rewrite !(fun q => set_scope_window_same self a b q Hsame).
Qed.

(** The theorem on two hosts of a per-host limiter, and on the host
    names that fall together. *)
Lemma scopes_are_separate_witness :
  let self := mkRateLimiter 3 1 (HostWindows {[ "b" := [9.5]%float ]}) in
  let w := mkWorld (fun _ => 10%float) 0 (fun _ _ _ => 0%float) 0 [] in
  scope_window (snd (fst (wait_if_needed self (Some "a") w))) (Some "b")
  = [9.5]%float
  /\ wait_if_needed self None w = wait_if_needed self (Some "default") w.
Proof.
  intros self w.
  destruct (scopes_are_separate self (Some "a") (Some "b") w) as (Hsep & _).
  destruct (Hsep eq_refl) as (_ & _ & Hwait); [discriminate|].
  destruct (scopes_are_separate self None (Some "default") w)
    as (_ & Hsame & _ & Hdefault).
  destruct (Hsame Hdefault) as (_ & _ & Heq).
  split; [rewrite Hwait; reflexivity | exact Heq].
Defined.

(** ** AdaptiveRateLimiter: limiters and rates *)

Section ControllerFacts.

Lemma get_limiter_known self host l :
  limiters self !! host = Some l -> get_limiter self host = (l, self).
Proof. intros H. unfold get_limiter. now rewrite H. Qed.

Lemma get_limiter_new self host :
  limiters self !! host = None ->
  get_limiter self host
  = (RateLimiter_init (current_rate self) 1 false,
     put_limiter self host (RateLimiter_init (current_rate self) 1 false)).
Proof. intros H. unfold get_limiter. now rewrite H. Qed.

(** After [get_limiter] the controller holds the limiter it returned. *)
Lemma get_limiter_holds self host :
  limiters (snd (get_limiter self host)) !! host = Some (fst (get_limiter self host))
  /\ current_rate (snd (get_limiter self host)) = current_rate self
  /\ forall other, other <> host ->
       limiters (snd (get_limiter self host)) !! other = limiters self !! other.
Proof.
  destruct (limiters self !! host) as [l|] eqn:H.
  - rewrite (get_limiter_known self host l H). cbn. auto.
  - rewrite (get_limiter_new self host H). cbn. rewrite lookup_insert_eq.
    repeat split. intros other Hne. now rewrite lookup_insert_ne.
Qed.

Lemma get_limiter_in_step self host :
  limiters_in_step self ->
  limiters_in_step (snd (get_limiter self host))
  /\ max_requests (fst (get_limiter self host)) = current_rate self.
Proof.
  intros Hstep. destruct (limiters self !! host) as [l|] eqn:H.
  - rewrite (get_limiter_known self host l H). cbn. split; [exact Hstep|].
    now apply (Hstep host).
  - rewrite (get_limiter_new self host H). cbn. split; [|reflexivity].
    intros h l'. cbn. destruct (decide (host = h)) as [->|Hne].
    + rewrite lookup_insert_eq. now intros [= <-].
    + rewrite lookup_insert_ne by exact Hne. apply Hstep.
Qed.

Lemma wait_if_needed_max_requests self host w :
  max_requests (snd (fst (wait_if_needed self host w))) = max_requests self.
Proof.
  wait_cases; apply max_requests_set.
Qed.

Lemma rollover_in_step self now self' :
  rollover self now = Some self' -> limiters_in_step self'.
Proof.
  unfold rollover. destruct (window_success_rate self) as [rate|]; [|discriminate].
  cbn [mbind option_bind].
  destruct (adjusted_rate self rate) as [new|]; [|discriminate].
  cbn [mbind option_bind]. intros [= <-] host l. cbn.
  rewrite lookup_fmap. destruct (limiters self !! host); [|discriminate].
  cbn. now intros [= <-].
Qed.

End ControllerFacts.

(** X6.  Every limiter the controller holds enforces the controller's
    current rate: this holds for a new controller and is kept by
    [get_limiter] (a limiter made for a new host starts at the current
    rate), by the controller's [wait_if_needed] and by [report_result];
    a report that completes the window establishes it whatever the
    limiters held before. *)
Theorem limiters_follow_current_rate :
  forall (self : AdaptiveRateLimiter) (host : string) (success : bool)
         (w : World),
    (forall initial lo hi,
       limiters_in_step (fst (AdaptiveRateLimiter_init initial lo hi w)))
    /\ (limiters_in_step self ->
          limiters_in_step (snd (get_limiter self host))
          /\ max_requests (fst (get_limiter self host)) = current_rate self)
    /\ (limiters_in_step self ->
          limiters_in_step
            (snd (fst (AdaptiveRateLimiter_wait_if_needed self host w))))
    /\ (forall self',
          fst (report_result self host success w) = Some self' ->
          limiters_in_step self
          \/ window_elapsed self (clock w (ticks w)) = true ->
          limiters_in_step self').
Proof.
  intros self host success w. split; [|split; [|split]].
  - intros initial lo hi h l.
    unfold AdaptiveRateLimiter_init, mbind, Py_bind, mret, Py_ret, time_time.
    cbn [fst limiters]. intros H. simplify_map_eq.
  - apply get_limiter_in_step.
  - intros Hstep. unfold AdaptiveRateLimiter_wait_if_needed.
    destruct (get_limiter_in_step self host Hstep) as [Hstep' Hmax].
    destruct (get_limiter_holds self host) as (_ & Hrate & _).
    destruct (get_limiter self host) as [limiter self1]. cbn [fst snd] in *.
    unfold mbind, Py_bind, mret, Py_ret.
    pose proof (wait_if_needed_max_requests limiter (Some host) w) as Hkeep.
    destruct (wait_if_needed limiter (Some host) w) as [[waited limiter'] w'].
    cbn [fst snd] in *. intros h l. cbn.
    destruct (decide (host = h)) as [->|Hne].
    + rewrite lookup_insert_eq. intros [= <-]. congruence.
    + rewrite lookup_insert_ne by exact Hne. apply Hstep'.
  - intros self' Hrun Hcase.
    destruct (window_elapsed self (clock w (ticks w))) eqn:Hel.
    + rewrite report_result_rolls in Hrun by exact Hel. cbn [fst] in Hrun.
      now apply rollover_in_step in Hrun.
    + rewrite report_result_quiet in Hrun by exact Hel. cbn [fst] in Hrun.
      injection Hrun as <-. destruct Hcase as [Hstep|Hcase]; [|discriminate].
      exact Hstep.
Qed.

(** The theorem on a controller where one host's limiter was set apart
    by hand: the report that completes the window brings it back. *)
Lemma limiters_follow_current_rate_witness :
  let self := mkAdaptive 10 1 50 10 0 0 0 10
                {[ "a" := RateLimiter_init 3 1 false ]} in
  let w := mkWorld (fun _ => 10%float) 0 (fun _ _ _ => 0%float) 0 [] in
  exists self',
    fst (report_result self "a" true w) = Some self'
    /\ limiters_in_step self'
    /\ max_requests <$> limiters self' !! "a" = Some 11.
Proof.
  intros self w.
  destruct (limiters_follow_current_rate self "a" true w) as (_ & _ & _ & Hrep).
  eexists. split; [reflexivity|]. split; [|reflexivity].
  apply Hrep; [reflexivity | right; reflexivity].
Defined.

(** X7.  [set_host_rate_limit] gives the named host's limiter the rate
    asked for (making the limiter first if the host is new, and keeping
    the window of a limiter that exists), and leaves the controller's
    rate and every other host alone.  The setting lasts until the next
    rollover only: a rollover writes the controller's rate into every
    limiter, this one included. *)
Theorem set_host_rate_limit_until_rollover :
  forall (m : RateModule) (host : string) (rate : Z),
    let self := global_rate_limiter m in
    let m' := set_host_rate_limit m host rate in
    let self' := global_rate_limiter m' in
    (exists limiter,
       limiters self' !! host = Some limiter
       /\ max_requests limiter = rate
       /\ requests limiter
          = match limiters self !! host with
            | Some old => requests old
            | None => HostWindows ∅
            end)
    /\ current_rate self' = current_rate self
    /\ global_delay_manager m' = global_delay_manager m
    /\ (forall other, other <> host ->
          limiters self' !! other = limiters self !! other)
    /\ (forall now rolled,
          rollover self' now = Some rolled ->
          max_requests <$> limiters rolled !! host = Some (current_rate rolled)).
Proof.
  intros m host rate self m' self'. subst m' self'.
  unfold set_host_rate_limit, set_limiter_rate. cbn [global_rate_limiter
    global_delay_manager]. fold self.
  destruct (get_limiter_holds self host) as (Hheld & Hrate & Hother).
  assert (Hreq : requests (fst (get_limiter self host))
                 = match limiters self !! host with
                   | Some old => requests old
                   | None => HostWindows ∅
                   end).
  { destruct (limiters self !! host) as [l|] eqn:H.
    - now rewrite (get_limiter_known self host l H).
    - now rewrite (get_limiter_new self host H). }
  destruct (get_limiter self host) as [limiter self1]. cbn [fst snd] in *.
  split; [|split; [exact Hrate | split; [reflexivity | split]]].
  - eexists. cbn. rewrite lookup_insert_eq. split; [reflexivity|].
    split; [reflexivity | exact Hreq].
  - intros other Hne. cbn. rewrite lookup_insert_ne by congruence.
    now apply Hother.
  - intros now rolled Hroll.
    pose proof (rollover_in_step _ _ _ Hroll) as Hstep.
    unfold rollover in Hroll.
    destruct (window_success_rate _) as [sr|]; [|discriminate].
    cbn [mbind option_bind] in Hroll.
    destruct (adjusted_rate _ sr) as [new|]; [|discriminate].
    cbn [mbind option_bind] in Hroll. injection Hroll as <-.
    cbn. rewrite lookup_fmap, lookup_insert_eq. reflexivity.
Qed.

Section RateSteps.

(** Checked by running the two conversions on every rate up to 1000. *)
Lemma rate_steps_checked :
  forallb rate_steps_ok (Z.of_nat <$> seq 0 1001) = true.
Proof. vm_compute. reflexivity. Qed.

Lemma rate_steps_in_range rate :
  0 <= rate <= 1000 -> rate_steps_ok rate = true.
Proof.
  intros H. pose proof rate_steps_checked as Hall.
  rewrite forallb_forall in Hall. apply Hall.
  apply list_elem_of_In, list_elem_of_fmap. exists (Z.to_nat rate).
  split; [lia|]. apply list_elem_of_In, in_seq. lia.
Qed.

(** Below 10 a rise of ten per cent is cut back to the rate itself. *)
Lemma rate_stuck_checked :
  forallb rate_stuck (Z.of_nat <$> seq 0 10) = true.
Proof. vm_compute. reflexivity. Qed.

Lemma rate_stuck_in_range rate : 0 <= rate <= 9 -> rate_stuck rate = true.
Proof.
  intros H. pose proof rate_stuck_checked as Hall.
  rewrite forallb_forall in Hall. apply Hall.
  apply list_elem_of_In, list_elem_of_fmap. exists (Z.to_nat rate).
  split; [lia|]. apply list_elem_of_In, in_seq. lia.
Qed.

Lemma window_success_rate_defined self :
  exists rate, window_success_rate self = Some rate.
Proof.
  unfold window_success_rate, PyNum.int_truediv.
  destruct (Z.eqb_spec (Z.max 1 (success_count self + failure_count self)) 0);
    [lia | eauto].
Qed.

(** The rate a rollover selects, for a rate whose two steps are as
    [rate_steps_ok] says. *)
Lemma adjusted_rate_bounds self sr :
  rate_steps_ok (current_rate self) = true ->
  min_rate self <= current_rate self <= max_rate self ->
  exists rate, adjusted_rate self sr = Some rate
               /\ min_rate self <= rate <= max_rate self.
Proof.
  unfold rate_steps_ok, adjusted_rate. intros Hok Hb.
  destruct (PyNum.int_of_float (PyNum.float_of_int (current_rate self) * 1.1))
    as [up|]; [|discriminate].
  destruct (PyNum.int_of_float (PyNum.float_of_int (current_rate self) * 0.9))
    as [down|]; [|discriminate].
  apply andb_prop in Hok as [Hok Hd]. apply andb_prop in Hok as [Hu H0].
  apply Z.leb_le in Hu, H0, Hd.
  destruct (PyNum.gtb sr 0.9); [|destruct (PrimFloat.ltb sr 0.7)];
    cbn [mbind option_bind]; eexists; (split; [reflexivity | lia]).
Qed.

End RateSteps.

Section RateBounds.

Lemma report_result_bounds self host success w :
  0 <= min_rate self -> max_rate self <= 1000 ->
  min_rate self <= current_rate self <= max_rate self ->
  exists self',
    report_result self host success w
    = (Some self', mkWorld (clock w) (S (ticks w)) (draws w) (drawn w) (sleeps w))
    /\ min_rate self' = min_rate self
    /\ max_rate self' = max_rate self
    /\ min_rate self <= current_rate self' <= max_rate self.
Proof.
  intros Hlo Hhi Hb.
  destruct (window_elapsed self (clock w (ticks w))) eqn:Hel.
  - rewrite report_result_rolls by exact Hel.
    set (counted := count_result self success).
    destruct (window_success_rate_defined counted) as [sr Hsr].
    destruct (adjusted_rate_bounds counted sr) as (rate & Hrate & Hin).
    { apply rate_steps_in_range. subst counted. cbn. lia. }
    { subst counted. cbn. exact Hb. }
    unfold rollover. rewrite Hsr. cbn [mbind option_bind].
    rewrite Hrate. cbn [mbind option_bind].
    eexists. split; [reflexivity|]. cbn. subst counted. cbn in Hin. auto.
  - rewrite report_result_quiet by exact Hel.
    eexists. split; [reflexivity|]. cbn. auto.
Qed.

End RateBounds.

(** X8.  For a controller whose bounds lie within [0, 1000] and whose
    rate lies within its bounds, any run of reports goes through without
    an exception and leaves the rate within the same bounds
    ([min_rate <= current_rate <= max_rate]), the bounds themselves
    unchanged. *)
Theorem current_rate_stays_in_bounds :
  forall (results : list (string * bool)) (self : AdaptiveRateLimiter)
         (w : World),
    0 <= min_rate self ->
    max_rate self <= 1000 ->
    min_rate self <= current_rate self <= max_rate self ->
    exists self',
      fst (report_results self results w) = Some self'
      /\ min_rate self' = min_rate self
      /\ max_rate self' = max_rate self
      /\ min_rate self <= current_rate self' <= max_rate self.
Proof.
  induction results as [|[host success] results IH]; intros self w Hlo Hhi Hb.
  - exists self. cbn. auto.
  - cbn [report_results]. unfold mbind, Py_bind.
    destruct (report_result_bounds self host success w Hlo Hhi Hb)
      as (self1 & Hrun & Hmin & Hmax & Hin).
    rewrite Hrun.
    destruct (IH self1 (mkWorld (clock w) (S (ticks w)) (draws w) (drawn w)
                          (sleeps w)))
      as (self' & Hrun' & Hmin' & Hmax' & Hin'); try lia.
    exists self'. split; [exact Hrun'|]. repeat split; lia.
Qed.

(** The theorem on the module's limiter (rate 10 within [1, 50]) and
    three reports of failure, each arriving after a full window. *)
Lemma current_rate_stays_in_bounds_witness :
  let self := mkAdaptive 10 1 50 10 0 0 0 10 ∅ in
  let w := mkWorld (fun k => PyNum.float_of_int (20 * (Z.of_nat k + 1)))
             0 (fun _ _ _ => 0%float) 0 [] in
  exists self',
    fst (report_results self [("a", false); ("a", false); ("a", false)] w)
    = Some self'
    /\ 1 <= current_rate self' <= 50.
Proof.
  intros self w.
  destruct (current_rate_stays_in_bounds
              [("a", false); ("a", false); ("a", false)] self w)
    as (self' & Hrun & _ & _ & Hin); [cbn; lia | cbn; lia | cbn; lia |].
  exists self'. split; [exact Hrun | exact Hin].
Defined.

Section RateStuck.

Lemma adjusted_rate_stuck self sr :
  rate_stuck (current_rate self) = true ->
  min_rate self <= current_rate self <= max_rate self ->
  exists rate, adjusted_rate self sr = Some rate
               /\ min_rate self <= rate <= current_rate self.
Proof.
  unfold rate_stuck, adjusted_rate. intros Hok Hb.
  destruct (PyNum.int_of_float (PyNum.float_of_int (current_rate self) * 1.1))
    as [up|]; [|discriminate].
  destruct (PyNum.int_of_float (PyNum.float_of_int (current_rate self) * 0.9))
    as [down|]; [|discriminate].
  apply andb_prop in Hok as [Hok Hd]. apply andb_prop in Hok as [Hu H0].
  apply Z.eqb_eq in Hu. apply Z.leb_le in H0, Hd.
  destruct (PyNum.gtb sr 0.9); [|destruct (PrimFloat.ltb sr 0.7)];
    cbn [mbind option_bind]; eexists; (split; [reflexivity | lia]).
Qed.

Lemma report_result_stuck self host success w :
  0 <= min_rate self -> current_rate self <= 9 ->
  min_rate self <= current_rate self <= max_rate self ->
  exists self',
    report_result self host success w
    = (Some self', mkWorld (clock w) (S (ticks w)) (draws w) (drawn w) (sleeps w))
    /\ min_rate self' = min_rate self
    /\ max_rate self' = max_rate self
    /\ min_rate self <= current_rate self' <= current_rate self.
Proof.
  intros Hlo Hhi Hb.
  destruct (window_elapsed self (clock w (ticks w))) eqn:Hel.
  - rewrite report_result_rolls by exact Hel.
    set (counted := count_result self success).
    destruct (window_success_rate_defined counted) as [sr Hsr].
    destruct (adjusted_rate_stuck counted sr) as (rate & Hrate & Hin).
    { apply rate_stuck_in_range. subst counted. cbn. lia. }
    { subst counted. cbn. exact Hb. }
    unfold rollover. rewrite Hsr. cbn [mbind option_bind].
    rewrite Hrate. cbn [mbind option_bind].
    eexists. split; [reflexivity|]. cbn. subst counted. cbn in Hin. auto.
  - rewrite report_result_quiet by exact Hel.
    eexists. split; [reflexivity|]. cbn. repeat split; lia.
Qed.

End RateStuck.

(** X9.  Once the rate is below 10 it never rises again: for a rate
    between [min_rate] and 9 (and within the bounds), [int(rate * 1.1)]
    is the rate itself, so after any run of reports, however good, the
    rate is at most what it was (and still at least [min_rate]). *)
Theorem rate_below_ten_never_recovers :
  forall (results : list (string * bool)) (self : AdaptiveRateLimiter)
         (w : World),
    0 <= min_rate self ->
    current_rate self <= 9 ->
    min_rate self <= current_rate self <= max_rate self ->
    exists self',
      fst (report_results self results w) = Some self'
      /\ min_rate self <= current_rate self' <= current_rate self.
Proof.
  induction results as [|[host success] results IH]; intros self w Hlo Hhi Hb.
  - exists self. cbn. split; [reflexivity | lia].
  - cbn [report_results]. unfold mbind, Py_bind.
    destruct (report_result_stuck self host success w Hlo Hhi Hb)
      as (self1 & Hrun & Hmin & Hmax & Hin).
    rewrite Hrun.
    destruct (IH self1 (mkWorld (clock w) (S (ticks w)) (draws w) (drawn w)
                          (sleeps w)))
      as (self' & Hrun' & Hin'); try lia.
    exists self'. split; [exact Hrun' | lia].
Qed.

(** The theorem on the module's limiter after one bad window (rate 9):
    three windows of nothing but successes leave it at 9. *)
Lemma rate_below_ten_never_recovers_witness :
  let self := mkAdaptive 10 1 50 9 0 0 0 10 ∅ in
  let w := mkWorld (fun k => PyNum.float_of_int (20 * (Z.of_nat k + 1)))
             0 (fun _ _ _ => 0%float) 0 [] in
  current_rate
    <$> fst (report_results self [("a", true); ("a", true); ("a", true)] w)
  = Some 9.
Proof.
  intros self w.
  destruct (rate_below_ten_never_recovers
              [("a", true); ("a", true); ("a", true)] self w)
    as (self' & Hrun & Hin); [cbn; lia | cbn; lia | cbn; lia |].
  reflexivity.
Defined.

(** ** The module-level entry points of rate_limiter.py *)

Section ModuleFacts.

Lemma controller_wait_run self host w :
  AdaptiveRateLimiter_wait_if_needed self host w =
  let r := wait_if_needed (fst (get_limiter self host)) (Some host) w in
  ((fst (fst r),
    put_limiter (snd (get_limiter self host)) host (snd (fst r))),
   snd r).
Proof.
  unfold AdaptiveRateLimiter_wait_if_needed.
  destruct (get_limiter self host) as [limiter self1]. cbn [fst snd].
  unfold mbind, Py_bind, mret, Py_ret.
  now destruct (wait_if_needed limiter (Some host) w) as [[waited limiter'] w'].
Qed.



End ModuleFacts.

(** X10.  The first request to a host the controller has not seen, at a
    rate of at least 1: the controller makes the host a limiter at its
    current rate, the request goes through at once ([0.0], no sleep) and
    is recorded in that limiter; the other hosts' limiters are not
    touched. *)
Theorem first_request_to_new_host :
  forall (self : AdaptiveRateLimiter) (host : string) (w : World),
    limiters self !! host = None ->
    1 <= current_rate self ->
    let r := AdaptiveRateLimiter_wait_if_needed self host w in
    fst (fst r) = Ok 0%float
    /\ sleeps (snd r) = sleeps w
    /\ current_rate (snd (fst r)) = current_rate self
    /\ (exists limiter,
          limiters (snd (fst r)) !! host = Some limiter
          /\ max_requests limiter = current_rate self
          /\ scope_window limiter (Some host) = [clock w (ticks w + 1)%nat])
    /\ (forall other, other <> host ->
          limiters (snd (fst r)) !! other = limiters self !! other).
Proof.
  intros self host w Hnew Hrate r. subst r.
  rewrite controller_wait_run, (get_limiter_new self host Hnew). cbv zeta.
  cbn [fst snd].
  set (fresh := RateLimiter_init (current_rate self) 1 false).
  assert (Hrun : wait_if_needed fresh (Some host) w =
    ((Ok 0%float, set_scope_window fresh (Some host) ([] ++ [clock w (ticks w + 1)%nat])),
     mkWorld (clock w) (ticks w + 2)%nat (draws w) (drawn w) (sleeps w))).
  { apply wait_if_needed_free.
    - subst fresh. now rewrite scope_window_init.
    - subst fresh. cbn. apply Z.ltb_lt. lia. }
  rewrite Hrun. cbn [fst snd sleeps current_rate put_limiter limiters].
  split; [reflexivity|]. split; [reflexivity|]. split; [reflexivity|]. split.
  - eexists. rewrite lookup_insert_eq. split; [reflexivity|].
    split; [now rewrite max_requests_set | now rewrite scope_window_set].
  - intros other Hne. now rewrite !lookup_insert_ne by congruence.
Qed.

Lemma first_request_to_new_host_witness :
  let self := mkAdaptive 10 1 50 10 0 0 0 10 ∅ in
  let w := mkWorld (fun _ => 10%float) 0 (fun _ _ _ => 0%float) 0 [] in
  fst (fst (AdaptiveRateLimiter_wait_if_needed self "a" w)) = Ok 0%float
  /\ sleeps (snd (AdaptiveRateLimiter_wait_if_needed self "a" w)) = [].
Proof.
  intros self w.
  destruct (first_request_to_new_host self "a" w) as (Hwait & Hsl & _).
  - reflexivity.
  - cbn. lia.
  - split; [exact Hwait | exact Hsl].
Defined.



(** X12.  [should_delay_request] only looks: it makes no sleep, reads
    the clock once and records no request.  What it leaves of the host's
    window is what the host had, less some entries at the front; for a
    host the controller has not seen, at a rate of at least 1, the
    answer is "no delay". *)
Theorem should_delay_request_only_looks :
  forall (m : RateModule) (host : string) (w : World),
    let r := should_delay_request m host w in
    let before :=
      match limiters (global_rate_limiter m) !! host with
      | Some limiter => scope_window limiter (Some host)
      | None => []
      end in
    sleeps (snd r) = sleeps w
    /\ ticks (snd r) = S (ticks w)
    /\ (exists limiter stale,
          limiters (global_rate_limiter (snd (fst r))) !! host = Some limiter
          /\ before = stale ++ scope_window limiter (Some host))
    /\ (limiters (global_rate_limiter m) !! host = None ->
        1 <= current_rate (global_rate_limiter m) ->
        fst (fst r) = false).
Proof.
  intros m host w r before. subst r. unfold should_delay_request.
  assert (Hbefore : scope_window (fst (get_limiter (global_rate_limiter m) host))
                      (Some host) = before).
  { subst before. destruct (limiters (global_rate_limiter m) !! host) as [l|] eqn:H.
    - now rewrite (get_limiter_known _ host l H).
    - rewrite (get_limiter_new _ host H). cbn [fst]. apply scope_window_init. }
  assert (Hnew : limiters (global_rate_limiter m) !! host = None ->
                 fst (get_limiter (global_rate_limiter m) host)
                 = RateLimiter_init (current_rate (global_rate_limiter m)) 1 false).
  { intros H. now rewrite (get_limiter_new _ host H). }
  destruct (get_limiter (global_rate_limiter m) host) as [limiter self1].
  cbn [fst snd] in *. unfold mbind, Py_bind, mret, Py_ret.
  rewrite can_make_request_run. cbv zeta. cbn [fst snd sleeps ticks].
  split; [reflexivity|]. split; [reflexivity|]. split.
  - destruct (evict_suffix (clock w (ticks w) - time_window limiter)%float
                (scope_window limiter (Some host))) as [stale Hs].
    eexists _, stale. cbn. rewrite lookup_insert_eq. split; [reflexivity|].
    rewrite scope_window_set, <- Hbefore. exact Hs.
  - intros Hnone Hrate. rewrite (Hnew Hnone), scope_window_init. cbn.
    apply negb_false_iff, Z.ltb_lt. lia.
Qed.

Lemma should_delay_request_only_looks_witness :
  let m := mkRateModule (mkAdaptive 10 1 50 10 0 0 0 10 ∅)
             (DelayManager_init 0.1 0.05) in
  let w := mkWorld (fun _ => 10%float) 0 (fun _ _ _ => 0%float) 0 [] in
  fst (fst (should_delay_request m "a" w)) = false
  /\ sleeps (snd (should_delay_request m "a" w)) = [].
Proof.
  intros m w.
  destruct (should_delay_request_only_looks m "a" w) as (Hsl & _ & _ & Hnew).
  split; [apply Hnew; [reflexivity | cbn; lia] | exact Hsl].
Defined.

(** ** The pool: construction, sizing, monitoring *)

(** X13.  The constructor fails exactly when [min_workers] is not
    positive (the executor refuses that size).  Otherwise it returns a
    live pool of [min_workers] workers with the lock free and nothing
    queued or recorded.  [max_workers] is not looked at: with
    [max_workers < min_workers] the pool starts above its own upper
    bound. *)
Theorem constructor_checks_min_workers_only :
  forall (V : Type) (minw maxw : Z) (cpu_thr mem_thr : float),
    let r := DynamicThreadPool_init (V:=V) minw maxw cpu_thr mem_thr in
    let p := snd (fst r) in
    (minw <= 0 -> fst (fst r) = Raised "max_workers must be greater than 0")
    /\ (0 < minw ->
          fst (fst r) = Done tt
          /\ live p
          /\ _executor p = Some (mkExecutor minw false)
          /\ _current_workers p = minw
          /\ _lock p = false
          /\ _task_queue p = []
          /\ _metrics_history p = []
          /\ (in_bounds p <-> minw <= maxw)).
Proof.
  intros V minw maxw cpu_thr mem_thr r p. subst p r. rewrite init_run.
  destruct (Z.leb_spec minw 0) as [Hle|Hpos]; split; try lia.
  - reflexivity.
  - intros _. cbn. split; [reflexivity|].
    split; [eexists; split; reflexivity|].
    repeat split; try reflexivity; unfold in_bounds in *; cbn in *; lia.
Qed.

Lemma constructor_checks_min_workers_only_witness :
  fst (fst (DynamicThreadPool_init (V:=unit) 0 20 80 80))
  = Raised "max_workers must be greater than 0"
  /\ fst (fst (DynamicThreadPool_init (V:=unit) 5 2 80 80)) = Done tt
  /\ ~ in_bounds (snd (fst (DynamicThreadPool_init (V:=unit) 5 2 80 80))).
Proof.
  destruct (constructor_checks_min_workers_only unit 0 20 80 80) as [Hfail _].
  destruct (constructor_checks_min_workers_only unit 5 2 80 80) as [_ Hok].
  destruct Hok as (Hdone & _ & _ & _ & _ & _ & _ & Hb); [lia|].
  split; [apply Hfail; lia|]. split; [exact Hdone|].
  intros H. apply Hb in H. lia.
Defined.

Section SizingOutcome.

Context {V : Type}.

Lemma set_lock_free p : _lock p = false -> set_lock false (set_lock true p) = p.
Proof. destruct p. cbn. now intros ->. Qed.

(** What a sizing step does, case by case. *)
Lemma adjust_workers_outcome cpu memory (p : DynamicThreadPool) :
  _adjust_workers (V:=V) cpu memory p =
  if _lock p then (Blocked, p, [])
  else
    let high := PyNum.gtb cpu (cpu_threshold p)
                || PyNum.gtb memory (memory_threshold p) in
    let low := PrimFloat.ltb cpu (cpu_threshold p * 0.6)
               && PrimFloat.ltb memory (memory_threshold p * 0.6)
               && Z.gtb (Z.of_nat (length (_task_queue p))) (_current_workers p) in
    if high && Z.gtb (_current_workers p) (min_workers p) then
      let n := Z.max (min_workers p) (_current_workers p - 2) in
      (Blocked, set_current_workers n (set_lock true p),
       [EvLog "INFO" ("Reducing workers to " +:+ pretty n
                      +:+ " due to high resource usage")])
    else if negb high && low && Z.ltb (_current_workers p) (max_workers p) then
      let n := Z.min (max_workers p) (_current_workers p + 2) in
      (Blocked, set_current_workers n (set_lock true p),
       [EvLog "INFO" ("Increasing workers to " +:+ pretty n
                      +:+ " due to low resource usage")])
    else (Done tt, p, []).
Proof.
  unfold _adjust_workers, with_lock.
  destruct (_lock p) eqn:Hlock; [reflexivity|].
  unfold mbind, PoolM_bind, get.
  cbn [set_lock min_workers max_workers cpu_threshold memory_threshold
       _current_workers _task_queue].
  cbv zeta.
  destruct (PyNum.gtb cpu (cpu_threshold p) || PyNum.gtb memory (memory_threshold p));
    cbn [andb negb].
  - destruct (Z.gtb (_current_workers p) (min_workers p)); cbn;
      [reflexivity | now rewrite set_lock_free].
  - destruct (PrimFloat.ltb cpu (cpu_threshold p * 0.6)
              && PrimFloat.ltb memory (memory_threshold p * 0.6)
              && Z.gtb (Z.of_nat (length (_task_queue p))) (_current_workers p));
      cbn [andb]; [|cbn; now rewrite set_lock_free].
    destruct (Z.ltb (_current_workers p) (max_workers p)); cbn;
      [reflexivity | now rewrite set_lock_free].
Qed.

Lemma update_executor_locked (p : DynamicThreadPool) :
  _lock p = true -> _update_executor (V:=V) p = (Blocked, p, []).
Proof. intros H. unfold _update_executor, with_lock. now rewrite H. Qed.

Lemma adjust_workers_locked cpu memory (p : DynamicThreadPool) :
  _lock p = true -> _adjust_workers (V:=V) cpu memory p = (Blocked, p, []).
Proof. intros H. rewrite adjust_workers_outcome. now rewrite H. Qed.

End SizingOutcome.

Section SizingBlocks.

Context {V : Type}.

Lemma adjust_trace_locked samples : forall p : DynamicThreadPool,
  _lock p = true -> Forall (eq p) (adjust_trace (V:=V) samples p).
Proof.
  induction samples as [|[cpu memory] samples IH]; intros p Hlock; [constructor|].
  cbn [adjust_trace]. cbv zeta.
  rewrite (adjust_workers_locked cpu memory p Hlock). cbn [fst snd].
  constructor; [reflexivity | now apply IH].
Qed.

End SizingBlocks.

(** X14.  A sizing step that returns has changed nothing of the pool.  A
    step that changes the worker count does not return: after writing
    the new count and logging it, it goes on to rebuild the executor
    while it still holds the pool's lock, and waits for that lock.  The
    executor is then still the old one, the lock stays taken, and every
    later sizing step or rebuild waits as well and changes nothing: the
    worker count changes at most once. *)
Theorem sizing_change_never_returns :
  forall (V : Type) (cpu memory : float) (p : DynamicThreadPool),
    let r := _adjust_workers (V:=V) cpu memory p in
    let p' := snd (fst r) in
    (fst (fst r) = Done tt -> p' = p /\ snd r = [])
    /\ (_current_workers p' <> _current_workers p ->
          fst (fst r) = Blocked
          /\ _lock p' = true
          /\ _executor p' = _executor p
          /\ exists msg, snd r = [EvLog "INFO" msg])
    /\ (fst (fst r) = Blocked ->
          _lock p' = true
          /\ _update_executor (V:=V) p' = (Blocked, p', [])
          /\ forall samples, Forall (eq p') (adjust_trace (V:=V) samples p')).
Proof.
  intros V cpu memory p r p'. subst p' r. rewrite adjust_workers_outcome.
  destruct (_lock p) eqn:Hlock.
  - cbn [fst snd]. split; [discriminate|]. split; [congruence|].
    intros _. split; [exact Hlock|].
    split; [now apply update_executor_locked | intros; now apply adjust_trace_locked].
  - cbv zeta.
    destruct (_ && Z.gtb _ _); [|destruct (_ && _ && Z.ltb _ _)]; cbn [fst snd].
    + split; [discriminate|]. split.
      * intros _. repeat split. eexists. reflexivity.
      * intros _. split; [reflexivity|].
        split; [now apply update_executor_locked
               | intros; now apply adjust_trace_locked].
    + split; [discriminate|]. split.
      * intros _. repeat split. eexists. reflexivity.
      * intros _. split; [reflexivity|].
        split; [now apply update_executor_locked
               | intros; now apply adjust_trace_locked].
    + split; [auto|]. split; [congruence | discriminate].
Qed.

(** The theorem on a pool of 10 workers under load: the count goes to 8
    once and stays there, with an executor still sized for 10. *)
Lemma sizing_change_never_returns_witness :
  let p := mkPool 2 20 80 80 (Some (mkExecutor 10 false)) 10 false [] [] false in
  let p' := snd (fst (_adjust_workers (V:=unit) 90 40 p)) in
  _current_workers p' = 8
  /\ _executor p' = Some (mkExecutor 10 false)
  /\ Forall (eq p') (adjust_trace (V:=unit) [(95, 95); (1, 1)]%float p').
Proof.
  intros p p'.
  destruct (sizing_change_never_returns unit 90 40 p) as (_ & Hchange & Hblocked).
  destruct Hchange as (Hb & _ & Hex & _); [intros H; vm_compute in H; lia|].
  destruct (Hblocked Hb) as (_ & _ & Hall).
  split; [reflexivity|]. split; [exact Hex | apply Hall].
Defined.

Section MonitorFacts.

Context {V : Type}.

Lemma trimmed_history_length history metrics :
  (length (trimmed_history history metrics) <= 100)%nat.
Proof.
  unfold trimmed_history. cbv zeta.
  destruct (Z.gtb_spec (Z.of_nat (length (history ++ [metrics]))) 100).
  - rewrite length_drop. lia.
  - lia.
Qed.

Lemma trimmed_history_last history metrics :
  last (trimmed_history history metrics) = Some metrics.
Proof.
  unfold trimmed_history. cbv zeta.
  destruct (Z.gtb_spec (Z.of_nat (length (history ++ [metrics]))) 100)
    as [Hlong|_]; [|apply last_snoc].
  rewrite length_app in *. cbn [length] in *.
  replace (length history + 1 - 50)%nat with (length history - 49)%nat by lia.
  rewrite drop_app_le by lia. apply last_snoc.
Qed.

Lemma adjust_workers_history cpu memory (p : DynamicThreadPool) :
  _metrics_history (snd (fst (_adjust_workers (V:=V) cpu memory p)))
  = _metrics_history p
  /\ forall e, fst (fst (_adjust_workers (V:=V) cpu memory p)) <> Raised e.
Proof.
  rewrite adjust_workers_outcome. destruct (_lock p); [split; [reflexivity|discriminate]|].
  cbv zeta.
  destruct (_ && Z.gtb _ _); [|destruct (_ && _ && Z.ltb _ _)];
    split; try reflexivity; discriminate.
Qed.

Lemma monitor_turn_sample cpu memory active now (p : DynamicThreadPool) :
  _resource_monitor_turn (V:=V) (inl (cpu, memory, active, now)) p
  = _adjust_workers cpu memory
      (set_metrics_history
         (trimmed_history (_metrics_history p)
            (mkMetrics cpu memory active (Z.of_nat (length (_task_queue p))) now))
         p).
Proof.
  unfold _resource_monitor_turn, try_except, mbind, PoolM_bind, get, modify.
  fold (trimmed_history (_metrics_history p)
          (mkMetrics cpu memory active (Z.of_nat (length (_task_queue p))) now)).
  set (p1 := set_metrics_history _ p).
  destruct (adjust_workers_history cpu memory p1) as [_ Hnr].
  destruct (_adjust_workers cpu memory p1) as [[[[]|e|] p2] ev]; cbn;
    try reflexivity. now destruct (Hnr e).
Qed.

End MonitorFacts.

(** X15.  A turn of the monitor never raises.  When the sampling raised,
    the turn logs the error and changes nothing.  Otherwise the sample
    (with the queue's size) becomes the newest entry of the history,
    which never holds more than 100 entries afterwards, and
    [get_current_metrics] then reports exactly that sample. *)
Theorem monitor_turn_records_sample :
  forall (V : Type) (sample : (float * float * Z * float) + string)
         (p : DynamicThreadPool) (fresh : float * float * Z * float),
    let r := _resource_monitor_turn (V:=V) sample p in
    let p' := snd (fst r) in
    (forall e, fst (fst r) <> Raised e)
    /\ (forall e, sample = inr e ->
          r = (Done tt, p, [EvLog "ERROR" ("Resource monitor error: " +:+ e)]))
    /\ (forall cpu memory active now,
          sample = inl (cpu, memory, active, now) ->
          (length (_metrics_history p') <= 100)%nat
          /\ get_current_metrics p' fresh
             = mkMetrics cpu memory active
                 (Z.of_nat (length (_task_queue p))) now).
Proof.
  intros V sample p fresh r p'. subst p' r.
  destruct sample as [[[[cpu memory] active] now]|e].
  - rewrite monitor_turn_sample.
    set (p1 := set_metrics_history _ p).
    destruct (adjust_workers_history (V:=V) cpu memory p1) as [Hh Hnr].
    split; [exact Hnr|]. split; [discriminate|].
    intros ? ? ? ? [= <- <- <- <-]. unfold get_current_metrics. rewrite Hh.
    subst p1. cbn [_metrics_history set_metrics_history].
    split; [apply trimmed_history_length | now rewrite trimmed_history_last].
  - split; [discriminate|]. split; [|discriminate].
    now intros ? [= <-].
Qed.

(** X16.  [get_optimal_thread_count] looks at the newest recorded sample
    (or a fresh one while none is recorded).  Above 80% CPU or memory it
    gives half the base count, but at least 1.  Below 30% CPU and 50%
    memory it gives twice the base count, but at most 50: a base count
    above 50 is lowered to 50 there.  Otherwise it gives the base count.
    For a base count of at least 1 the result is always between 1 and
    the larger of the base count and 50. *)
Theorem get_optimal_thread_count_range :
  forall (p : DynamicThreadPool) (fresh : float * float * Z * float)
         (base_count : Z),
    let metrics := get_current_metrics p fresh in
    let n := get_optimal_thread_count p fresh base_count in
    let loaded := PyNum.gtb (cpu_percent metrics) 80
                  || PyNum.gtb (memory_percent metrics) 80 in
    let idle := PrimFloat.ltb (cpu_percent metrics) 30
                && PrimFloat.ltb (memory_percent metrics) 50 in
    (loaded = true -> n = Z.max 1 (base_count / 2) /\ 1 <= n)
    /\ (loaded = false -> idle = true ->
          n = Z.min 50 (base_count * 2) /\ n <= 50
          /\ (50 < base_count -> n < base_count))
    /\ (loaded = false -> idle = false -> n = base_count)
    /\ (1 <= base_count -> 1 <= n <= Z.max base_count 50).
Proof.
  intros p fresh base_count metrics n loaded idle.
  subst n. unfold get_optimal_thread_count. fold metrics. cbv zeta.
  fold loaded idle.
  destruct loaded, idle; repeat split; try discriminate; try reflexivity;
    try lia; intros;
    try (pose proof (Z.div_pos base_count 2);
         pose proof (Z.div_le_upper_bound base_count 2 base_count); lia).
Qed.

Lemma get_optimal_thread_count_range_witness :
  let busy := mkPool 2 15 85 85 (Some (mkExecutor 2 false)) 2 false [] 
                [mkMetrics 95 40 3 0 1000] false in
  let calm := mkPool 2 15 85 85 (Some (mkExecutor 2 false)) 2 false []
                [mkMetrics 5 10 3 0 1000] false in
  get_optimal_thread_count busy (0%float, 0%float, 0, 0%float) 10 = 5
  /\ get_optimal_thread_count busy (0%float, 0%float, 0, 0%float) 1 = 1
  /\ get_optimal_thread_count calm (0%float, 0%float, 0, 0%float) 10 = 20
  /\ get_optimal_thread_count calm (0%float, 0%float, 0, 0%float) 100 = 50.
Proof.
  intros busy calm.
  destruct (get_optimal_thread_count_range busy (0%float, 0%float, 0, 0%float) 10)
    as (Hbusy & _).
  destruct (Hbusy eq_refl) as [Hn _].
  split; [rewrite Hn; reflexivity|]. repeat split; reflexivity.
Defined.

(** ** The scheduler: any retry budget, edge values, shutdown *)

Section BackoffGeneral.

Context {V : Type}.
Implicit Types work : Z -> Outcome V.

Lemma range_from_zero n :
  0 <= n -> PyNum.range 0 n 1 = Some (attempts_upto (Z.to_nat n)).
Proof.
  intros Hn. unfold PyNum.range, attempts_upto. cbn [Z.eqb Z.ltb Z.compare].
  f_equal.
  replace (if 0 <? n then (n - 0 - 1) / 1 + 1 else 0) with n.
  2:{ destruct (Z.ltb_spec 0 n); [rewrite Z.div_1_r; lia | lia]. }
  apply List.map_ext. intros k. lia.
Qed.

Lemma range_empty n : n <= 0 -> PyNum.range 0 n 1 = Some [].
Proof.
  intros Hn. unfold PyNum.range. cbn [Z.eqb Z.ltb Z.compare].
  rewrite (proj2 (Z.ltb_ge 0 n)) by lia. reflexivity.
Qed.


End BackoffGeneral.



(** X18.  With a negative [max_retries] the retry loop is empty:
    [schedule_with_backoff] returns [None] without ever submitting the
    unit of work, on any pool. *)
Theorem schedule_with_backoff_negative_budget :
  forall (V : Type) (work : Z -> Outcome V) (max_retries : Z)
         (backoff_factor : float) (p : DynamicThreadPool),
    max_retries < 0 ->
    TaskScheduler.schedule_with_backoff work max_retries backoff_factor p
    = (Done None, p, []).
Proof.
  intros V work max_retries backoff_factor p Hneg.
  unfold TaskScheduler.schedule_with_backoff.
  now rewrite range_empty by lia.
Qed.

Lemma schedule_with_backoff_negative_budget_witness :
  TaskScheduler.schedule_with_backoff (fun _ : Z => Returns 1) (-1) 1
    global_thread_pool
  = (Done None, global_thread_pool, []).
Proof.
  apply (schedule_with_backoff_negative_budget Z (fun _ => Returns 1) (-1) 1).
  lia.
Defined.

(** X19.  With a backoff factor that makes the first sleep negative, a
    failure of the first attempt (with retries left) does not lead to a
    retry: [time.sleep] refuses the duration, and what the caller gets
    is that refusal, not the failure of the work, after one attempt.
    The refusal is "sleep length must be non-negative" when the sleep,
    counted in nanoseconds, fits a signed 64-bit integer, and the
    [OverflowError] "timestamp too large to convert to C _PyTime_t" when
    it does not. *)
Theorem schedule_with_backoff_negative_factor :
  forall (V : Type) (work : Z -> Outcome V) (max_retries : Z)
         (backoff_factor : float) (e : string) (p : DynamicThreadPool),
    live p ->
    1 <= max_retries ->
    work 0 = Raises e ->
    let wait_time := (backoff_factor * PyNum.float_of_int (2 ^ 0))%float in
    PrimFloat.ltb wait_time 0 = true ->
    let fits := PrimFloat.leb (-9223372036854775808) (wait_time * 1e9)
                && PrimFloat.ltb (wait_time * 1e9) 9223372036854775808 in
    TaskScheduler.schedule_with_backoff work max_retries backoff_factor p
    = (Raised (if fits then "sleep length must be non-negative"
               else "timestamp too large to convert to C _PyTime_t"),
       p, last_attempt_events work 0).
Proof.
  intros V work max_retries backoff_factor e p Hlive Hn He wait_time Hneg fits.
  destruct (float_ltb_not_nan wait_time 0 Hneg) as [Hnan _].
  assert (Herr : PyNum.sleep_error wait_time
                 = Some (if fits then "sleep length must be non-negative"
                         else "timestamp too large to convert to C _PyTime_t")).
  { unfold PyNum.sleep_error. rewrite Hnan. cbv zeta. fold fits.
    rewrite Hneg. now destruct fits. }
  unfold TaskScheduler.schedule_with_backoff.
  rewrite range_from_zero by lia. unfold attempts_upto.
  replace (Z.to_nat (max_retries + 1)) with (S (Z.to_nat max_retries)) by lia.
  cbn [seq fmap list_fmap TaskScheduler.backoff_loop].
  change (Z.of_nat 0) with 0.
  eapply run_conv.
  - apply bind_raised. eapply try_raised.
    + eapply bind_done; [apply (submit_live work 0 p Hlive) | | reflexivity].
      rewrite He. apply bind_raised. apply future_result_raises.
    + cbv beta. rewrite (proj2 (Z.eqb_neq 0 max_retries)) by lia. cbv zeta.
      apply bind_raised. unfold time_sleep. fold wait_time.
      rewrite Herr. reflexivity.
    + reflexivity.
  - reflexivity.
  - unfold last_attempt_events. now rewrite He.
Qed.

(** The theorem with the factors [-1] and [-1e10]. *)
Lemma schedule_with_backoff_negative_factor_witness :
  let work := fun _ : Z => @Raises Z "down" in
  TaskScheduler.schedule_with_backoff work 3 (-1) global_thread_pool
  = (Raised "sleep length must be non-negative", global_thread_pool,
     [EvSubmit (Raises "down"); EvResult (Raises "down")])
  /\ TaskScheduler.schedule_with_backoff work 3 (-1e10) global_thread_pool
     = (Raised "timestamp too large to convert to C _PyTime_t",
        global_thread_pool,
        [EvSubmit (Raises "down"); EvResult (Raises "down")]).
Proof.
  intros work.
  assert (Hlive : live global_thread_pool)
    by (exists (mkExecutor 2 false); split; reflexivity).
  split.
  - apply (schedule_with_backoff_negative_factor Z work 3 (-1) "down" _ Hlive);
      [lia | reflexivity | reflexivity].
  - apply (schedule_with_backoff_negative_factor Z work 3 (-1e10) "down" _ Hlive);
      [lia | reflexivity | reflexivity].
Defined.

(** X20.  [schedule_batch] with a [max_concurrent] that is not positive:
    with 0 it raises the error of [range] before anything is submitted,
    and with a negative value it returns an empty list and runs none of
    the tasks, however many there are.  An empty task list gives an
    empty result for every other [max_concurrent].  The pool is not
    touched in any of these cases, live or not. *)
Theorem schedule_batch_without_waves :
  forall (A V : Type) (tasks : list ((A -> Outcome V) * A))
         (max_concurrent : Z) (p : DynamicThreadPool),
    (max_concurrent = 0 ->
       TaskScheduler.schedule_batch tasks (Some max_concurrent) p
       = (Raised "range() arg 3 must not be zero", p, []))
    /\ (max_concurrent < 0 ->
          TaskScheduler.schedule_batch tasks (Some max_concurrent) p
          = (Done [], p, []))
    /\ (max_concurrent <> 0 ->
          TaskScheduler.schedule_batch (@nil ((A -> Outcome V) * A))
            (Some max_concurrent) p
          = (Done [], p, [])).
Proof.
  intros A V tasks mc p. unfold TaskScheduler.schedule_batch.
  split; [|split].
  - intros ->. reflexivity.
  - intros Hneg. unfold mbind, PoolM_bind, get. cbn [from_option id].
    unfold PyNum.range.
    rewrite (proj2 (Z.eqb_neq mc 0)), (proj2 (Z.ltb_ge 0 mc)),
      (proj2 (Z.ltb_ge (Z.of_nat (length tasks)) 0)) by lia.
    reflexivity.
  - intros Hnz. unfold mbind, PoolM_bind, get. cbn [from_option id length Z.of_nat].
    unfold PyNum.range. rewrite (proj2 (Z.eqb_neq mc 0)) by lia.
    cbn [Z.ltb Z.compare]. destruct (Z.ltb 0 mc); reflexivity.
Qed.

Lemma schedule_batch_without_waves_witness :
  let tasks := [(fun x : Z => Returns x, 1); (fun x : Z => Returns x, 2)] in
  TaskScheduler.schedule_batch tasks (Some (-2)) global_thread_pool
  = (Done [], global_thread_pool, [])
  /\ fst (fst (TaskScheduler.schedule_batch tasks (Some 0) global_thread_pool))
     = Raised "range() arg 3 must not be zero".
Proof.
  intros tasks.
  destruct (schedule_batch_without_waves Z Z tasks (-2) global_thread_pool)
    as (_ & Hneg & _).
  destruct (schedule_batch_without_waves Z Z tasks 0 global_thread_pool)
    as (Hzero & _).
  split; [apply Hneg; lia | rewrite Hzero; reflexivity].
Defined.

Section InFlight.

Context {A V : Type}.
Implicit Types wave : list ((A -> Outcome V) * A).

Ltac flight_lia :=
  repeat match goal with
         | |- context [in_flight ?l] =>
             let z := fresh "z" in set (z := in_flight l) in *; clearbody z
         | H : context [in_flight ?l] |- _ =>
             let z := fresh "z" in set (z := in_flight l) in *; clearbody z
         end;
  lia.

Lemma in_flight_app (l1 l2 : list (Event V)) :
  in_flight (l1 ++ l2) = in_flight l1 + in_flight l2.
Proof.
  induction l1 as [|ev l1 IH]; [reflexivity|].
  cbn [app in_flight]. destruct ev; lia.
Qed.

(** Prefixes of the submissions of a wave. *)
Lemma in_flight_submits wave k :
  0 <= in_flight (take k (EvSubmit ∘ run_task <$> wave)) <= Z.of_nat (length wave)
  /\ in_flight (EvSubmit ∘ run_task <$> wave) = Z.of_nat (length wave).
Proof.
  revert k. induction wave as [|t wave IH]; intros k.
  - destruct k; cbn; lia.
  - destruct (IH 0%nat) as [_ Hall]. destruct k as [|k].
    + cbn. split; lia.
    + destruct (IH k) as [Hk _]. cbn [fmap list_fmap take in_flight compose length] in *.
      lia.
Qed.

(** Prefixes of the waits of a wave. *)
Lemma in_flight_collects label wave k :
  - Z.of_nat (length wave)
  <= in_flight (take k (concat (collect_events label ∘ run_task <$> wave))) <= 0
  /\ in_flight (concat (collect_events label ∘ run_task <$> wave))
     = - Z.of_nat (length wave).
Proof.
  revert k. induction wave as [|t wave IH]; intros k.
  - destruct k; cbn; lia.
  - destruct (IH 0%nat) as [_ Hall].
    cbn [fmap list_fmap concat length].
    set (rest := concat (collect_events label ∘ run_task <$> wave)) in *.
    unfold compose, collect_events.
    rewrite Nat2Z.inj_succ.
    split.
    + destruct k as [|k]; [cbn; lia|]. cbn [app take in_flight].
      destruct (run_task t) as [v|e]; cbn [app].
      * destruct (IH k) as [Hk _]. lia.
      * destruct k as [|k]; [cbn; lia|]. cbn [take in_flight].
        destruct (IH k) as [Hk _]. lia.
    + destruct (run_task t); cbn [app in_flight]; lia.
Qed.

Lemma in_flight_wave wave k :
  0 <= in_flight (take k (wave_events wave)) <= Z.of_nat (length wave)
  /\ in_flight (wave_events wave) = 0.
Proof.
  unfold wave_events. split.
  - rewrite take_app, in_flight_app, length_fmap.
    destruct (in_flight_submits wave k) as [Hs Hall].
    destruct (in_flight_collects "Batch task error: " wave (k - length wave))
      as [Hc _].
    destruct (Nat.le_gt_cases (length wave) k) as [Hge|Hlt].
    + rewrite take_ge in * by (rewrite length_fmap; lia). flight_lia.
    + replace (k - length wave)%nat with 0%nat in * by lia.
      rewrite take_0. cbn [in_flight]. flight_lia.
  - rewrite in_flight_app.
    destruct (in_flight_submits wave 0) as [_ ->].
    destruct (in_flight_collects "Batch task error: " wave 0) as [_ ->]. lia.
Qed.

Lemma in_flight_waves (ws : list (list ((A -> Outcome V) * A))) (bound : Z) k :
  0 <= bound ->
  Forall (fun wave => Z.of_nat (length wave) <= bound) ws ->
  0 <= in_flight (take k (concat (wave_events <$> ws))) <= bound
  /\ in_flight (concat (wave_events <$> ws)) = 0.
Proof.
  intros Hb Hall. revert k. induction Hall as [|wave ws Hw _ IH]; intros k.
  - destruct k; cbn; lia.
  - cbn [fmap list_fmap concat]. rewrite take_app, !in_flight_app.
    destruct (in_flight_wave wave k) as [Hk Hzero].
    destruct (IH (k - length (wave_events wave))%nat) as [Hrest Hall0].
    destruct (IH 0%nat) as [_ Hz]. rewrite Hzero, Hz. split; [|lia].
    destruct (Nat.le_gt_cases (length (wave_events wave)) k) as [Hge|Hlt].
    + rewrite (take_ge (wave_events wave)) by lia. rewrite Hzero. flight_lia.
    + replace (k - length (wave_events wave))%nat with 0%nat by lia.
      rewrite take_0. cbn [in_flight]. flight_lia.
Qed.

End InFlight.

(** X21.  [schedule_batch] bounds the work in flight: at every point of
    a call (on a live pool, with a positive [max_concurrent]) the units
    submitted and not yet waited for number at most [max_concurrent],
    and none is left when the call returns.  [map] sets no such bound:
    it submits every item before it waits for the first result. *)
Theorem schedule_batch_bounds_work_in_flight :
  forall (A V : Type) (tasks : list ((A -> Outcome V) * A))
         (max_concurrent : Z) (p : DynamicThreadPool)
         (func : A -> Outcome V) (items : list A) (order : list nat) (k : nat),
    live p ->
    0 < max_concurrent ->
    let batch := snd (TaskScheduler.schedule_batch tasks (Some max_concurrent) p) in
    let mapped := snd (ThreadPool.map func items order p) in
    0 <= in_flight (take k batch) <= max_concurrent
    /\ in_flight batch = 0
    /\ in_flight (take (length items) mapped) = Z.of_nat (length items).
Proof.
  intros A V tasks mc p func items order k Hlive Hmc batch mapped.
  subst batch mapped.
  rewrite (schedule_batch_run tasks (Some mc) mc p Hlive eq_refl Hmc),
          (map_run func items order p Hlive). cbn [snd].
  assert (Hall : Forall (fun wave => Z.of_nat (length wave) <= mc) (waves mc tasks)).
  { apply Forall_lookup. intros i wave Hi.
    destruct (waves_shape mc tasks i wave Hmc Hi) as [_ Hlen]. lia. }
  destruct (in_flight_waves (waves mc tasks) mc k ltac:(lia) Hall) as [Hk Hz].
  split; [exact Hk|]. split; [exact Hz|].
  rewrite take_app_length' by now rewrite length_fmap.
  clear. induction items as [|x items IH]; [reflexivity|].
  cbn [fmap list_fmap in_flight compose length] in *. lia.
Qed.

(** The theorem on five tasks in waves of two, after seven events; and
    [map] over three items. *)
Lemma schedule_batch_bounds_work_in_flight_witness :
  let func := fun x : Z => if Z.eqb x 3 then Raises "boom" else Returns (10 * x) in
  let tasks := (fun x => (func, x)) <$> [1; 2; 3; 4; 5] in
  let batch := snd (TaskScheduler.schedule_batch tasks (Some 2) global_thread_pool) in
  let mapped := snd (ThreadPool.map func [1; 2; 3] [2; 0; 1]%nat global_thread_pool) in
  0 <= in_flight (take 7 batch) <= 2
  /\ in_flight batch = 0
  /\ in_flight (take 3 mapped) = 3.
Proof.
  intros func tasks.
  apply (schedule_batch_bounds_work_in_flight Z Z tasks 2 global_thread_pool
           func [1; 2; 3] [2; 0; 1]%nat 7%nat).
  - exists (mkExecutor 2 false). split; reflexivity.
  - lia.
Defined.

Section AfterShutdown.

Context {A V : Type}.

Lemma range_starts_at_zero (n : nat) (step : Z) :
  0 < step ->
  exists rest, PyNum.range 0 (Z.of_nat (S n)) step = Some (0 :: rest).
Proof.
  intros Hstep. unfold PyNum.range.
  rewrite (proj2 (Z.eqb_neq step 0)) by lia.
  rewrite (proj2 (Z.ltb_lt 0 step)) by lia.
  rewrite (proj2 (Z.ltb_lt 0 (Z.of_nat (S n)))) by lia.
  assert (Hq : 0 <= (Z.of_nat (S n) - 0 - 1) / step)
    by (apply Z.div_pos; lia).
  destruct (Z.to_nat ((Z.of_nat (S n) - 0 - 1) / step + 1)) as [|k] eqn:Hk; [lia|].
  cbn [seq List.map]. eexists. reflexivity.
Qed.

Lemma submit_closed (func : A -> Outcome V) args p :
  closed p ->
  submit func args p = (Raised shutdown_error, p, []).
Proof.
  intros (e & He & Hshut). destruct p, e. cbn in He, Hshut. subst.
  reflexivity.
Qed.

Lemma map_closed (func : A -> Outcome V) args items order p :
  closed p ->
  ThreadPool.map func (args :: items) order p = (Raised shutdown_error, p, []).
Proof.
  intros (e & He & Hshut). destruct p, e. cbn in He, Hshut. subst.
  reflexivity.
Qed.

Lemma schedule_batch_closed (func : A -> Outcome V) args tasks max_concurrent p :
  closed p ->
  0 < max_concurrent ->
  TaskScheduler.schedule_batch ((func, args) :: tasks) (Some max_concurrent) p
  = (Raised shutdown_error, p, []).
Proof.
  intros Hclosed Hmc.
  destruct (range_starts_at_zero (length tasks) max_concurrent Hmc) as [rest Hr].
  unfold TaskScheduler.schedule_batch.
  eapply run_conv.
  - eapply bind_done.
    + reflexivity.
    + cbn [from_option id length]. rewrite Hr.
      cbn [TaskScheduler.batch_loop]. unfold PyNum.slice.
      replace (Z.to_nat (0 + max_concurrent - 0))
        with (S (Z.to_nat (max_concurrent - 1))) by lia.
      cbn [Z.to_nat drop take TaskScheduler.submit_batch].
      apply bind_raised. apply bind_raised. apply submit_closed. exact Hclosed.
    + reflexivity.
  - reflexivity.
  - reflexivity.
Qed.

End AfterShutdown.

Lemma submit_task_closed {V} (work : Z -> Outcome V) p :
  closed p ->
  submit_task work p
  = (Raised shutdown_error, p, [EvSleep 1; EvSleep 2; EvSleep 4]).
Proof.
  intros (e & He & Hshut). destruct p, e. cbn in He, Hshut. subst.
  reflexivity.
Qed.

(** X22.  After [shutdown_global_pool] the pool takes no more work.  The
    call sets the stop event and shuts the executor down, and calling it
    again changes nothing.  From then on [submit], [map] over a
    non-empty iterable and [schedule_batch] of a non-empty task list
    raise "cannot schedule new futures after shutdown" without
    submitting anything; [submit_task] treats that error as a failure
    of the work: it retries three times, sleeping 1, 2 and 4 seconds,
    and only then raises it.  The work itself is never run. *)
Theorem no_work_after_shutdown :
  forall (A V : Type) (p : DynamicThreadPool) (func : A -> Outcome V) (args : A)
         (items : list A) (order : list nat)
         (tasks : list ((A -> Outcome V) * A)) (max_concurrent : Z)
         (work : Z -> Outcome V),
    live p ->
    0 < max_concurrent ->
    exists p',
      shutdown_global_pool (V:=V) p = (Done tt, p', [])
      /\ _stop_event p' = true
      /\ closed p'
      /\ shutdown_global_pool (V:=V) p' = (Done tt, p', [])
      /\ submit func args p' = (Raised shutdown_error, p', [])
      /\ ThreadPool.map func (args :: items) order p'
         = (Raised shutdown_error, p', [])
      /\ TaskScheduler.schedule_batch ((func, args) :: tasks)
           (Some max_concurrent) p'
         = (Raised shutdown_error, p', [])
      /\ submit_task work p'
         = (Raised shutdown_error, p', [EvSleep 1; EvSleep 2; EvSleep 4]).
Proof.
  intros A V p func args items order tasks mc work (e & He & Hopen) Hmc.
  exists (set_executor (Some (executor_shut e)) (set_stop_event true p)).
  assert (Hclosed : closed (set_executor (Some (executor_shut e))
                              (set_stop_event true p))).
  { exists (executor_shut e). split; reflexivity. }
  split; [|split; [|split; [|split; [|split; [|split; [|split]]]]]].
  - destruct p. cbn in He. subst. reflexivity.
  - reflexivity.
  - exact Hclosed.
  - destruct p, e. cbn in He. subst. reflexivity.
  - apply submit_closed, Hclosed.
  - apply map_closed, Hclosed.
  - apply schedule_batch_closed; [exact Hclosed | exact Hmc].
  - apply submit_task_closed, Hclosed.
Qed.

Lemma no_work_after_shutdown_witness :
  let down := set_executor (Some (mkExecutor 2 true))
                (set_stop_event true global_thread_pool) in
  shutdown_global_pool (V:=Z) global_thread_pool = (Done tt, down, [])
  /\ submit (fun x : Z => Returns x) 7 down = (Raised shutdown_error, down, [])
  /\ submit_task (fun _ : Z => Returns 7) down
     = (Raised shutdown_error, down, [EvSleep 1; EvSleep 2; EvSleep 4]).
Proof.
  intros down.
  destruct (no_work_after_shutdown Z Z global_thread_pool
              (fun x : Z => Returns x) 7 [] [] [] 1 (fun _ : Z => Returns 7))
    as (p' & Hdown & _ & _ & _ & Hsubmit & _ & _ & Htask).
  - exists (mkExecutor 2 false). split; reflexivity.
  - lia.
  - assert (p' = down) as -> by (now injection Hdown as <-).
    split; [exact Hdown | split; [exact Hsubmit | exact Htask]].
Defined.
